(** * Fund portal: the data-fetching and wallet state logic of [src/App.jsx]

    The component keeps eight pieces of React state, fills them from a
    read-only contract and from the browser wallet, and renders cards and
    panels from them.  This development embeds

    - the numbers the component stores (JavaScript numbers are IEEE
      binary64 values, modelled with the Standard Library's [spec_float]),
    - the formatting helpers [formatNumber] and [formatUSD],
    - the asynchronous functions [loadFundData], [loadLPData],
      [connectWallet], [disconnectWallet], the mount effect and the wallet
      event listeners, as tasks that alternate state updates and awaited
      requests,
    - the event loop that interleaves the pending tasks,
    - the conditions under which each section of the page is rendered.

    State updates issued in one synchronous stretch of code, between two
    awaited network or wallet answers, are taken to be batched into one
    render, as React does: a render state is the state at the end of such a
    stretch.

    The component reads [window.ethereum] at every render and lists it
    among the dependencies of its effects.  The event loop below takes the
    provider to stay what it was at the first render: a provider injected
    or replaced later would run the mount effect again, which no event
    here stands for. *)

From Stdlib Require Import ZArith List String Ascii Bool Lia QArith Qabs Qpower.
From Stdlib Require Import SpecFloat DecimalString.
Import ListNotations.

Local Open Scope string_scope.
Local Open Scope Z_scope.

(** ** JavaScript numbers *)

Module JsNum.

(** A JavaScript number is a binary64 value. *)
Definition float := spec_float.

Definition prec : Z := 53.
Definition emax : Z := 1024.

Definition fsub : float -> float -> float := SFsub prec emax.
Definition fmul : float -> float -> float := SFmul prec emax.
Definition fdiv : float -> float -> float := SFdiv prec emax.

(** [x >= y] and [x > y]; both are false when either side is NaN. *)
Definition fge (x y : float) : bool := SFleb y x.
Definition fgt (x y : float) : bool := SFltb y x.

(** [Number(n)] for a BigInt [n], and the value of an integer literal:
    the binary64 value nearest to [n]. *)
Definition Number (n : Z) : float := binary_normalize prec emax n 0 false.

(** The binary64 value nearest to the quotient [n / d] of two integers of
    any size, ties to even. *)
Definition nearest_ratio (n : Z) (d : positive) : float :=
  match n with
  | Z0 => S754_zero false
  | Zpos p => fdiv (S754_finite false p 0) (S754_finite false d 0)
  | Zneg p => fdiv (S754_finite true p 0) (S754_finite false d 0)
  end.

(** [parseFloat(ethers.formatEther(v))]: [formatEther] writes the exact
    decimal expansion of [v / 10^18] and [parseFloat] reads a decimal
    string as the nearest binary64 value. *)
Definition parseFloat_formatEther (v : Z) : float :=
  nearest_ratio v (10 ^ 18)%positive.

(** The exact rational value of a finite number. *)
Definition to_Q (x : float) : option Q :=
  match x with
  | S754_zero _ => Some 0%Q
  | S754_finite s m e =>
      let a := if s then Z.neg m else Z.pos m in
      Some (match e with
            | Zneg k => Qmake a (2 ^ k)%positive
            | _ => inject_Z (a * 2 ^ e)
            end)
  | _ => None
  end.

(** Truthiness of a number: [0], [-0] and [NaN] are falsy. *)
Definition truthy (x : float) : bool :=
  match x with
  | S754_zero _ | S754_nan => false
  | _ => true
  end.

Arguments fsub : simpl never.
Arguments fmul : simpl never.
Arguments fdiv : simpl never.
Arguments Number : simpl never.
Arguments nearest_ratio : simpl never.
Arguments parseFloat_formatEther : simpl never.

End JsNum.

Import JsNum.

(** ** Number formatting *)

Module Format.

(** Decimal digits of a natural number. *)
Definition digits (n : N) : string := NilZero.string_of_uint (N.to_uint n).

Fixpoint zeros (n : nat) : string :=
  match n with
  | O => EmptyString
  | S k => String "0" (zeros k)
  end.

Definition pad_left (width : nat) (s : string) : string :=
  zeros (width - String.length s) ++ s.

(** Insert a comma before every group of three digits, counted from the
    right, as the en-US locale groups the integer part. *)
Fixpoint group_rev (cs : list ascii) (i : nat) : list ascii :=
  match cs with
  | [] => []
  | c :: rest =>
      match rest with
      | [] => [c]
      | _ => if (i mod 3 =? 2)%nat then c :: ","%char :: group_rev rest (S i)
             else c :: group_rev rest (S i)
      end
  end.

Definition group (s : string) : string :=
  string_of_list_ascii (rev (group_rev (rev (list_ascii_of_string s)) 0)).

(** The magnitude [m * 2^e] as a fraction of two integers, and a power of
    ten likewise. *)
Definition binary_fraction (m : positive) (e : Z) : Z * Z :=
  (Z.pos m * 2 ^ Z.max 0 e, 2 ^ Z.max 0 (- e)).

Definition power_of_ten (p : Z) : Z * Z :=
  (10 ^ Z.max 0 p, 10 ^ Z.max 0 (- p)).

(** The number of decimal digits of a positive integer. *)
Fixpoint decimal_length (fuel : nat) (a : Z) : Z :=
  match fuel with
  | O => 0
  | S f => if a <? 10 then 1 else 1 + decimal_length f (a / 10)
  end.

(** The number of zeros between the decimal point and the first digit of a
    fraction [xn / xd] below 1. *)
Fixpoint leading_zeros (fuel : nat) (xn xd : Z) (j : Z) : Z :=
  match fuel with
  | O => j
  | S f => if xd <=? xn * 10 ^ (j + 1) then j else leading_zeros f xn xd (j + 1)
  end.

(** The decimal exponent [n] of [m * 2^e]: [10^(n-1) <= m * 2^e < 10^n]. *)
Definition decimal_exponent (m : positive) (e : Z) : Z :=
  let '(xn, xd) := binary_fraction m e in
  if xd <=? xn then decimal_length 400 (xn / xd)
  else - leading_zeros 400 xn xd 0.

(** Whether the decimal [s * 10^p] reads back as the binary64 number
    [m * 2^e]: it lies within half a unit in the last place of it, the
    bounds included when [m] is even.  Below a power of two the numbers
    are twice as dense, so the lower bound is half as far. *)
Definition reads_back (m : positive) (e : Z) (s p : Z) : bool :=
  let '(un, ud) := binary_fraction 1 (e - 2) in
  let '(pn, pd) := power_of_ten p in
  let below := if (Z.pos m =? 2 ^ 52) && (-1074 <? e) then 1 else 2 in
  let low := (4 * Z.pos m - below) * un * pd in
  let high := (4 * Z.pos m + 2) * un * pd in
  let c := s * pn * ud in
  if Z.even (Z.pos m) then (low <=? c) && (c <=? high)
  else (low <? c) && (c <? high).

(** The [k]-digit decimal nearest to [m * 2^e], when it reads back as that
    number. *)
Definition candidate (m : positive) (e : Z) (n k : Z) : option (Z * Z) :=
  let p := n - k in
  let '(xn, xd) := binary_fraction m e in
  let '(pn, pd) := power_of_ten p in
  let s := (xn * pd) / (xd * pn) in
  let r := (xn * pd) mod (xd * pn) in
  let down := reads_back m e s p in
  let up := reads_back m e (s + 1) p in
  let nearer_up :=
    match 2 * r ?= xd * pn with
    | Lt => false
    | Gt => true
    | Eq => Z.odd s
    end in
  if down && up then Some (if nearer_up then s + 1 else s, p)
  else if down then Some (s, p)
  else if up then Some (s + 1, p)
  else None.

(** The shortest decimal that reads back as [m * 2^e], as
    [Number.prototype.toString] and ICU compute it: as few digits as
    possible, and among those the decimal nearest to the number. *)
Fixpoint shortest_from (fuel : nat) (m : positive) (e : Z) (n k : Z) : Z * Z :=
  match fuel with
  | O => (Z.pos m * 2 ^ Z.max 0 e, 0)
  | S f =>
      match candidate m e n k with
      | Some c => c
      | None => shortest_from f m e n (k + 1)
      end
  end.

Definition shortest_decimal (m : positive) (e : Z) : Z * Z :=
  shortest_from 17 m e (decimal_exponent m e) 1.

(** The decimal [s * 10^p], times [10^d], rounded to an integer with ties
    away from zero (the default rounding mode, [halfExpand]). *)
Definition round_decimal (s p : Z) (d : nat) : Z :=
  let t := p + Z.of_nat d in
  match t with
  | Zneg q => (2 * s + 10 ^ Z.pos q) / (2 * 10 ^ Z.pos q)
  | _ => s * 10 ^ t
  end.

Definition fixed (sign : bool) (n : Z) (d : nat) : string :=
  let p := 10 ^ Z.of_nat d in
  let whole := group (digits (Z.to_N (n / p))) in
  let frac := pad_left d (digits (Z.to_N (n mod p))) in
  (if sign then "-" else EmptyString) ++
  whole ++ (match d with O => EmptyString | _ => "." ++ frac end).

(** [new Intl.NumberFormat('en-US', { minimumFractionDigits: d,
    maximumFractionDigits: d }).format(x)].  The formatter does not round
    the exact binary value of [x]: it takes the shortest decimal that
    reads back as [x] and rounds that one, so 1.005 prints as 1.01 with
    two decimals although the number stored is below 1.005. *)
Definition intl_format (d : nat) (x : float) : string :=
  match x with
  | S754_nan => "NaN"
  | S754_infinity s => (if s then "-" else EmptyString) ++ "∞"
  | S754_zero s => fixed s 0 d
  | S754_finite s m e =>
      let '(digits, p) := shortest_decimal m e in
      fixed s (round_decimal digits p d) d
  end.

(** A value read from the state: [None] stands for [null] and
    [undefined]. *)
Definition formatNumber (num : option float) (decimals : nat) : string :=
  match num with
  | None => "-"
  | Some x => intl_format decimals x
  end.

Definition formatUSD (num : option float) : string :=
  match num with
  | None => "-"
  | Some x =>
      if fge x (Number 1000000) then
        "$" ++ formatNumber (Some (fdiv x (Number 1000000))) 2 ++ "M"
      else if fge x (Number 1000) then
        "$" ++ formatNumber (Some (fdiv x (Number 1000))) 2 ++ "K"
      else "$" ++ formatNumber (Some x) 2
  end.

End Format.

Import Format.


(** ** The configuration object *)

Module CONFIG.
Definition contractAddress : string := "0xF4a8A48813b6edF75E53f21A993D9f72147d86C8".
Definition chainId : Z := 84532.
Definition chainName : string := "Base Sepolia".
Definition rpcUrl : string := "https://sepolia.base.org".
Definition blockExplorer : string := "https://sepolia.basescan.org".
End CONFIG.

(** ** Hexadecimal chain identifiers *)

Module Hex.

Definition digit_value (c : ascii) : option Z :=
  let n := Z.of_nat (nat_of_ascii c) in
  if (48 <=? n) && (n <=? 57) then Some (n - 48)
  else if (97 <=? n) && (n <=? 102) then Some (n - 87)
  else if (65 <=? n) && (n <=? 70) then Some (n - 55)
  else None.

Definition is_space (c : ascii) : bool :=
  let n := nat_of_ascii c in
  ((n =? 32) || (n =? 9) || (n =? 10) || (n =? 11) || (n =? 12) || (n =? 13))%nat.

Fixpoint skip_spaces (s : string) : string :=
  match s with
  | String c rest => if is_space c then skip_spaces rest else s
  | EmptyString => s
  end.

(** Reads the longest prefix of hexadecimal digits; [None] when there is
    no digit at all. *)
Fixpoint read_digits (s : string) (acc : option Z) : option Z :=
  match s with
  | String c rest =>
      match digit_value c with
      | Some d => read_digits rest (Some (16 * match acc with Some a => a | None => 0 end + d))
      | None => acc
      end
  | EmptyString => acc
  end.

Definition strip_prefix (s : string) : string :=
  match s with
  | String "0" (String "x" rest) => rest
  | String "0" (String "X" rest) => rest
  | _ => s
  end.

(** [parseInt(s, 16)]; [None] stands for [NaN]. *)
Definition parseInt16 (s : string) : option Z :=
  match skip_spaces s with
  | String "-" rest => option_map Z.opp (read_digits (strip_prefix rest) None)
  | String "+" rest => read_digits (strip_prefix rest) None
  | t => read_digits (strip_prefix t) None
  end.

Definition digit_char (d : Z) : ascii :=
  ascii_of_nat (Z.to_nat (if d <? 10 then d + 48 else d + 87)).

Fixpoint to_digits (fuel : nat) (n : Z) (acc : string) : string :=
  match fuel with
  | O => acc
  | S f =>
      let acc' := String (digit_char (n mod 16)) acc in
      if n / 16 =? 0 then acc' else to_digits f (n / 16) acc'
  end.

(** [n.toString(16)] for a non-negative integer. *)
Definition toString16 (n : Z) : string :=
  to_digits (S (Z.to_nat (Z.log2 n))) n EmptyString.

End Hex.

(** ** Data model *)

(** What the contract returns.  Unsigned and signed 256-bit integers arrive
    as BigInts and are kept as [Z]. *)
Record FundAnswers := {
  ans_fundName : string;
  ans_fundDescription : string;
  ans_getCurrentNAV : Z;
  ans_totalSupply : Z;
  ans_fundInceptionDate : Z;
  ans_getNavHistoryLength : Z
}.

Record NavRecord := {
  rec_timestamp : Z;
  rec_nav : Z;
  rec_totalShares : Z;
  rec_totalAssets : Z;
  rec_ipfsHash : string
}.

Record LpInfo := {
  info_initialInvestment : Z;
  info_investmentDate : Z;
  info_isActive : bool
}.

Record LPAnswers := {
  ans_whitelist : bool;
  ans_balanceOf : Z;
  ans_getLPValue : Z;
  ans_getLPReturn : Z;
  ans_lpInfo : LpInfo
}.

(** What the component stores. *)
Record FundData := {
  name : string;
  description : string;
  currentNav : float;
  totalShares : float;
  inceptionDate : float
}.

Record NavPoint := {
  date : string;
  nav : float;
  timestamp : float
}.

Record LpData := {
  shares : float;
  value : float;
  initialInvestment : float;
  returnRate : float;
  investmentDate : float
}.

(** The eight [useState] cells, with their initial values. *)
Record State := {
  account : option string;
  isConnecting : bool;
  isWhitelisted : bool;
  fundData : option FundData;
  lpData : option LpData;
  navHistory : list NavPoint;
  error : option string;
  loading : bool
}.

Definition initial : State := {|
  account := None;
  isConnecting := false;
  isWhitelisted := false;
  fundData := None;
  lpData := None;
  navHistory := [];
  error := None;
  loading := true
|}.

(** The state setters. *)
Inductive Setter :=
| setAccount (a : option string)
| setIsConnecting (b : bool)
| setIsWhitelisted (b : bool)
| setFundData (d : option FundData)
| setLpData (d : option LpData)
| setNavHistory (h : list NavPoint)
| setError (e : option string)
| setLoading (b : bool).

Definition apply (u : Setter) (s : State) : State :=
  match u with
  | setAccount a =>
      {| account := a; isConnecting := isConnecting s; isWhitelisted := isWhitelisted s;
         fundData := fundData s; lpData := lpData s; navHistory := navHistory s;
         error := error s; loading := loading s |}
  | setIsConnecting b =>
      {| account := account s; isConnecting := b; isWhitelisted := isWhitelisted s;
         fundData := fundData s; lpData := lpData s; navHistory := navHistory s;
         error := error s; loading := loading s |}
  | setIsWhitelisted b =>
      {| account := account s; isConnecting := isConnecting s; isWhitelisted := b;
         fundData := fundData s; lpData := lpData s; navHistory := navHistory s;
         error := error s; loading := loading s |}
  | setFundData d =>
      {| account := account s; isConnecting := isConnecting s; isWhitelisted := isWhitelisted s;
         fundData := d; lpData := lpData s; navHistory := navHistory s;
         error := error s; loading := loading s |}
  | setLpData d =>
      {| account := account s; isConnecting := isConnecting s; isWhitelisted := isWhitelisted s;
         fundData := fundData s; lpData := d; navHistory := navHistory s;
         error := error s; loading := loading s |}
  | setNavHistory h =>
      {| account := account s; isConnecting := isConnecting s; isWhitelisted := isWhitelisted s;
         fundData := fundData s; lpData := lpData s; navHistory := h;
         error := error s; loading := loading s |}
  | setError e =>
      {| account := account s; isConnecting := isConnecting s; isWhitelisted := isWhitelisted s;
         fundData := fundData s; lpData := lpData s; navHistory := navHistory s;
         error := e; loading := loading s |}
  | setLoading b =>
      {| account := account s; isConnecting := isConnecting s; isWhitelisted := isWhitelisted s;
         fundData := fundData s; lpData := lpData s; navHistory := navHistory s;
         error := error s; loading := b |}
  end.

(** ** Asynchronous tasks *)

(** A rejected promise carries an error object; the code reads its [code]
    and its [message]. *)
Record JsError := {
  code : option Z;
  message : string
}.

(** [err.code === n] *)
Definition code_is (err : JsError) (n : Z) : bool :=
  match code err with
  | Some c => c =? n
  | None => false
  end.

(** A settled promise. *)
Inductive Result (R : Type) : Type :=
| Resolved (v : R)
| Rejected (e : JsError).
Arguments Resolved {R} v.
Arguments Rejected {R} e.

(** The promises the code awaits, indexed by the type of what they
    resolve to.  [fund_queries] and [lp_queries] are the two [Promise.all]
    batches: each resolves with every answer or rejects with the first
    failure. *)
Inductive Request : Type -> Type :=
| eth_requestAccounts : Request (list string)
| eth_accounts : Request (list string)
| eth_chainId : Request string
| wallet_switchEthereumChain (chainId : string) : Request unit
| wallet_addEthereumChain (chainId chainName rpcUrl blockExplorerUrl : string) : Request unit
| fund_queries : Request FundAnswers
| contract_navHistory (i : Z) : Request NavRecord
| lp_queries (address : string) : Request LPAnswers.

(** An async function body: state updates, console output, awaited
    promises, a normal return or a thrown error. *)
Inductive Task (A : Type) : Type :=
| Ret (a : A)
| Throw (e : JsError)
| Update (u : Setter) (k : Task A)
| Log (msg : string) (k : Task A)
| Await (R : Type) (r : Request R) (k : Result R -> Task A).
Arguments Ret {A} a.
Arguments Throw {A} e.
Arguments Update {A} u k.
Arguments Log {A} msg k.
Arguments Await {A R} r k.

Fixpoint bind {A B : Type} (t : Task A) (f : A -> Task B) : Task B :=
  match t with
  | Ret a => f a
  | Throw e => Throw e
  | Update u k => Update u (bind k f)
  | Log m k => Log m (bind k f)
  | Await r k => Await r (fun x => bind (k x) f)
  end.

(** [try { t } catch (err) { h err }] *)
Fixpoint try_catch {A : Type} (t : Task A) (h : JsError -> Task A) : Task A :=
  match t with
  | Ret a => Ret a
  | Throw e => h e
  | Update u k => Update u (try_catch k h)
  | Log m k => Log m (try_catch k h)
  | Await r k => Await r (fun x => try_catch (k x) h)
  end.

(** [try { t } finally { f }] *)
Fixpoint finally {A : Type} (t : Task A) (f : Task unit) : Task A :=
  match t with
  | Ret a => bind f (fun _ => Ret a)
  | Throw e => bind f (fun _ => Throw e)
  | Update u k => Update u (finally k f)
  | Log m k => Log m (finally k f)
  | Await r k => Await r (fun x => finally (k x) f)
  end.

(** [await r]: the value of a resolved promise; a rejection is thrown at
    the await. *)
Definition await {R : Type} (r : Request R) : Task R :=
  Await r (fun res => match res with
                      | Resolved v => Ret v
                      | Rejected e => Throw e
                      end).

Definition set (u : Setter) : Task unit := Update u (Ret tt).
Definition console_error (msg : string) : Task unit := Log msg (Ret tt).

Declare Scope task_scope.
Delimit Scope task_scope with task.
Notation "x <- t ;; k" := (bind t (fun x => k))
  (at level 61, t at next level, right associativity) : task_scope.
Notation "t ;; k" := (bind t (fun _ => k))
  (at level 61, right associativity) : task_scope.
Local Open Scope task_scope.

(** ** Running tasks *)

(** A task stopped at an [await]. *)
Inductive Suspended : Type :=
| Susp (R : Type) (r : Request R) (k : Result R -> Task unit).
Arguments Susp {R} r k.

Inductive Outcome : Type :=
| Finished
| Uncaught (e : JsError)
| Waiting (p : Suspended).

Record Ran := {
  state_after : State;
  logged : list string;
  outcome : Outcome
}.

(** One synchronous run: from where the task stands to its next [await],
    its return or an uncaught throw.  The updates of one run are batched
    into one render, so [state_after] is what the page shows next. *)
Fixpoint run (t : Task unit) (s : State) : Ran :=
  match t with
  | Ret _ => {| state_after := s; logged := []; outcome := Finished |}
  | Throw e => {| state_after := s; logged := []; outcome := Uncaught e |}
  | Update u k => run k (apply u s)
  | Log m k =>
      let r := run k s in
      {| state_after := state_after r; logged := m :: logged r; outcome := outcome r |}
  | Await r k => {| state_after := s; logged := []; outcome := Waiting (Susp r k) |}
  end.

(** How the outside world settles each promise. *)
Definition Oracle : Type := forall R : Type, Request R -> Result R.

(** How an async function ends: the state it leaves, what it printed and
    how its own promise settles. *)
Record Ended (A : Type) := {
  final : State;
  printed : list string;
  returned : Result A
}.
Arguments final {A} e.
Arguments printed {A} e.
Arguments returned {A} e.

(** A task run alone to its end, every promise settled by [answer]. *)
Fixpoint exec {A : Type} (answer : Oracle) (t : Task A) (s : State) : Ended A :=
  match t with
  | Ret a => {| final := s; printed := []; returned := Resolved a |}
  | Throw e => {| final := s; printed := []; returned := Rejected e |}
  | Update u k => exec answer k (apply u s)
  | Log m k =>
      let r := exec answer k s in
      {| final := final r; printed := m :: printed r; returned := returned r |}
  | Await r k => exec answer (k (answer _ r)) s
  end.

(** The states shown while the task waits: one for each [await] it
    reaches, in order. *)
Fixpoint shown_while_waiting {A : Type} (answer : Oracle) (t : Task A) (s : State)
  : list (State * option string) :=
  match t with
  | Ret _ | Throw _ => []
  | Update u k => shown_while_waiting answer k (apply u s)
  | Log _ k => shown_while_waiting answer k s
  | Await r k =>
      (s, match r with lp_queries address => Some address | _ => None end)
      :: shown_while_waiting answer (k (answer _ r)) s
  end.

(** The request a run stopped at, when it is a position load. *)
Definition awaits_position (o : Outcome) : option string :=
  match o with
  | Waiting (Susp r _) =>
      match r with
      | lp_queries address => Some address
      | _ => None
      end
  | _ => None
  end.

(** ** The event loop *)

Record Sys := {
  ui : State;
  pending : list Suspended;
  console : list string;
  unhandled : list JsError
}.

Fixpoint remove_nth {A : Type} (i : nat) (l : list A) : list A :=
  match l, i with
  | [], _ => []
  | _ :: rest, O => rest
  | x :: rest, S j => x :: remove_nth j rest
  end.

(** Start or resume a task on the current state. *)
Definition spawn (t : Task unit) (sys : Sys) : Sys :=
  let r := run t (ui sys) in
  {| ui := state_after r;
     pending := match outcome r with
                | Waiting p => (pending sys ++ [p])%list
                | _ => pending sys
                end;
     console := (console sys ++ logged r)%list;
     unhandled := match outcome r with
                  | Uncaught e => (unhandled sys ++ [e])%list
                  | _ => unhandled sys
                  end |}.

(** A string used as a condition: [null] and the empty string are
    falsy. *)
Definition str_truthy (o : option string) : bool :=
  match o with
  | Some s => negb (s =? EmptyString)%string
  | None => false
  end.

(** The header button is rendered when [account] is falsy and disabled
    while connecting; the button of the "Connect Your Wallet" panel is
    rendered when the page is not loading and [account] is falsy. *)
Definition connect_clickable (s : State) : bool :=
  negb (str_truthy (account s)) && (negb (isConnecting s) || negb (loading s)).

Definition disconnect_clickable (s : State) : bool :=
  str_truthy (account s).

(** ** What is rendered *)

Definition error_banner (s : State) : option string :=
  if str_truthy (error s) then error s else None.

(** [fundData?.currentNav] *)
Definition currentNav_of (s : State) : option float :=
  option_map currentNav (fundData s).

(** A missing operand of [-] or [>=] is [undefined], which converts to
    NaN. *)
Definition to_number (x : option float) : float :=
  match x with
  | Some v => v
  | None => S754_nan
  end.

(** The "Current NAV" card, rendered when the page is not loading. *)
Definition nav_text (s : State) : string :=
  "$" ++ formatNumber (currentNav_of s) 4.

Definition since_inception_text (s : State) : string :=
  (if fge (to_number (currentNav_of s)) (Number 1) then "+" else EmptyString) ++
  formatNumber (Some (fmul (fsub (to_number (currentNav_of s)) (Number 1)) (Number 100))) 2 ++
  "% since inception".

Definition chart_rendered (s : State) : bool :=
  negb (loading s) && (1 <? List.length (navHistory s))%nat.

Definition your_investment_rendered (s : State) : bool :=
  negb (loading s) && str_truthy (account s) && isWhitelisted s &&
  match lpData s with
  | Some d => fgt (shares d) (Number 0)
  | None => false
  end.

Definition connect_prompt_rendered (s : State) : bool :=
  negb (loading s) && negb (str_truthy (account s)).

Definition not_whitelisted_rendered (s : State) : bool :=
  negb (loading s) && str_truthy (account s) && negb (isWhitelisted s).

(** The connection states of the wallet state machine. *)
Inductive Connection :=
| Disconnected
| Connecting
| Connected (address : string).

Definition connection (s : State) : Connection :=
  match account s with
  | Some a => Connected a
  | None => if isConnecting s then Connecting else Disconnected
  end.

(** ** The component's functions *)

Section App.

(** Whether [window.ethereum] is present, as read at the first render and
    taken to stay so until the page is reloaded. *)
Variable hasWallet : bool.

(** [new Date(ms).toLocaleDateString('en-US', ...)]: depends on the time
    zone of the browser. *)
Variable toLocaleDateString : float -> string.

Definition formatDate (timestamp : float) : string :=
  if negb (truthy timestamp) then "-"
  else toLocaleDateString (fmul timestamp (Number 1000)).

(** The object literals stored by [loadFundData] and [loadLPData]. *)
Definition fund_of (r : FundAnswers) : FundData := {|
  name := ans_fundName r;
  description := ans_fundDescription r;
  currentNav := parseFloat_formatEther (ans_getCurrentNAV r);
  totalShares := parseFloat_formatEther (ans_totalSupply r);
  inceptionDate := Number (ans_fundInceptionDate r)
|}.

Definition point_of (record : NavRecord) : NavPoint := {|
  date := formatDate (Number (rec_timestamp record));
  nav := parseFloat_formatEther (rec_nav record);
  timestamp := Number (rec_timestamp record)
|}.

Definition position_of (r : LPAnswers) : LpData := {|
  shares := parseFloat_formatEther (ans_balanceOf r);
  value := parseFloat_formatEther (ans_getLPValue r);
  initialInvestment := parseFloat_formatEther (info_initialInvestment (ans_lpInfo r));
  returnRate := fdiv (Number (ans_getLPReturn r)) (Number 100);
  investmentDate := Number (info_investmentDate (ans_lpInfo r))
|}.

(** The [for] loop of [loadFundData]: [n] iterations remain, [i] is the
    next index.  The counter is a JavaScript number, exact for every length
    below 2^53. *)
Fixpoint history_loop (n : nat) (i : Z) (history : list NavPoint)
  : Task (list NavPoint) :=
  match n with
  | O => Ret history
  | S n' =>
      record <- await (contract_navHistory i) ;;
      history_loop n' (i + 1) (history ++ [point_of record])%list
  end.

Definition loadFundData : Task unit :=
  finally
    (try_catch
       (set (setLoading true) ;;
        r <- await fund_queries ;;
        set (setFundData (Some (fund_of r))) ;;
        let historyLen := ans_getNavHistoryLength r in
        history <- history_loop (Z.to_nat historyLen) 0 [] ;;
        set (setNavHistory history))
       (fun err =>
          console_error "Error loading fund data:" ;;
          set (setError (Some "Failed to load fund data. Please check the contract address."))))
    (set (setLoading false)).

Definition loadLPData (address : string) : Task unit :=
  try_catch
    (r <- await (lp_queries address) ;;
     set (setIsWhitelisted (ans_whitelist r)) ;;
     if ans_whitelist r then
       set (setLpData (Some (position_of r)))
     else Ret tt)
    (fun err => console_error "Error loading LP data:").

(** [parseInt(chainId, 16) !== CONFIG.chainId] *)
Definition wrong_chain (chainId : string) : bool :=
  match Hex.parseInt16 chainId with
  | Some n => negb (n =? CONFIG.chainId)
  | None => true
  end.

Definition target_chain : string := "0x" ++ Hex.toString16 CONFIG.chainId.

(** The network check of [connectWallet]: the switch request, and the
    registration request when the wallet does not know the chain. *)
Definition ensure_chain (chainId : string) : Task unit :=
  if wrong_chain chainId then
    try_catch
      (await (wallet_switchEthereumChain target_chain))
      (fun switchError =>
         if code_is switchError 4902 then
           await (wallet_addEthereumChain target_chain CONFIG.chainName
                    CONFIG.rpcUrl CONFIG.blockExplorer)
         else Ret tt)
  else Ret tt.

Definition connectWallet : Task unit :=
  if negb hasWallet then
    set (setError (Some "Please install MetaMask or another Web3 wallet"))
  else
    set (setIsConnecting true) ;;
    set (setError None) ;;
    try_catch
      (accounts <- await eth_requestAccounts ;;
       match accounts with
       | [] => Ret tt
       | account0 :: _ =>
           chainId <- await eth_chainId ;;
           ensure_chain chainId ;;
           loadLPData account0 ;;
           set (setAccount (Some account0)) ;;
           set (setIsConnecting false)
       end)
      (fun err =>
         set (setError (Some (message err))) ;;
         set (setIsConnecting false)).

Definition disconnectWallet : Task unit :=
  set (setAccount None) ;;
  set (setIsWhitelisted false) ;;
  set (setLpData None).

(** The mount effect starts [loadFundData] and [checkConnectedWallet]. *)
Definition checkConnectedWallet : Task unit :=
  if hasWallet then
    try_catch
      (accounts <- await eth_accounts ;;
       match accounts with
       | [] => Ret tt
       | account0 :: _ =>
           set (setAccount (Some account0)) ;;
           loadLPData account0
       end)
      (fun err => console_error "Error checking wallet:")
  else Ret tt.

(** The [accountsChanged] listener.  It starts [loadLPData] without
    awaiting it and does nothing afterwards. *)
Definition onAccountsChanged (accounts : list string) : Task unit :=
  match accounts with
  | account0 :: _ =>
      set (setAccount (Some account0)) ;;
      loadLPData account0
  | [] => disconnectWallet
  end.

(** ** Events *)

Definition mounted : Sys :=
  spawn checkConnectedWallet
    (spawn loadFundData
       {| ui := initial; pending := []; console := []; unhandled := [] |}).

Inductive Event : Type :=
| Settle (i : nat) (answer : Oracle)
| ClickConnect
| ClickDisconnect
| AccountsChanged (accounts : list string)
| ChainChanged.

(** What one event does.  An event that cannot happen in the current
    state leaves it as it is.  [ChainChanged] reloads the page. *)
Definition react (sys : Sys) (ev : Event) : Sys :=
  match ev with
  | Settle i answer =>
      match nth_error (pending sys) i with
      | Some (Susp r k) =>
          spawn (k (answer _ r))
            {| ui := ui sys; pending := remove_nth i (pending sys);
               console := console sys; unhandled := unhandled sys |}
      | None => sys
      end
  | ClickConnect =>
      if connect_clickable (ui sys) then spawn connectWallet sys else sys
  | ClickDisconnect =>
      if disconnect_clickable (ui sys) then spawn disconnectWallet sys else sys
  | AccountsChanged accounts =>
      if hasWallet then spawn (onAccountsChanged accounts) sys else sys
  | ChainChanged =>
      if hasWallet then mounted else sys
  end.

Definition after (evs : list Event) : Sys := fold_left react evs mounted.

(** A render state is the state after any sequence of events. *)
Definition reachable (s : State) : Prop := exists evs, ui (after evs) = s.

End App.

(** ** Which setters a task may call *)

Fixpoint only (ok : Setter -> Prop) {A : Type} (t : Task A) : Prop :=
  match t with
  | Ret _ | Throw _ => True
  | Update u k => ok u /\ only ok k
  | Log _ k => only ok k
  | Await r k => forall res, only ok (k res)
  end.

(** The setters [loadFundData] calls once the fund record is stored. *)
Definition after_fund (u : Setter) : Prop :=
  match u with
  | setNavHistory _ | setError _ | setLoading _ => True
  | _ => False
  end.

(** Every event but a click on a connect button and a reload. *)
Definition passive (ev : Event) : Prop :=
  match ev with
  | ClickConnect | ChainChanged => False
  | _ => True
  end.

(** Every setter but [setIsConnecting]. *)
Definition leaves_connecting (u : Setter) : Prop :=
  match u with
  | setIsConnecting _ => False
  | _ => True
  end.

(** Running a task keeps [P] at the end of every synchronous run, as long
    as [P] holds whenever the task is resumed. *)
Fixpoint respects (P : State -> Prop) (t : Task unit) (s : State) : Prop :=
  match t with
  | Ret _ | Throw _ => P s
  | Update u k => respects P k (apply u s)
  | Log _ k => respects P k s
  | Await r k => P s /\ forall res s', P s' -> respects P (k res) s'
  end.

Definition resumable (P : State -> Prop) (p : Suspended) : Prop :=
  match p with
  | Susp r k => forall res s, P s -> respects P (k res) s
  end.

Definition sys_inv (P : State -> Prop) (sys : Sys) : Prop :=
  P (ui sys) /\ Forall (resumable P) (pending sys).

(** A task that never ends with an uncaught error. *)
Fixpoint never_throws {A : Type} (t : Task A) : Prop :=
  match t with
  | Ret _ => True
  | Throw _ => False
  | Update _ k | Log _ k => never_throws k
  | Await r k => forall res, never_throws (k res)
  end.

Definition quiet (sys : Sys) : Prop :=
  unhandled sys = [] /\
  Forall (fun p => match p with
                   | Susp r k => forall res, never_throws (k res)
                   end) (pending sys).

(** The whitelist flag is set only together with a position record. *)
Definition record_present (s : State) : Prop :=
  isWhitelisted s = true -> lpData s <> None.

(** The position loads in flight. *)
Definition positions_in_flight (sys : Sys) : list string :=
  flat_map (fun p => match awaits_position (Waiting p) with
                     | Some a => [a]
                     | None => []
                     end) (pending sys).

(** ** Worlds *)

(** One answer for each kind of request: a way to write down an
    [Oracle]. *)
Record World := {
  on_requestAccounts : Result (list string);
  on_accounts : Result (list string);
  on_chainId : Result string;
  on_switchChain : Result unit;
  on_addChain : Result unit;
  on_fund : Result FundAnswers;
  on_navHistory : Z -> Result NavRecord;
  on_position : string -> Result LPAnswers
}.

Definition oracle_of (w : World) : Oracle :=
  fun R r =>
    match r in Request R return Result R with
    | eth_requestAccounts => on_requestAccounts w
    | eth_accounts => on_accounts w
    | eth_chainId => on_chainId w
    | wallet_switchEthereumChain _ => on_switchChain w
    | wallet_addEthereumChain _ _ _ _ => on_addChain w
    | fund_queries => on_fund w
    | contract_navHistory i => on_navHistory w i
    | lp_queries address => on_position w address
    end.

Definition rpc_down : JsError :=
  {| code := None; message := "could not detect network" |}.

Definition user_rejected : JsError :=
  {| code := Some 4001; message := "User rejected the request." |}.

Definition unknown_chain : JsError :=
  {| code := Some 4902; message := "Unrecognized chain ID." |}.

Definition sample_fund : FundAnswers := {|
  ans_fundName := "Alpha Fund";
  ans_fundDescription := "A fund";
  ans_getCurrentNAV := 1040000000000000000;
  ans_totalSupply := 5000000000000000000000;
  ans_fundInceptionDate := 1700000000;
  ans_getNavHistoryLength := 0
|}.

Definition investor_position : LPAnswers := {|
  ans_whitelist := true;
  ans_balanceOf := 10000000000000000000;
  ans_getLPValue := 10400000000000000000;
  ans_getLPReturn := 400;
  ans_lpInfo := {| info_initialInvestment := 10000000000000000000;
                   info_investmentDate := 1700000000;
                   info_isActive := true |}
|}.

Definition stranger_position : LPAnswers := {|
  ans_whitelist := false;
  ans_balanceOf := 0;
  ans_getLPValue := 0;
  ans_getLPReturn := 0;
  ans_lpInfo := {| info_initialInvestment := 0;
                   info_investmentDate := 0;
                   info_isActive := false |}
|}.

(** A wallet holding ["0xA"], on the target chain; ["0xA"] is a
    whitelisted investor and every other address is not. *)
Definition calm_world : World := {|
  on_requestAccounts := Resolved ["0xA"];
  on_accounts := Resolved ["0xA"];
  on_chainId := Resolved "0x14a34";
  on_switchChain := Resolved tt;
  on_addChain := Resolved tt;
  on_fund := Resolved sample_fund;
  on_navHistory := fun _ => Rejected rpc_down;
  on_position := fun a => if (a =? "0xA")%string then Resolved investor_position
                          else Resolved stranger_position
|}.

(** The wallet is on another chain and the user refuses the switch. *)
Definition refusing_world : World := {|
  on_requestAccounts := Resolved ["0xA"];
  on_accounts := Resolved ["0xA"];
  on_chainId := Resolved "0x1";
  on_switchChain := Rejected user_rejected;
  on_addChain := Resolved tt;
  on_fund := Resolved sample_fund;
  on_navHistory := fun _ => Rejected rpc_down;
  on_position := on_position calm_world
|}.

(** The wallet does not know the chain and the registration fails. *)
Definition unknown_chain_world : World := {|
  on_requestAccounts := Resolved ["0xA"];
  on_accounts := Resolved ["0xA"];
  on_chainId := Resolved "0x1";
  on_switchChain := Rejected unknown_chain;
  on_addChain := Rejected user_rejected;
  on_fund := Resolved sample_fund;
  on_navHistory := fun _ => Rejected rpc_down;
  on_position := on_position calm_world
|}.

(** The position queries fail. *)
Definition offline_world : World := {|
  on_requestAccounts := Resolved ["0xA"];
  on_accounts := Resolved ["0xA"];
  on_chainId := Resolved "0x14a34";
  on_switchChain := Resolved tt;
  on_addChain := Resolved tt;
  on_fund := Resolved sample_fund;
  on_navHistory := fun _ => Rejected rpc_down;
  on_position := fun _ => Rejected rpc_down
|}.

(** The wallet grants access and lists no account. *)
Definition empty_wallet_world : World := {|
  on_requestAccounts := Resolved [];
  on_accounts := Resolved [];
  on_chainId := Resolved "0x14a34";
  on_switchChain := Resolved tt;
  on_addChain := Resolved tt;
  on_fund := Resolved sample_fund;
  on_navHistory := fun _ => Rejected rpc_down;
  on_position := on_position calm_world
|}.

Definition plain_dates : float -> string := fun _ => "-".

(** ** Short addresses *)

(** [s.slice(0, n)] and [s.slice(-n)] on a string of one-byte
    characters. *)
Definition slice_first (n : nat) (s : string) : string := substring 0 n s.

Definition slice_last (n : nat) (s : string) : string :=
  substring (String.length s - n) n s.

Definition shortenAddress (address : option string) : string :=
  match address with
  | Some a =>
      if (a =? EmptyString)%string then EmptyString
      else slice_first 6 a ++ "..." ++ slice_last 4 a
  | None => EmptyString
  end.

(** ** The requests a call makes *)

Inductive Asked : Type :=
| asked (R : Type) (r : Request R).
Arguments asked {R} r.

(** The promises a task awaits, in order, when they settle as [answer]
    says. *)
Fixpoint requests {A : Type} (answer : Oracle) (t : Task A) : list Asked :=
  match t with
  | Ret _ | Throw _ => []
  | Update _ k | Log _ k => requests answer k
  | Await r k => asked r :: requests answer (k (answer _ r))
  end.

(** The setters a task calls, stretch by stretch: a new synchronous
    stretch begins after every [await], and the updates of one stretch
    make one render. *)
Fixpoint stretches {A : Type} (answer : Oracle) (t : Task A) : list (list Setter) :=
  match t with
  | Ret _ | Throw _ => [[]]
  | Update u k =>
      match stretches answer k with
      | first :: rest => (u :: first) :: rest
      | [] => [[u]]
      end
  | Log _ k => stretches answer k
  | Await r k => [] :: stretches answer (k (answer _ r))
  end.

(** What a request is about. *)
Definition asks_position (q : Asked) : option string :=
  match q with
  | asked r =>
      match r with
      | lp_queries address => Some address
      | _ => None
      end
  end.

Definition asks_switch (q : Asked) : bool :=
  match q with
  | asked r =>
      match r with
      | wallet_switchEthereumChain _ => true
      | _ => false
      end
  end.

Definition asks_registration (q : Asked) : bool :=
  match q with
  | asked r =>
      match r with
      | wallet_addEthereumChain _ _ _ _ => true
      | _ => false
      end
  end.

Definition asks_history (q : Asked) : option Z :=
  match q with
  | asked r =>
      match r with
      | contract_navHistory i => Some i
      | _ => None
      end
  end.

(** The two requests of the network check. *)
Definition switch_request : Request unit := wallet_switchEthereumChain target_chain.

Definition registration_request : Request unit :=
  wallet_addEthereumChain target_chain CONFIG.chainName CONFIG.rpcUrl
    CONFIG.blockExplorer.

(** The message [loadFundData] shows when it fails. *)
Definition fund_failure : string :=
  "Failed to load fund data. Please check the contract address.".

(** The wallet denies account access. *)
Definition denying_world : World := {|
  on_requestAccounts := Rejected user_rejected;
  on_accounts := Resolved [];
  on_chainId := Resolved "0x14a34";
  on_switchChain := Resolved tt;
  on_addChain := Resolved tt;
  on_fund := Resolved sample_fund;
  on_navHistory := fun _ => Rejected rpc_down;
  on_position := on_position calm_world
|}.

Definition sample_record (i : Z) : NavRecord := {|
  rec_timestamp := 1700000000 + 86400 * i;
  rec_nav := 1000000000000000000 + 10000000000000000 * i;
  rec_totalShares := 5000000000000000000000;
  rec_totalAssets := 5000000000000000000000;
  rec_ipfsHash := "Qm"
|}.

(** A fund with three history records, all readable. *)
Definition history_world : World := {|
  on_requestAccounts := Resolved ["0xA"];
  on_accounts := Resolved ["0xA"];
  on_chainId := Resolved "0x14a34";
  on_switchChain := Resolved tt;
  on_addChain := Resolved tt;
  on_fund := Resolved {| ans_fundName := "Alpha Fund";
                         ans_fundDescription := "A fund";
                         ans_getCurrentNAV := 1040000000000000000;
                         ans_totalSupply := 5000000000000000000000;
                         ans_fundInceptionDate := 1700000000;
                         ans_getNavHistoryLength := 3 |};
  on_navHistory := fun i => Resolved (sample_record i);
  on_position := on_position calm_world
|}.

(** The same fund when the record at index 1 cannot be read. *)
Definition broken_history_world : World := {|
  on_requestAccounts := Resolved ["0xA"];
  on_accounts := Resolved ["0xA"];
  on_chainId := Resolved "0x14a34";
  on_switchChain := Resolved tt;
  on_addChain := Resolved tt;
  on_fund := on_fund history_world;
  on_navHistory := fun i => if i =? 1 then Rejected rpc_down
                            else Resolved (sample_record i);
  on_position := on_position calm_world
|}.

(** The contract cannot be reached at all. *)
Definition unreachable_world : World := {|
  on_requestAccounts := Resolved ["0xA"];
  on_accounts := Resolved ["0xA"];
  on_chainId := Resolved "0x14a34";
  on_switchChain := Resolved tt;
  on_addChain := Resolved tt;
  on_fund := Rejected rpc_down;
  on_navHistory := fun _ => Rejected rpc_down;
  on_position := fun _ => Rejected rpc_down
|}.

(** ["0xA"] is a whitelisted investor; the position of any other address
    cannot be read. *)
Definition flaky_world : World := {|
  on_requestAccounts := Resolved ["0xA"];
  on_accounts := Resolved ["0xA"];
  on_chainId := Resolved "0x14a34";
  on_switchChain := Resolved tt;
  on_addChain := Resolved tt;
  on_fund := Resolved sample_fund;
  on_navHistory := fun _ => Rejected rpc_down;
  on_position := fun a => if (a =? "0xA")%string then Resolved investor_position
                          else Rejected rpc_down
|}.

(** ** Predicates on setters, tasks and events *)

(** Setters that leave a page without wallet as it is on the wallet
    side. *)
Definition keeps_disconnected (u : Setter) : Prop :=
  match u with
  | setAccount a => a = None
  | setIsConnecting b => b = false
  | setIsWhitelisted b => b = false
  | setLpData d => d = None
  | _ => True
  end.

Definition wallet_untouched (s : State) : Prop :=
  account s = None /\ isConnecting s = false /\
  isWhitelisted s = false /\ lpData s = None.

(** Every event but a reload. *)
Definition no_reload (ev : Event) : Prop :=
  match ev with
  | ChainChanged => False
  | _ => True
  end.

(** Setters that do not belong to the fund load. *)
Definition outside_fund (u : Setter) : Prop :=
  match u with
  | setFundData _ | setNavHistory _ | setLoading _ => False
  | _ => True
  end.

(** Every setter but [setLoading]. *)
Definition leaves_loading (u : Setter) : Prop :=
  match u with
  | setLoading _ => False
  | _ => True
  end.

Fixpoint no_await {A : Type} (t : Task A) : Prop :=
  match t with
  | Ret _ | Throw _ => True
  | Update _ k | Log _ k => no_await k
  | Await _ _ => False
  end.

(** The shape of a fund load under way: it never sets [loading] to true,
    and once it has set it to false it awaits nothing more. *)
Fixpoint closing (t : Task unit) : Prop :=
  match t with
  | Ret _ | Throw _ => True
  | Update u k =>
      match u with
      | setLoading true => False
      | setLoading false => no_await k
      | _ => closing k
      end
  | Log _ k => closing k
  | Await r k => forall res, closing (k res)
  end.

Definition wallet_pending (p : Suspended) : Prop :=
  match p with
  | Susp r k => forall res, only outside_fund (k res)
  end.

Definition fund_pending (p : Suspended) : Prop :=
  match p with
  | Susp r k => forall res, closing (k res)
  end.

(** Pending tasks among which exactly one is a fund load. *)
Inductive one_fund : list Suspended -> Prop :=
| one_fund_here (p : Suspended) (l : list Suspended) :
    fund_pending p -> Forall wallet_pending l -> one_fund (p :: l)
| one_fund_later (p : Suspended) (l : list Suspended) :
    wallet_pending p -> one_fund l -> one_fund (p :: l).

(** While [loading] is true at most one fund load is pending, and none
    once it is false. *)
Definition fund_load_once (sys : Sys) : Prop :=
  Forall wallet_pending (pending sys) \/
  (loading (ui sys) = true /\ one_fund (pending sys)).

(** ** More of what is rendered *)

(** [fundData?.name || 'Fund Portal'] *)
Definition header_title (s : State) : string :=
  match fundData s with
  | Some d => if (name d =? EmptyString)%string then "Fund Portal" else name d
  | None => "Fund Portal"
  end.

(** [formatNumber(fundData?.totalShares, 0)] *)
Definition total_shares_text (s : State) : string :=
  formatNumber (option_map totalShares (fundData s)) 0.

(** [formatDate(fundData?.inceptionDate)]: a missing date is falsy. *)
Definition inception_text (toLocaleDateString : float -> string) (s : State) : string :=
  match fundData s with
  | Some d => formatDate toLocaleDateString (inceptionDate d)
  | None => "-"
  end.

(** The amounts of the "Your Investment" panel:
    [formatUSD(lpData.value)], [formatNumber(lpData.shares, 0)] and
    [formatUSD(lpData.initialInvestment)]. *)
Definition position_value_text (d : LpData) : string :=
  formatUSD (Some (value d)).

Definition position_shares_text (d : LpData) : string :=
  formatNumber (Some (shares d)) 0.

Definition position_initial_text (d : LpData) : string :=
  formatUSD (Some (initialInvestment d)).

(** ** Rounded amounts *)

(** A value of Solidity's [uint256]. *)
Definition uint256 (v : Z) : Prop := 0 <= v < 2 ^ 256.

(** [f] is the binary64 number nearest to the positive or zero rational
    [x], ties to even: [x] lies between two consecutive 53-bit numbers
    [t * 2^e] and [(t + 1) * 2^e], [f] is the one at the smaller distance,
    the one with the even mantissa when the distances are equal, and so it
    is off by at most one part in 2^53. *)
Definition nearest_binary64 (x : Q) (f : float) : Prop :=
  exists q : Q,
    to_Q f = Some q /\
    (Qabs (q - x) <= x * (1 # 2 ^ 53))%Q /\
    ((0 < x)%Q ->
     exists t e : Z,
       2 ^ 52 <= t < 2 ^ 53 /\
       -1074 <= e <= 970 /\
       (inject_Z t * 2 ^ e <= x)%Q /\
       (x < inject_Z (t + 1) * 2 ^ e)%Q /\
       (q == inject_Z t * 2 ^ e \/ q == inject_Z (t + 1) * 2 ^ e)%Q /\
       (Qabs (q - x) <= Qabs (inject_Z t * 2 ^ e - x))%Q /\
       (Qabs (q - x) <= Qabs (inject_Z (t + 1) * 2 ^ e - x))%Q /\
       (Qabs (inject_Z t * 2 ^ e - x) == Qabs (inject_Z (t + 1) * 2 ^ e - x) ->
        exists k : Z, q == inject_Z (2 * k) * 2 ^ e)%Q).

(** [N / D] lies in [[m, m + 1)] and the round and sticky bits of the
    record say where: on [m], below the middle, on it or above it. *)
Definition located (N D : Z) (mrs : shr_record) : Prop :=
  let rem := N - shr_m mrs * D in
  0 <= rem < D /\
  shr_r mrs = (D <=? 2 * rem) /\
  shr_s mrs = negb (rem =? 0) && negb (2 * rem =? D).

(** * Properties *)

(** ** Composition of runs *)

Section Exec.

Variable answer : Oracle.

Lemma exec_bind (A B : Type) (t : Task A) (f : A -> Task B) (s : State) :
  exec answer (bind t f) s =
  match returned (exec answer t s) with
  | Resolved a =>
      let r' := exec answer (f a) (final (exec answer t s)) in
      {| final := final r';
         printed := (printed (exec answer t s) ++ printed r')%list;
         returned := returned r' |}
  | Rejected e =>
      {| final := final (exec answer t s);
         printed := printed (exec answer t s);
         returned := Rejected e |}
  end.
Proof.
  revert s. induction t as [a | e | u k IH | m k IH | R r k IH]; intros s; cbn.
  - destruct (exec answer (f a) s); reflexivity.
  - reflexivity.
  - apply IH.
  - rewrite IH. destruct (returned (exec answer k s)); reflexivity.
  - apply IH.
Qed.

Lemma exec_try_catch (A : Type) (t : Task A) (h : JsError -> Task A) (s : State) :
  exec answer (try_catch t h) s =
  match returned (exec answer t s) with
  | Resolved a => exec answer t s
  | Rejected e =>
      let r' := exec answer (h e) (final (exec answer t s)) in
      {| final := final r';
         printed := (printed (exec answer t s) ++ printed r')%list;
         returned := returned r' |}
  end.
Proof.
  revert s. induction t as [a | e | u k IH | m k IH | R r k IH]; intros s; cbn.
  - reflexivity.
  - destruct (exec answer (h e) s); reflexivity.
  - apply IH.
  - rewrite IH. destruct (returned (exec answer k s)) eqn:E; cbn.
    + destruct (exec answer k s); cbn in *; subst; reflexivity.
    + reflexivity.
  - apply IH.
Qed.

Lemma exec_finally (A : Type) (t : Task A) (f : Task unit) (s : State) :
  exec answer (finally t f) s =
  let r := exec answer t s in
  let r' := exec answer f (final r) in
  {| final := final r';
     printed := (printed r ++ printed r')%list;
     returned := match returned r' with
                 | Resolved _ => returned r
                 | Rejected e => Rejected e
                 end |}.
Proof.
  revert s. induction t as [a | e | u k IH | m k IH | R r k IH]; intros s; cbn.
  - rewrite exec_bind. destruct (returned (exec answer f s)); cbn;
      [rewrite app_nil_r |]; reflexivity.
  - rewrite exec_bind. destruct (returned (exec answer f s)); cbn;
      [rewrite app_nil_r |]; reflexivity.
  - apply IH.
  - rewrite IH. reflexivity.
  - apply IH.
Qed.

Lemma exec_only (P : State -> Prop) (ok : Setter -> Prop) :
  (forall u s, ok u -> P s -> P (apply u s)) ->
  forall (A : Type) (t : Task A), only ok t ->
  forall s, P s -> P (final (exec answer t s)).
Proof.
  intros Hok A t. induction t as [a | e | u k IH | m k IH | R r k IH];
    cbn; intros Ht s Hs; auto.
  destruct Ht as [Hu Hk]. apply IH; auto.
Qed.

End Exec.

Lemma only_bind (ok : Setter -> Prop) (A B : Type) (t : Task A) (f : A -> Task B) :
  only ok t -> (forall a, only ok (f a)) -> only ok (bind t f).
Proof.
  intros Ht Hf. induction t as [a | e | u k IH | m k IH | R r k IH]; cbn in *; auto.
  destruct Ht; split; auto.
Qed.

Lemma only_try_catch (ok : Setter -> Prop) (A : Type) (t : Task A) (h : JsError -> Task A) :
  only ok t -> (forall e, only ok (h e)) -> only ok (try_catch t h).
Proof.
  intros Ht Hh. induction t as [a | e | u k IH | m k IH | R r k IH]; cbn in *; auto.
  destruct Ht; split; auto.
Qed.

Lemma only_finally (ok : Setter -> Prop) (A : Type) (t : Task A) (f : Task unit) :
  only ok t -> only ok f -> only ok (finally t f).
Proof.
  intros Ht Hf. induction t as [a | e | u k IH | m k IH | R r k IH]; cbn in *; auto.
  - apply only_bind; cbn; auto.
  - apply only_bind; cbn; auto.
  - destruct Ht; split; auto.
Qed.

Lemma only_await (ok : Setter -> Prop) (R : Type) (r : Request R) : only ok (await r).
Proof. intros [v | e]; exact I. Qed.

Lemma only_history_loop (ok : Setter -> Prop) (fmt : float -> string) (n : nat) :
  forall i history, only ok (history_loop fmt n i history).
Proof.
  induction n as [| n IH]; intros i history; cbn; auto.
  intros [v | e]; cbn; auto.
Qed.

Lemma respects_only (P : State -> Prop) (ok : Setter -> Prop) :
  (forall u s, ok u -> P s -> P (apply u s)) ->
  forall t, only ok t -> forall s, P s -> respects P t s.
Proof.
  intros Hok t. induction t as [a | e | u k IH | m k IH | R r k IH];
    cbn; intros Ht s Hs; auto.
  destruct Ht as [Hu Hk]. apply IH; auto.
Qed.

Lemma run_respects (P : State -> Prop) (t : Task unit) :
  forall s, respects P t s ->
  P (state_after (run t s)) /\
  match outcome (run t s) with
  | Waiting p => resumable P p
  | _ => True
  end.
Proof.
  induction t as [a | e | u k IH | m k IH | R r k IH]; cbn; intros s H; auto.
Qed.

Lemma spawn_inv (P : State -> Prop) (t : Task unit) (sys : Sys) :
  Forall (resumable P) (pending sys) -> respects P t (ui sys) ->
  sys_inv P (spawn t sys).
Proof.
  intros Hp Ht. apply run_respects in Ht. destruct Ht as [Hs Ho].
  unfold sys_inv, spawn; cbn. split; [exact Hs |].
  destruct (outcome (run t (ui sys))); auto.
  apply Forall_app. split; auto.
Qed.

Lemma Forall_remove_nth (A : Type) (Q : A -> Prop) (l : list A) :
  Forall Q l -> forall i, Forall Q (remove_nth i l).
Proof.
  induction 1 as [| x l Hx Hl IH]; intros i; destruct i; cbn; auto.
Qed.


(** ** Number formatting *)

(** The formatter rounds the shortest decimal that reads back as the
    number, half away from zero: 1.005, stored below 1.005, prints as 1.01
    and 1005 dollars as $1.01K; 2^256 prints as its sixteen shortest digits
    followed by zeros. *)
Lemma intl_format_examples :
  formatNumber (Some (nearest_ratio 1005 1000)) 2 = "1.01" /\
  formatNumber (Some (nearest_ratio 100105 100000)) 4 = "1.0011" /\
  formatUSD (Some (Number 1005)) = "$1.01K" /\
  Number (2 ^ 256 - 1) = S754_finite false 4503599627370496 204 /\
  shortest_decimal 4503599627370496 204 = (1157920892373162, 62) /\
  formatNumber (Some (S754_zero true)) 2 = "-0.00" /\
  formatNumber (Some S754_nan) 2 = "NaN".
Proof.
  vm_compute. repeat split.
Qed.

(** ** Fund data *)

Ltac exec_step :=
  cbn [exec bind try_catch finally await set console_error
       final printed returned app].

Lemma only_after_fund (fmt : float -> string) (n : nat) (i : Z) (h : list NavPoint) :
  only after_fund
    (finally
       (try_catch
          (history <- history_loop fmt n i h ;; set (setNavHistory history))
          (fun _ =>
             console_error "Error loading fund data:" ;;
             set (setError (Some "Failed to load fund data. Please check the contract address."))))
       (set (setLoading false))).
Proof.
  apply only_finally; [| cbn; auto].
  apply only_try_catch; [| intros e; cbn; auto].
  apply only_bind; [apply only_history_loop | intros a; cbn; auto].
Qed.

Lemma loadFundData_stores (fmt : float -> string) (answer : Oracle) (s : State)
  (r : FundAnswers) :
  answer _ fund_queries = Resolved r ->
  fundData (final (exec answer (loadFundData fmt) s)) = Some (fund_of r).
Proof.
  intros H. unfold loadFundData. exec_step. rewrite H. exec_step.
  apply (exec_only answer (fun st => fundData st = Some (fund_of r)) after_fund).
  - intros [] st Hu Hst; cbn in *; tauto.
  - apply only_after_fund.
  - reflexivity.
Qed.

(** However it ends, [loadFundData] leaves [loading] false. *)
Lemma loadFundData_ends_loading (fmt : float -> string) (answer : Oracle) (s : State) :
  loading (final (exec answer (loadFundData fmt) s)) = false.
Proof.
  unfold loadFundData. rewrite exec_finally. reflexivity.
Qed.

(** C8.  When the contract reports a current NAV of 1040000000000000000,
    [loadFundData] stores the binary64 value written 1.04 (the nearest one
    to 104/100) and ends the loading; the "Current NAV" card then reads
    "$1.0400", and the line below it, computed as [(currentNav - 1) * 100]
    with a "+" when [currentNav >= 1], reads "+4.00% since inception". *)
Theorem scenario_A_nav_display (fmt : float -> string) (answer : Oracle)
  (s : State) (r : FundAnswers) :
  answer _ fund_queries = Resolved r ->
  ans_getCurrentNAV r = 1040000000000000000 ->
  let s' := final (exec answer (loadFundData fmt) s) in
  loading s' = false /\
  currentNav_of s' = Some (parseFloat_formatEther 1040000000000000000) /\
  (exists q, to_Q (parseFloat_formatEther 1040000000000000000) = Some q /\
             (Qabs (q - (104 # 100)) <= 1 # (2 ^ 53))%Q) /\
  nav_text s' = "$1.0400" /\
  since_inception_text s' = "+4.00% since inception".
Proof.
  intros Hans Hnav s'.
  assert (Hs' : currentNav_of s' = Some (parseFloat_formatEther 1040000000000000000)).
  { unfold currentNav_of, s'. rewrite (loadFundData_stores fmt answer s r Hans).
    cbn. rewrite Hnav. reflexivity. }
  split; [apply loadFundData_ends_loading |].
  split; [exact Hs' |]. split.
  - exists (4683743612465316 # 2 ^ 52)%Q. split; vm_compute; [reflexivity | discriminate].
  - unfold nav_text, since_inception_text. rewrite Hs'. split; vm_compute; reflexivity.
Qed.

Lemma scenario_A_nav_display_witness :
  nav_text (final (exec (oracle_of calm_world) (loadFundData plain_dates) initial))
    = "$1.0400" /\
  since_inception_text (final (exec (oracle_of calm_world) (loadFundData plain_dates) initial))
    = "+4.00% since inception".
Proof.
  destruct (scenario_A_nav_display plain_dates (oracle_of calm_world) initial
              sample_fund eq_refl eq_refl) as (_ & _ & _ & Hnav & Hret).
  split; assumption.
Defined.

(** C9.  When [getNavHistoryLength] returns 0, [loadFundData] ends with an
    empty [navHistory], the page loaded and the chart left out; in any
    state the chart is rendered exactly when the page is not loading and
    [navHistory] has more than one point, so never for lengths 0 and 1. *)
Theorem scenario_B_empty_history (fmt : float -> string) (answer : Oracle)
  (s : State) (r : FundAnswers) :
  answer _ fund_queries = Resolved r ->
  ans_getNavHistoryLength r = 0 ->
  let s' := final (exec answer (loadFundData fmt) s) in
  navHistory s' = [] /\
  loading s' = false /\
  chart_rendered s' = false /\
  (forall st, chart_rendered st = true <->
              loading st = false /\ (1 < List.length (navHistory st))%nat) /\
  (forall st, (List.length (navHistory st) <= 1)%nat -> chart_rendered st = false).
Proof.
  intros Hans Hlen s'.
  assert (Hh : navHistory s' = []).
  { unfold s', loadFundData. exec_step. rewrite Hans. exec_step.
    rewrite Hlen. reflexivity. }
  assert (Hc : forall st, chart_rendered st = true <->
                 loading st = false /\ (1 < List.length (navHistory st))%nat).
  { intros st. unfold chart_rendered.
    rewrite andb_true_iff, negb_true_iff, Nat.ltb_lt. tauto. }
  assert (Hn : forall st, (List.length (navHistory st) <= 1)%nat ->
                 chart_rendered st = false).
  { intros st Hst. destruct (chart_rendered st) eqn:E; [| reflexivity].
    apply Hc in E. lia. }
  split; [exact Hh |].
  split; [apply loadFundData_ends_loading |].
  split; [apply Hn; rewrite Hh; cbn; lia |].
  split; [exact Hc | exact Hn].
Qed.

Lemma scenario_B_empty_history_witness :
  navHistory (final (exec (oracle_of calm_world) (loadFundData plain_dates) initial)) = [].
Proof.
  exact (proj1 (scenario_B_empty_history plain_dates (oracle_of calm_world) initial
                  sample_fund eq_refl eq_refl)).
Defined.

(** ** Stored amounts *)

Lemma digits2_pos_bounds (p : positive) :
  2 ^ (Z.pos (digits2_pos p) - 1) <= Z.pos p < 2 ^ Z.pos (digits2_pos p).
Proof.
  induction p as [p IH | p IH |]; cbn [digits2_pos].
  - rewrite Pos2Z.inj_succ.
    replace (Z.succ (Z.pos (digits2_pos p)) - 1) with (Z.succ (Z.pos (digits2_pos p) - 1)) by lia.
    rewrite !Z.pow_succ_r by lia. lia.
  - rewrite Pos2Z.inj_succ.
    replace (Z.succ (Z.pos (digits2_pos p)) - 1) with (Z.succ (Z.pos (digits2_pos p) - 1)) by lia.
    rewrite !Z.pow_succ_r by lia. lia.
  - cbn. lia.
Qed.

Lemma digits2_pos_unique (p : positive) (k : Z) :
  2 ^ (k - 1) <= Z.pos p < 2 ^ k -> Z.pos (digits2_pos p) = k.
Proof.
  intros [Hlo Hhi]. pose proof (digits2_pos_bounds p) as [Blo Bhi].
  assert (0 < k).
  { destruct (Z_lt_le_dec 0 k) as [|Hk]; [assumption |].
    assert (2 ^ k <= 2 ^ 0) by (apply Z.pow_le_mono_r; lia). cbn in *. lia. }
  destruct (Z_lt_le_dec (Z.pos (digits2_pos p)) k) as [Hlt | Hge].
  - assert (2 ^ Z.pos (digits2_pos p) <= 2 ^ (k - 1)) by (apply Z.pow_le_mono_r; lia). lia.
  - destruct (Z_lt_le_dec k (Z.pos (digits2_pos p))) as [Hlt | Hle]; [| lia].
    assert (2 ^ k <= 2 ^ (Z.pos (digits2_pos p) - 1)) by (apply Z.pow_le_mono_r; lia). lia.
Qed.

Lemma located_of_loc (N D q : Z) :
  0 < D -> 0 <= N - q * D < D ->
  located N D (shr_record_of_loc q
                 (if N - q * D =? 0 then loc_Exact
                  else loc_Inexact (2 * (N - q * D) ?= D))).
Proof.
  intros HD Hrem. unfold located.
  destruct (N - q * D =? 0) eqn:Hz.
  - cbn [shr_record_of_loc shr_m shr_r shr_s]. apply Z.eqb_eq in Hz.
    split; [exact Hrem |]. rewrite Hz. cbn.
    split; [symmetry; apply Z.leb_gt; lia | reflexivity].
  - apply Z.eqb_neq in Hz.
    destruct (2 * (N - q * D) ?= D) eqn:Hc;
      cbn [shr_record_of_loc shr_m shr_r shr_s]; (split; [exact Hrem |]).
    + apply Z.compare_eq in Hc. split.
      * symmetry. apply Z.leb_le. lia.
      * rewrite Hc, Z.eqb_refl, andb_false_r. reflexivity.
    + rewrite Z.compare_lt_iff in Hc. split.
      * symmetry. apply Z.leb_gt. lia.
      * symmetry. apply andb_true_iff. split; apply negb_true_iff, Z.eqb_neq; lia.
    + rewrite Z.compare_gt_iff in Hc. split.
      * symmetry. apply Z.leb_le. lia.
      * symmetry. apply andb_true_iff. split; apply negb_true_iff, Z.eqb_neq; lia.
Qed.

Ltac split_tests :=
  repeat match goal with
         | |- context [?a =? ?b] => destruct (Z.eqb_spec a b)
         | |- context [?a <=? ?b] => destruct (Z.leb_spec a b)
         end;
  cbn [negb andb orb]; try reflexivity; try lia.

Lemma located_shr_1 (N D : Z) (mrs : shr_record) :
  0 < D -> 0 <= shr_m mrs -> located N D mrs ->
  located N (2 * D) (shr_1 mrs) /\ 0 <= shr_m (shr_1 mrs).
Proof.
  intros HD Hm (Hrem & Hr & Hs). destruct mrs as [m r s].
  cbn [shr_m shr_r shr_s] in *.
  assert (Hsticky : r || s = negb (N - m * D =? 0)).
  { rewrite Hr, Hs. split_tests. }
  clear Hr Hs. unfold located.
  destruct m as [| [p | p |] | p]; try lia;
    cbn [shr_1 shr_m shr_r shr_s]; rewrite Hsticky; clear Hsticky.
  - split; [| lia]. split; [lia |]. split; split_tests.
  - change (Z.pos p~1) with (2 * Z.pos p + 1) in *.
    split; [| lia]. split; [lia |]. split; split_tests.
  - change (Z.pos p~0) with (2 * Z.pos p) in *.
    split; [| lia]. split; [lia |]. split; split_tests.
  - split; [| lia]. split; [lia |]. split; split_tests.
Qed.

Lemma pow2_xO (p : positive) : 2 ^ Z.pos p~0 = 2 ^ Z.pos p * 2 ^ Z.pos p.
Proof.
  replace (Z.pos p~0) with (Z.pos p + Z.pos p) by lia.
  apply Z.pow_add_r; lia.
Qed.

Lemma pow2_xI (p : positive) : 2 ^ Z.pos p~1 = 2 ^ Z.pos p * (2 ^ Z.pos p * 2).
Proof.
  replace (Z.pos p~1) with (Z.pos p + (Z.pos p + 1)) by lia.
  rewrite !Z.pow_add_r by lia. reflexivity.
Qed.

Lemma located_iter_shr_1 (p : positive) (N D : Z) (mrs : shr_record) :
  0 < D -> 0 <= shr_m mrs -> located N D mrs ->
  located N (2 ^ Z.pos p * D) (iter_pos shr_1 p mrs) /\
  0 <= shr_m (iter_pos shr_1 p mrs).
Proof.
  revert D mrs. induction p as [p IH | p IH |]; intros D mrs HD Hm Hloc; cbn [iter_pos].
  - destruct (located_shr_1 N D mrs HD Hm Hloc) as [H1 M1].
    destruct (IH (2 * D) _ ltac:(lia) M1 H1) as [H2 M2].
    assert (0 < 2 ^ Z.pos p) by (apply Z.pow_pos_nonneg; lia).
    destruct (IH (2 ^ Z.pos p * (2 * D)) _ ltac:(nia) M2 H2) as [H3 M3].
    split; [| exact M3].
    replace (2 ^ Z.pos p~1 * D) with (2 ^ Z.pos p * (2 ^ Z.pos p * (2 * D)));
      [exact H3 | rewrite pow2_xI; ring].
  - destruct (IH D _ HD Hm Hloc) as [H2 M2].
    assert (0 < 2 ^ Z.pos p) by (apply Z.pow_pos_nonneg; lia).
    destruct (IH (2 ^ Z.pos p * D) _ ltac:(nia) M2 H2) as [H3 M3].
    split; [| exact M3].
    replace (2 ^ Z.pos p~0 * D) with (2 ^ Z.pos p * (2 ^ Z.pos p * D));
      [exact H3 | rewrite pow2_xO; ring].
  - change (2 ^ 1) with 2. apply located_shr_1; assumption.
Qed.

Lemma pow2_pos (n : Z) : 0 <= n -> 0 < 2 ^ n.
Proof. intros. apply Z.pow_pos_nonneg; lia. Qed.

Lemma pow2_split (a b : Z) : 0 <= a -> 0 <= b -> 2 ^ (a + b) = 2 ^ a * 2 ^ b.
Proof. intros. apply Z.pow_add_r; assumption. Qed.

(** Truncation to 53 bits: the first half of [binary_round_aux]. *)
Lemma shr_fexp_spec (N D q e : Z) :
  0 < D -> 2 ^ 52 <= q -> 0 <= N - q * D < D -> -1021 <= e ->
  exists (mrs : shr_record) (n : Z),
    shr_fexp prec emax q e
      (if N - q * D =? 0 then loc_Exact else loc_Inexact (2 * (N - q * D) ?= D))
    = (mrs, e + n) /\
    0 <= n /\
    2 ^ (52 + n) <= q < 2 ^ (53 + n) /\
    located N (2 ^ n * D) mrs /\
    2 ^ 52 <= shr_m mrs < 2 ^ 53.
Proof.
  intros HD Hq Hrem He.
  pose proof (located_of_loc N D q HD Hrem) as Hloc.
  set (loc := if N - q * D =? 0 then loc_Exact else loc_Inexact (2 * (N - q * D) ?= D)) in *.
  destruct q as [| p |]; try (exfalso; change (2 ^ 52) with 4503599627370496 in Hq; lia).
  pose proof (digits2_pos_bounds p) as [Blo Bhi].
  set (dq := Z.pos (digits2_pos p)) in *.
  assert (Hdq : 53 <= dq).
  { destruct (Z_lt_le_dec dq 53) as [Hlt |]; [| assumption].
    assert (2 ^ dq <= 2 ^ 52) by (apply Z.pow_le_mono_r; lia). lia. }
  assert (Hshift : fexp prec emax (Zdigits2 (Z.pos p) + e) - e = dq - 53).
  { unfold fexp, emin, prec, emax. cbn [Zdigits2]. fold dq. lia. }
  unfold shr_fexp. rewrite Hshift.
  assert (Hm0 : 0 <= shr_m (shr_record_of_loc (Z.pos p) loc)).
  { destruct loc as [| []]; cbn; lia. }
  destruct (dq - 53) as [| k | k] eqn:Hn; try lia.
  - exists (shr_record_of_loc (Z.pos p) loc), 0. cbn [shr].
    split; [f_equal; lia |]. split; [lia |].
    replace dq with 53 in * by lia.
    split; [cbn [Z.add]; split; [exact Hq | exact Bhi] |].
    split; [change (2 ^ 0) with 1; rewrite Z.mul_1_l; exact Hloc |].
    replace (shr_m (shr_record_of_loc (Z.pos p) loc)) with (Z.pos p)
      by (destruct loc as [| []]; reflexivity).
    split; [exact Hq | exact Bhi].
  - destruct (located_iter_shr_1 k N D _ HD Hm0 Hloc) as [Hloc' Hm'].
    exists (iter_pos shr_1 k (shr_record_of_loc (Z.pos p) loc)), (Z.pos k).
    cbn [shr]. split; [reflexivity |]. split; [lia |].
    assert (HP : 0 < 2 ^ Z.pos k) by (apply pow2_pos; lia).
    assert (Hlo : 2 ^ (52 + Z.pos k) <= Z.pos p).
    { replace (52 + Z.pos k) with (dq - 1) by lia. exact Blo. }
    assert (Hhi : Z.pos p < 2 ^ (53 + Z.pos k)).
    { replace (53 + Z.pos k) with dq by lia. exact Bhi. }
    split; [split; assumption |]. split; [exact Hloc' |].
    destruct Hloc' as [Hrem' _].
    set (m := shr_m (iter_pos shr_1 k (shr_record_of_loc (Z.pos p) loc))) in *.
    rewrite pow2_split in Hlo, Hhi by lia.
    set (P := 2 ^ Z.pos k) in *.
    change (2 ^ 52) with 4503599627370496 in *.
    change (2 ^ 53) with 9007199254740992 in *.
    split.
    + (* (m+1) P D > N >= p D >= 2^52 P D *)
      assert (H1 : 4503599627370496 * P * D < (m + 1) * P * D) by nia.
      assert (H2 : 4503599627370496 * (P * D) < (m + 1) * (P * D)) by lia.
      apply Z.mul_lt_mono_pos_r in H2; [lia | nia].
    + assert (H1 : m * (P * D) < 9007199254740992 * (P * D)) by nia.
      apply Z.mul_lt_mono_pos_r in H1; [lia | nia].
Qed.

Lemma pow2_lt_inv (a b : Z) : 0 <= a -> 2 ^ a < 2 ^ b -> a < b.
Proof.
  intros Ha H. destruct (Z_lt_le_dec a b) as [| Hle]; [assumption |].
  destruct (Z_lt_le_dec b 0) as [Hb | Hb].
  - rewrite (Z.pow_neg_r 2 b Hb) in H. pose proof (pow2_pos a Ha). lia.
  - assert (2 ^ b <= 2 ^ a) by (apply Z.pow_le_mono_r; lia). lia.
Qed.

(** Rounding to 53 bits, ties to even: what [binary_round_aux] returns for
    a quotient [N / D] whose integer part [q] has at least 53 bits. *)
Lemma binary_round_aux_spec (N D q e K : Z) :
  0 < D -> 2 ^ 52 <= q < 2 ^ K -> 0 <= N - q * D < D ->
  -1021 <= e -> e + K <= 1023 ->
  exists (m : positive) (ef n t m2 : Z),
    binary_round_aux prec emax false q e
      (if N - q * D =? 0 then loc_Exact else loc_Inexact (2 * (N - q * D) ?= D))
    = S754_finite false m ef /\
    0 <= n /\
    2 ^ 52 <= t < 2 ^ 53 /\
    t * (2 ^ n * D) <= N < (t + 1) * (2 ^ n * D) /\
    (m2 = t \/ m2 = t + 1) /\
    2 * Z.abs (m2 * (2 ^ n * D) - N) <= 2 ^ n * D /\
    (2 * Z.abs (m2 * (2 ^ n * D) - N) = 2 ^ n * D -> Z.even m2 = true) /\
    2 ^ 52 <= Z.pos m < 2 ^ 53 /\
    ((ef = e + n /\ Z.pos m = m2) \/
     (ef = e + n + 1 /\ Z.pos m = 2 ^ 52 /\ m2 = 2 ^ 53)).
Proof.
  intros HD [Hq HqK] Hrem He HK.
  destruct (shr_fexp_spec N D q e HD Hq Hrem He)
    as (mrs & n & Hshr & Hn & [Hqlo Hqhi] & Hloc & Ht).
  unfold binary_round_aux. rewrite Hshr. clear Hshr.
  assert (HnK : 52 + n < K).
  { apply pow2_lt_inv; [lia |]. lia. }
  set (U := 2 ^ n * D) in *.
  assert (HU : 0 < U) by (pose proof (pow2_pos n Hn); unfold U; nia).
  destruct mrs as [t r s]. cbn [shr_m] in *.
  destruct Hloc as (Hrem' & Hr & Hs). cbn [shr_m shr_r shr_s] in Hrem', Hr, Hs.
  set (m2 := round_nearest_even t (loc_of_shr_record (Build_shr_record t r s))).
  assert (Hm2 : (m2 = t \/ m2 = t + 1) /\
                2 * Z.abs (m2 * U - N) <= U /\
                (2 * Z.abs (m2 * U - N) = U -> Z.even m2 = true)).
  { unfold m2. cbn [loc_of_shr_record].
    destruct r, s; cbn [round_nearest_even];
      symmetry in Hr; symmetry in Hs;
      try (apply Z.leb_le in Hr); try (apply Z.leb_gt in Hr).
    - (* above the middle *)
      apply andb_true_iff in Hs. destruct Hs as [_ Hs].
      apply negb_true_iff, Z.eqb_neq in Hs.
      split; [right; reflexivity |]. split; [lia |]. intros H. lia.
    - (* on the middle *)
      assert (Hmid : 2 * (N - t * U) = U).
      { apply andb_false_iff in Hs. destruct Hs as [Hs | Hs];
          apply negb_false_iff, Z.eqb_eq in Hs; lia. }
      destruct (Z.even t) eqn:Heven.
      + split; [left; reflexivity |]. split; [lia |]. intros _. exact Heven.
      + split; [right; reflexivity |]. split; [lia |]. intros _.
        rewrite Z.even_add, Heven. reflexivity.
    - (* below the middle *)
      split; [left; reflexivity |]. split; [lia |]. intros H. lia.
    - (* exact *)
      assert (Hz : N - t * U = 0).
      { apply andb_false_iff in Hs. destruct Hs as [Hs | Hs];
          apply negb_false_iff, Z.eqb_eq in Hs; lia. }
      split; [left; reflexivity |]. split; [lia |]. intros H. lia. }
  clearbody m2. destruct Hm2 as (Hcase & Hhalf & Htie).
  change (2 ^ 52) with 4503599627370496 in Ht.
  change (2 ^ 53) with 9007199254740992 in Ht.
  assert (Hm2lo : 2 ^ 52 <= m2) by (change (2 ^ 52) with 4503599627370496; lia).
  assert (Hrem2 : 0 <= m2 - m2 * 1 < 1) by lia.
  assert (He2 : -1021 <= e + n) by lia.
  destruct (shr_fexp_spec m2 1 m2 (e + n) ltac:(lia) Hm2lo Hrem2 He2)
    as (mrs2 & n2 & Hshr2 & Hn2 & [Hlo2 Hhi2] & Hloc2 & Ht2).
  replace (m2 - m2 * 1 =? 0) with true in Hshr2 by (symmetry; apply Z.eqb_eq; lia).
  rewrite Hshr2. clear Hshr2.
  destruct Hloc2 as (Hrem2' & _).
  assert (Hn2' : n2 = 0 \/ n2 = 1).
  { destruct (Z_lt_le_dec n2 2) as [| Hge]; [lia |].
    assert (2 ^ 54 <= 2 ^ (52 + n2)) by (apply Z.pow_le_mono_r; lia).
    change (2 ^ 54) with 18014398509481984 in *. lia. }
  destruct (shr_m mrs2) as [| m |] eqn:Hm;
    try (exfalso; change (2 ^ 52) with 4503599627370496 in Ht2; lia).
  replace (e + n + n2 <=? emax - prec) with true
    by (symmetry; apply Z.leb_le; unfold emax, prec; lia).
  exists m, (e + n + n2), n, t, m2.
  split; [reflexivity |]. split; [exact Hn |].
  split; [change (2 ^ 52) with 4503599627370496;
          change (2 ^ 53) with 9007199254740992; exact Ht |].
  split; [lia |]. split; [exact Hcase |]. split; [exact Hhalf |].
  split; [exact Htie |]. split; [exact Ht2 |].
  destruct Hn2' as [-> | ->].
  - left. change (2 ^ 0) with 1 in Hrem2'. split; lia.
  - right. change (2 ^ (52 + 1)) with 9007199254740992 in Hlo2.
    change (2 ^ 1) with 2 in Hrem2'.
    change (2 ^ 52) with 4503599627370496. change (2 ^ 53) with 9007199254740992.
    split; [lia |]. split; lia.
Qed.

Lemma shift_or_keep (a s : Z) :
  0 <= s ->
  match s with
  | Z.pos _ => Z.shiftl a s
  | 0 => a
  | Z.neg _ => 0
  end = a * 2 ^ s.
Proof.
  intros Hs. destruct s as [| k | k].
  - change (2 ^ 0) with 1. lia.
  - apply Z.shiftl_mul_pow2. lia.
  - lia.
Qed.

(** [parseFloat(formatEther(v))] for a positive [v] below 2^256, in units
    of 2^-112: with [V = v * 2^112] and [U = 10^18 * 2^(e1 + 112)], the
    quotient [v / 10^18] lies between [t * 2^e1] and [(t + 1) * 2^e1] for a
    53-bit [t], and the result is the nearer of the two, the even one at a
    tie. *)
Lemma parseFloat_formatEther_rounds (v : Z) :
  0 < v < 2 ^ 256 ->
  exists (m : positive) (ef e1 t m2 : Z),
    parseFloat_formatEther v = S754_finite false m ef /\
    -112 <= e1 <= 203 /\
    2 ^ 52 <= t < 2 ^ 53 /\
    t * (10 ^ 18 * 2 ^ (e1 + 112)) <= v * 2 ^ 112 < (t + 1) * (10 ^ 18 * 2 ^ (e1 + 112)) /\
    (m2 = t \/ m2 = t + 1) /\
    2 * Z.abs (m2 * (10 ^ 18 * 2 ^ (e1 + 112)) - v * 2 ^ 112) <= 10 ^ 18 * 2 ^ (e1 + 112) /\
    (2 * Z.abs (m2 * (10 ^ 18 * 2 ^ (e1 + 112)) - v * 2 ^ 112) = 10 ^ 18 * 2 ^ (e1 + 112) ->
     Z.even m2 = true) /\
    2 ^ 52 <= Z.pos m < 2 ^ 53 /\
    ((ef = e1 /\ Z.pos m = m2) \/
     (ef = e1 + 1 /\ Z.pos m = 2 ^ 52 /\ m2 = 2 ^ 53)).
Proof.
  intros [Hv0 Hv]. destruct v as [| p |]; try lia.
  unfold parseFloat_formatEther, nearest_ratio, fdiv, SFdiv. cbn [xorb].
  unfold SFdiv_core_binary.
  change (Z.pos (10 ^ 18)) with 1000000000000000000.
  change (Zdigits2 1000000000000000000) with 60.
  cbn [Zdigits2].
  pose proof (digits2_pos_bounds p) as [Blo Bhi].
  set (d1 := Z.pos (digits2_pos p)) in *.
  assert (Hd1 : 1 <= d1 <= 256).
  { split; [unfold d1; lia |].
    assert (d1 - 1 < 256); [| lia].
    apply pow2_lt_inv; [unfold d1; lia | lia]. }
  set (e' := Z.min (fexp prec emax (d1 + 0 - (60 + 0))) (0 - 0)).
  assert (He' : e' = Z.min (d1 - 113) 0).
  { unfold e', fexp, emin, prec, emax. lia. }
  rewrite (shift_or_keep (Z.pos p) (0 - 0 - e')) by lia.
  set (s := 0 - 0 - e') in *.
  assert (Hs : 0 <= s <= 112) by lia.
  set (N := Z.pos p * 2 ^ s).
  set (D := 1000000000000000000).
  pose proof (Z_div_mod N D ltac:(unfold D; lia)) as Hdiv.
  destruct (Z.div_eucl N D) as [q r]. destruct Hdiv as [HN Hr].
  unfold new_location. change (Z.even D) with true. cbn iota.
  unfold new_location_even.
  assert (Hr' : r = N - q * D) by lia.
  rewrite Hr' in *. clear Hr'.
  change (Z.pos 2) with 2. change Z0 with 0.
  set (K := if Z_le_gt_dec d1 113 then 54 else 256).
  assert (HP : 0 < 2 ^ s) by (apply pow2_pos; lia).
  assert (Hq : 2 ^ 52 <= q < 2 ^ K).
  { unfold K. destruct (Z_le_gt_dec d1 113) as [Hsmall | Hlarge].
    - assert (Hs' : s = 113 - d1) by lia.
      assert (HNlo : 2 ^ 112 <= N).
      { replace 112 with ((d1 - 1) + s) by lia.
        rewrite pow2_split by lia. unfold N. nia. }
      assert (HNhi : N < 2 ^ 113).
      { replace 113 with (d1 + s) by lia.
        rewrite pow2_split by lia. unfold N. nia. }
      change (2 ^ 112) with 5192296858534827628530496329220096 in HNlo.
      change (2 ^ 113) with 10384593717069655257060992658440192 in HNhi.
      change (2 ^ 52) with 4503599627370496.
      change (2 ^ 54) with 18014398509481984.
      unfold D in *. lia.
    - assert (Hs' : s = 0) by lia. unfold N in *. rewrite Hs' in *.
      change (2 ^ 0) with 1 in *.
      assert (2 ^ 113 <= 2 ^ (d1 - 1)) by (apply Z.pow_le_mono_r; lia).
      change (2 ^ 113) with 10384593717069655257060992658440192 in *.
      change (2 ^ 52) with 4503599627370496.
      unfold D in *. split; [lia |].
      assert (q <= Z.pos p * 1) by nia. lia. }
  assert (HeK : e' + K <= 1023).
  { unfold K. destruct (Z_le_gt_dec d1 113); lia. }
  destruct (binary_round_aux_spec N D q e' K ltac:(unfold D; lia) Hq Hr
              ltac:(lia) HeK)
    as (m & ef & n & t & m2 & Hround & Hn & Ht & Hbetween & Hcase & Hhalf & Htie
        & Hm & Hef).
  exists m, ef, (e' + n), t, m2.
  split; [exact Hround |].
  assert (Hnq : 2 ^ (52 + n) <= q).
  { (* from the enclosure of N *)
    destruct Hbetween as [Hb1 Hb2].
    assert (HPn : 0 < 2 ^ n) by (apply pow2_pos; lia).
    rewrite pow2_split by lia.
    change (2 ^ 52) with 4503599627370496 in *.
    assert (H1 : 4503599627370496 * 2 ^ n * D <= t * (2 ^ n * D)) by nia.
    assert (H2 : 4503599627370496 * 2 ^ n * D < (q + 1) * D) by lia.
    apply Z.mul_lt_mono_pos_r in H2; [lia | unfold D; lia]. }
  assert (HnK : 52 + n < K).
  { apply pow2_lt_inv; [lia |]. lia. }
  assert (He1 : -112 <= e' + n <= 203).
  { unfold K in HnK. destruct (Z_le_gt_dec d1 113); lia. }
  split; [exact He1 |]. split; [exact Ht |].
  (* rescale from 2^s to 2^112 *)
  set (c := 2 ^ (112 - s)).
  assert (Hc : 0 < c) by (apply pow2_pos; lia).
  assert (HV : Z.pos p * 2 ^ 112 = N * c).
  { unfold N, c. rewrite <- Z.mul_assoc, <- pow2_split by lia.
    replace (s + (112 - s)) with 112 by lia. reflexivity. }
  assert (HU : 10 ^ 18 * 2 ^ (e' + n + 112) = 2 ^ n * D * c).
  { unfold c, D. replace (e' + n + 112) with (n + (112 - s)) by lia.
    rewrite pow2_split by lia. change (10 ^ 18) with 1000000000000000000. ring. }
  rewrite HV, HU.
  set (U := 2 ^ n * D) in *.
  assert (HUpos : 0 < U) by (pose proof (pow2_pos n Hn); unfold U, D; nia).
  assert (Habs : Z.abs (m2 * (U * c) - N * c) = Z.abs (m2 * U - N) * c).
  { replace (m2 * (U * c) - N * c) with ((m2 * U - N) * c) by ring.
    rewrite Z.abs_mul, (Z.abs_eq c) by lia. reflexivity. }
  rewrite Habs. clear Habs HV HU.
  destruct Hbetween as [Hb1 Hb2].
  replace (t * (U * c)) with (t * U * c) by ring.
  replace ((t + 1) * (U * c)) with ((t + 1) * U * c) by ring.
  replace (2 * (Z.abs (m2 * U - N) * c)) with (2 * Z.abs (m2 * U - N) * c) by ring.
  split.
  { split.
    - apply Z.mul_le_mono_nonneg_r; lia.
    - apply Z.mul_lt_mono_pos_r; lia. }
  split; [exact Hcase |].
  split; [apply Z.mul_le_mono_nonneg_r; lia |].
  split; [intros H; apply Htie; apply Z.mul_cancel_r in H; lia |].
  split; [exact Hm |]. exact Hef.
Qed.

(** Powers of two as rationals, in units of 2^-112. *)
Lemma Qpower2_units (e : Z) :
  -112 <= e -> (2 ^ e == (2 ^ (e + 112))%Z # (2 ^ 112))%Q.
Proof.
  intros He.
  replace e with ((e + 112) + -112) at 1 by lia.
  rewrite Qpower_plus by discriminate.
  change 2%Q with (inject_Z 2).
  rewrite <- Zpower_Qpower by lia.
  assert (H : (inject_Z 2 ^ (-112) == 1 # (2 ^ 112))%Q) by (vm_compute; reflexivity).
  rewrite H. unfold Qeq, Qmult, inject_Z. cbn [Qnum Qden]. lia.
Qed.

Lemma to_Q_units (m : positive) (e : Z) :
  -112 <= e ->
  exists q, to_Q (S754_finite false m e) = Some q /\
            (q == (Z.pos m * 2 ^ (e + 112))%Z # (2 ^ 112))%Q /\
            (q == inject_Z (Z.pos m) * 2 ^ e)%Q.
Proof.
  intros He.
  assert (Hunits : forall q : Q,
            (q == (Z.pos m * 2 ^ (e + 112))%Z # (2 ^ 112))%Q ->
            (q == inject_Z (Z.pos m) * 2 ^ e)%Q).
  { intros q Hq. rewrite Hq, (Qpower2_units e He).
    unfold Qeq, Qmult, inject_Z. cbn [Qnum Qden]. lia. }
  cbn [to_Q]. destruct e as [| k | k].
  - eexists. split; [reflexivity |].
    assert (H : (inject_Z (Z.pos m * 2 ^ 0) == (Z.pos m * 2 ^ (0 + 112))%Z # (2 ^ 112))%Q).
    { unfold Qeq, inject_Z. cbn [Qnum Qden].
      change (2 ^ 0)%Z with 1%Z. change (0 + 112)%Z with 112%Z.
      change (Z.pos (2 ^ 112)) with (2 ^ 112)%Z. lia. }
    split; [exact H | exact (Hunits _ H)].
  - eexists. split; [reflexivity |].
    assert (H : (inject_Z (Z.pos m * 2 ^ Z.pos k) ==
                 (Z.pos m * 2 ^ (Z.pos k + 112))%Z # (2 ^ 112))%Q).
    { unfold Qeq, inject_Z. cbn [Qnum Qden].
      rewrite Z.pow_add_r by lia.
      change (Z.pos (2 ^ 112)) with (2 ^ 112)%Z. lia. }
    split; [exact H | exact (Hunits _ H)].
  - eexists. split; [reflexivity |].
    assert (H : (Z.pos m # 2 ^ k == (Z.pos m * 2 ^ (Z.neg k + 112))%Z # (2 ^ 112))%Q).
    { unfold Qeq. cbn [Qnum Qden].
      change (Z.pos (2 ^ 112)) with (2 ^ 112)%Z.
      rewrite Pos2Z.inj_pow.
      replace 112%Z with ((Z.neg k + 112) + Z.pos k)%Z at 1 by lia.
      rewrite Z.pow_add_r by lia. ring. }
    split; [exact H | exact (Hunits _ H)].
Qed.

Lemma scaled_units (a e : Z) :
  -112 <= e ->
  (inject_Z a * 2 ^ e == (a * 2 ^ (e + 112))%Z # (2 ^ 112))%Q.
Proof.
  intros He. rewrite (Qpower2_units e He).
  unfold Qeq, Qmult, inject_Z. cbn [Qnum Qden]. lia.
Qed.

Ltac to_integers :=
  unfold Qle, Qlt, Qeq, Qabs, Qminus, Qplus, Qopp, Qmult, inject_Z;
  cbn [Qnum Qden];
  rewrite ?Pos2Z.inj_mul;
  change (Z.pos (2 ^ 112)) with 5192296858534827628530496329220096;
  change (Z.pos (10 ^ 18)) with 1000000000000000000;
  change (Z.pos (2 ^ 53)) with 9007199254740992.

(** The number stored for a raw 18-decimal amount is the binary64 number
    nearest to the amount divided by 10^18. *)
Lemma parseFloat_formatEther_nearest (v : Z) :
  0 <= v < 2 ^ 256 ->
  nearest_binary64 (v # 10 ^ 18) (parseFloat_formatEther v).
Proof.
  intros [Hv0 Hv].
  destruct (Z.eq_dec v 0) as [-> | Hnz].
  { exists 0%Q. split; [reflexivity |]. split.
    - vm_compute. discriminate.
    - intros H. exfalso. revert H. vm_compute. discriminate. }
  destruct (parseFloat_formatEther_rounds v ltac:(lia))
    as (m & ef & e1 & t & m2 & Hstored & He1 & Ht & Hbetween & Hcase & Hhalf & Htie
        & Hm & Hef).
  assert (Hefl : -112 <= ef) by (destruct Hef as [[-> _] | [-> _]]; lia).
  destruct (to_Q_units m ef Hefl) as (q & HtoQ & Hq & _).
  set (G := 2 ^ (e1 + 112)) in *.
  assert (HG : 0 < G) by (apply pow2_pos; lia).
  assert (Hnum : Z.pos m * 2 ^ (ef + 112) = m2 * G).
  { destruct Hef as [[-> ->] | (-> & -> & ->)]; [reflexivity |].
    unfold G. replace (e1 + 1 + 112) with (1 + (e1 + 112)) by lia.
    rewrite pow2_split by lia. change (2 ^ 1) with 2.
    change (2 ^ 52) with 4503599627370496. change (2 ^ 53) with 9007199254740992.
    ring. }
  rewrite Hnum in Hq. clear Hnum.
  set (D := 10 ^ 18) in *.
  change (2 ^ 112) with 5192296858534827628530496329220096 in Hbetween, Hhalf, Htie.
  change (2 ^ 52) with 4503599627370496 in Ht.
  change (2 ^ 53) with 9007199254740992 in Ht.
  set (U := D * G) in *.
  assert (HU : 0 < U) by (unfold U, D; change (10 ^ 18) with 1000000000000000000; lia).
  assert (Hlo : (inject_Z t * 2 ^ e1 == (t * G)%Z # (2 ^ 112))%Q)
    by (apply scaled_units; lia).
  assert (Hhi : (inject_Z (t + 1) * 2 ^ e1 == ((t + 1) * G)%Z # (2 ^ 112))%Q)
    by (apply scaled_units; lia).
  assert (HtU : forall a, a * G * 1000000000000000000 = a * U)
    by (intros a; unfold U, D; change (10 ^ 18) with 1000000000000000000; ring).
  exists q. rewrite Hstored. split; [exact HtoQ |].
  split.
  { rewrite Hq. to_integers. rewrite HtU.
    destruct Hbetween as [Hb1 Hb2].
    assert (H1 : 2 * Z.abs (m2 * U + - v * 5192296858534827628530496329220096) <= U).
    { replace (m2 * U + - v * 5192296858534827628530496329220096)
        with (m2 * U - v * 5192296858534827628530496329220096) by ring. exact Hhalf. }
    set (n := Z.abs (m2 * U + - v * 5192296858534827628530496329220096)) in *.
    assert (H2 : 4503599627370496 * U <= t * U) by (apply Z.mul_le_mono_nonneg_r; lia).
    lia. }
  intros _. exists t, e1.
  split; [change (2 ^ 52) with 4503599627370496;
          change (2 ^ 53) with 9007199254740992; exact Ht |].
  split; [lia |].
  destruct Hbetween as [Hb1 Hb2].
  split; [rewrite Hlo; to_integers; rewrite HtU; lia |].
  split; [rewrite Hhi; to_integers; rewrite HtU; lia |].
  split.
  { destruct Hcase as [-> | ->]; [left; rewrite Hq, Hlo | right; rewrite Hq, Hhi];
      reflexivity. }
  split.
  { rewrite Hq, Hlo. to_integers. rewrite !HtU.
    apply Z.mul_le_mono_nonneg_r; [lia |].
    destruct Hcase as [-> | ->]; lia. }
  split.
  { rewrite Hq, Hhi. to_integers. rewrite !HtU.
    apply Z.mul_le_mono_nonneg_r; [lia |].
    destruct Hcase as [-> | ->]; lia. }
  assert (Heven : (Qabs (inject_Z t * 2 ^ e1 - (v # 10 ^ 18)) ==
                   Qabs (inject_Z (t + 1) * 2 ^ e1 - (v # 10 ^ 18)))%Q ->
                  Z.even m2 = true).
  { rewrite Hlo, Hhi. to_integers. rewrite !HtU. intros Heq.
    apply Z.mul_cancel_r in Heq; [| lia].
    apply Htie. destruct Hcase as [-> | ->]; lia. }
  intros Heq. apply Heven in Heq. clear Heven.
  apply Z.even_spec in Heq. destruct Heq as [k Hk]. exists k.
  rewrite <- Hk, Hq. symmetry. unfold G. apply scaled_units. lia.
Qed.

Lemma scaled_le (a b : Z) (P : Q) :
  (0 < P)%Q -> (inject_Z a * P <= inject_Z b * P)%Q <-> a <= b.
Proof.
  intros HP. rewrite (Qmult_le_r _ _ _ HP), <- Zle_Qle. reflexivity.
Qed.

Lemma scaled_lt (a b : Z) (P : Q) :
  (0 < P)%Q -> (inject_Z a * P < inject_Z b * P)%Q <-> a < b.
Proof.
  intros HP. rewrite (Qmult_lt_r _ _ _ HP), <- Zlt_Qlt. reflexivity.
Qed.

Lemma Qpower2_shift (e k : Z) (a : Z) :
  0 <= k -> (inject_Z a * 2 ^ (e + k) == inject_Z (a * 2 ^ k) * 2 ^ e)%Q.
Proof.
  intros Hk. rewrite Qpower_plus by discriminate.
  rewrite inject_Z_mult, (Zpower_Qpower 2 k Hk). change (inject_Z 2) with 2%Q. ring.
Qed.

(** A positive quotient that is itself a 53-bit binary number is stored
    as it is. *)
Lemma nearest_binary64_exact (x : Q) (f : float) (t e : Z) :
  nearest_binary64 x f -> (0 < x)%Q ->
  2 ^ 52 <= t < 2 ^ 53 -> (x == inject_Z t * 2 ^ e)%Q ->
  exists q : Q, to_Q f = Some q /\ (q == x)%Q.
Proof.
  intros (q & Hq & _ & Hnear) Hpos Ht Hx.
  destruct (Hnear Hpos) as (t0 & e0 & Ht0 & _ & Hlo & Hhi & _ & Hdist & _).
  exists q. split; [exact Hq |].
  change (2 ^ 52) with 4503599627370496 in *.
  change (2 ^ 53) with 9007199254740992 in *.
  assert (HP : forall z : Z, (0 < 2 ^ z)%Q) by (intros z; apply Qpower_0_lt; reflexivity).
  assert (Hsame : (x == inject_Z t0 * 2 ^ e0)%Q).
  { destruct (Z_lt_le_dec e0 e) as [Hup | Hle].
    - (* [x] would be at or above the upper neighbour *)
      exfalso. rewrite Hx in Hhi.
      replace e with (e0 + (e - e0)) in Hhi by lia.
      rewrite Qpower2_shift in Hhi by lia.
      apply (proj1 (scaled_lt (t * 2 ^ (e - e0)) (t0 + 1) _ (HP e0))) in Hhi.
      assert (2 ^ 1 <= 2 ^ (e - e0)) by (apply Z.pow_le_mono_r; lia).
      change (2 ^ 1) with 2 in *. nia.
    - destruct (Z_lt_le_dec e e0) as [Hdown | Hge].
      + (* [x] would be below the lower neighbour *)
        exfalso. rewrite Hx in Hlo.
        replace e0 with (e + (e0 - e)) in Hlo by lia.
        rewrite Qpower2_shift in Hlo by lia.
        apply (proj1 (scaled_le (t0 * 2 ^ (e0 - e)) t _ (HP e))) in Hlo.
        assert (2 ^ 1 <= 2 ^ (e0 - e)) by (apply Z.pow_le_mono_r; lia).
        change (2 ^ 1) with 2 in *. nia.
      + assert (e = e0) by lia. subst e0.
        rewrite Hx in Hlo, Hhi.
        apply (proj1 (scaled_le t0 t _ (HP e))) in Hlo.
        apply (proj1 (scaled_lt t (t0 + 1) _ (HP e))) in Hhi.
        assert (t = t0) by lia. subst t0. exact Hx. }
  rewrite <- Hsame in Hdist.
  assert (Hzero : (Qabs (x - x) == 0)%Q).
  { setoid_replace (x - x)%Q with 0%Q by ring. reflexivity. }
  rewrite Hzero in Hdist.
  apply Qabs_Qle_condition in Hdist. destruct Hdist as [H1 H2].
  apply Qle_antisym.
  - setoid_replace q with ((q - x) + x)%Q by ring.
    setoid_replace x with (0 + x)%Q at 3 by ring.
    apply Qplus_le_compat; [exact H2 | apply Qle_refl].
  - setoid_replace q with ((q - x) + x)%Q by ring.
    setoid_replace x with (- 0 + x)%Q at 1 by ring.
    apply Qplus_le_compat; [exact H1 | apply Qle_refl].
Qed.

(** C4, as the code has it.  Each of the six amounts the contract returns
    with 18 decimals is stored as [parseFloat(formatEther(v))], which is
    not [v / 10^18] but the binary64 number nearest to it, ties to even:
    off by at most one part in 2^53, and equal to the quotient when the
    quotient is itself a 53-bit binary number.  The scaling is applied
    once, when the value is stored: the cards and the "Your Investment"
    panel format the stored number as it is, [formatUSD] abbreviating
    thousands and millions. *)
Theorem stored_amounts_are_nearest_doubles (fmt : float -> string)
  (fr : FundAnswers) (nr : NavRecord) (lr : LPAnswers) :
  uint256 (ans_getCurrentNAV fr) ->
  uint256 (ans_totalSupply fr) ->
  uint256 (rec_nav nr) ->
  uint256 (ans_balanceOf lr) ->
  uint256 (ans_getLPValue lr) ->
  uint256 (info_initialInvestment (ans_lpInfo lr)) ->
  let ether (v : Z) : Q := v # 10 ^ 18 in
  let stored (v : Z) (f : float) : Prop :=
    f = parseFloat_formatEther v /\
    nearest_binary64 (ether v) f /\
    (forall t e : Z,
       0 < v -> 2 ^ 52 <= t < 2 ^ 53 -> (ether v == inject_Z t * 2 ^ e)%Q ->
       exists q : Q, to_Q f = Some q /\ (q == ether v)%Q) in
  stored (ans_getCurrentNAV fr) (currentNav (fund_of fr)) /\
  stored (ans_totalSupply fr) (totalShares (fund_of fr)) /\
  stored (rec_nav nr) (nav (point_of fmt nr)) /\
  stored (ans_balanceOf lr) (shares (position_of lr)) /\
  stored (ans_getLPValue lr) (value (position_of lr)) /\
  stored (info_initialInvestment (ans_lpInfo lr)) (initialInvestment (position_of lr)) /\
  (forall s : State, fundData s = Some (fund_of fr) ->
     nav_text s = "$" ++ formatNumber (Some (parseFloat_formatEther (ans_getCurrentNAV fr))) 4 /\
     total_shares_text s = formatNumber (Some (parseFloat_formatEther (ans_totalSupply fr))) 0) /\
  position_value_text (position_of lr) =
    formatUSD (Some (parseFloat_formatEther (ans_getLPValue lr))) /\
  position_shares_text (position_of lr) =
    formatNumber (Some (parseFloat_formatEther (ans_balanceOf lr))) 0 /\
  position_initial_text (position_of lr) =
    formatUSD (Some (parseFloat_formatEther (info_initialInvestment (ans_lpInfo lr)))).
Proof.
  intros Hnav Hsupply Hpoint Hbalance Hvalue Hinitial ether stored.
  assert (Hstored : forall v : Z, uint256 v -> stored v (parseFloat_formatEther v)).
  { intros v Hv. split; [reflexivity |].
    pose proof (parseFloat_formatEther_nearest v Hv) as Hnear.
    split; [exact Hnear |].
    intros t e Hpos Ht Hx.
    apply (nearest_binary64_exact (ether v) _ t e Hnear); [| exact Ht | exact Hx].
    unfold ether, Qlt. cbn [Qnum Qden]. lia. }
  split; [apply Hstored; exact Hnav |].
  split; [apply Hstored; exact Hsupply |].
  split; [apply Hstored; exact Hpoint |].
  split; [apply Hstored; exact Hbalance |].
  split; [apply Hstored; exact Hvalue |].
  split; [apply Hstored; exact Hinitial |].
  split; [| split; [| split]; reflexivity].
  intros s Hs. unfold nav_text, total_shares_text, currentNav_of. rewrite Hs.
  split; reflexivity.
Qed.

Lemma stored_amounts_are_nearest_doubles_witness :
  nearest_binary64 (1040000000000000000 # 10 ^ 18) (currentNav (fund_of sample_fund)) /\
  nearest_binary64 (5000000000000000000000 # 10 ^ 18) (totalShares (fund_of sample_fund)).
Proof.
  assert (Hsmall : forall v : Z, (0 <=? v) && (v <? 2 ^ 256) = true -> uint256 v).
  { intros v H. apply andb_true_iff in H. destruct H as [H1 H2].
    apply Z.leb_le in H1. apply Z.ltb_lt in H2. split; assumption. }
  destruct (stored_amounts_are_nearest_doubles plain_dates sample_fund
              {| rec_timestamp := 0; rec_nav := 0; rec_totalShares := 0;
                 rec_totalAssets := 0; rec_ipfsHash := EmptyString |}
              investor_position
              (Hsmall 1040000000000000000 eq_refl)
              (Hsmall 5000000000000000000000 eq_refl)
              (Hsmall 0 eq_refl)
              (Hsmall 10000000000000000000 eq_refl)
              (Hsmall 10400000000000000000 eq_refl)
              (Hsmall 10000000000000000000 eq_refl))
    as ((_ & Hnav & _) & (_ & Hsupply & _) & _).
  split; [exact Hnav | exact Hsupply].
Defined.

(** The stored NAV of scenario A is not 1.04: it is 4683743612465316 / 2^52,
    which is above 1.04 by a little less than 4 parts in 10^17.  The total
    supply of 5000 is stored exactly. *)
Lemma stored_nav_is_not_the_quotient :
  to_Q (parseFloat_formatEther 1040000000000000000)
    = Some (4683743612465316 # 2 ^ 52) /\
  ~ (4683743612465316 # 2 ^ 52 == 1040000000000000000 # 10 ^ 18)%Q /\
  ((4683743612465316 # 2 ^ 52) - (1040000000000000000 # 10 ^ 18) ==
   1 # 28147497671065600)%Q /\
  (exists q : Q, to_Q (parseFloat_formatEther 5000000000000000000000) = Some q /\
                 (q == inject_Z 5000)%Q).
Proof.
  split; [vm_compute; reflexivity |].
  split; [vm_compute; discriminate |].
  split; [vm_compute; reflexivity |].
  eexists. split; [vm_compute; reflexivity | vm_compute; reflexivity].
Qed.

(** ** Position loads *)

Lemma exec_loadLPData (answer : Oracle) (address : string) (s : State) :
  exec answer (loadLPData address) s =
  match answer _ (lp_queries address) with
  | Resolved r =>
      {| final := if ans_whitelist r
                  then apply (setLpData (Some (position_of r)))
                         (apply (setIsWhitelisted true) s)
                  else apply (setIsWhitelisted false) s;
         printed := [];
         returned := Resolved tt |}
  | Rejected e =>
      {| final := s; printed := ["Error loading LP data:"]; returned := Resolved tt |}
  end.
Proof.
  unfold loadLPData. exec_step.
  destruct (answer _ (lp_queries address)) as [r | e]; exec_step; [| reflexivity].
  destruct (ans_whitelist r); reflexivity.
Qed.

(** C5, as the code has it.  When the whitelist query returns false,
    [loadLPData] sets the flag to false and writes nothing else: no
    position field is populated by this load, and the position record is
    left as it was, absent when it was absent and still holding the numbers
    of an earlier whitelisted load when there was one.  Either way, with an
    account connected and the page loaded, the "Wallet Not Whitelisted"
    panel is rendered and "Your Investment" is not. *)
Theorem scenario_D_not_whitelisted (answer : Oracle) (s : State) (address : string)
  (r : LPAnswers) :
  answer _ (lp_queries address) = Resolved r ->
  ans_whitelist r = false ->
  let s' := final (exec answer (loadLPData address) s) in
  s' = apply (setIsWhitelisted false) s /\
  isWhitelisted s' = false /\
  lpData s' = lpData s /\
  (lpData s = None -> lpData s' = None) /\
  (forall d, lpData s = Some d -> lpData s' = Some d) /\
  (str_truthy (account s') = true -> loading s' = false ->
   not_whitelisted_rendered s' = true /\ your_investment_rendered s' = false).
Proof.
  intros Hans Hwl s'. unfold s'. rewrite exec_loadLPData, Hans. cbn [final].
  rewrite Hwl.
  split; [reflexivity |]. split; [reflexivity |]. split; [reflexivity |].
  split; [intros H; exact H |]. split; [intros d H; exact H |].
  cbn [apply account loading]. intros Hacc Hload.
  unfold not_whitelisted_rendered, your_investment_rendered.
  cbn [apply account loading isWhitelisted].
  rewrite Hacc, Hload. split; reflexivity.
Qed.

Lemma scenario_D_not_whitelisted_witness :
  let s := apply (setLoading false) (apply (setAccount (Some "0xB")) initial) in
  let s' := final (exec (oracle_of calm_world) (loadLPData "0xB") s) in
  lpData s' = None /\ not_whitelisted_rendered s' = true /\
  your_investment_rendered s' = false.
Proof.
  destruct (scenario_D_not_whitelisted (oracle_of calm_world)
              (apply (setLoading false) (apply (setAccount (Some "0xB")) initial))
              "0xB" stranger_position eq_refl eq_refl)
    as (_ & _ & _ & Habsent & _ & Hpanel).
  split; [exact (Habsent eq_refl) | exact (Hpanel eq_refl eq_refl)].
Defined.

(** The numeric fields are not always absent after a load that returned
    whitelist=false.  The page has loaded, the wallet was on the
    whitelisted ["0xA"], whose position was stored, and has switched to
    ["0xB"]: the load for ["0xB"] returns whitelist=false and leaves the
    record of ["0xA"], ten shares worth 10.4, in the state. *)
Lemma not_whitelisted_load_keeps_numbers :
  let w := oracle_of calm_world in
  let before := after true plain_dates
                  [Settle 0 w; Settle 0 w; Settle 0 w; AccountsChanged ["0xB"]] in
  let s' := final (exec w (loadLPData "0xB") (ui before)) in
  positions_in_flight before = ["0xB"] /\
  w _ (lp_queries "0xB") = Resolved stranger_position /\
  ans_whitelist stranger_position = false /\
  ui (react true plain_dates before (Settle 0 w)) = s' /\
  account s' = Some "0xB" /\
  isWhitelisted s' = false /\
  not_whitelisted_rendered s' = true /\
  lpData s' <> None /\
  option_map shares (lpData s') = Some (Number 10) /\
  option_map value (lpData s') = Some (parseFloat_formatEther 10400000000000000000) /\
  option_map initialInvestment (lpData s') = Some (Number 10) /\
  option_map returnRate (lpData s') = Some (Number 4).
Proof.
  vm_compute. repeat split. discriminate.
Qed.

Lemma loadLPData_returns (answer : Oracle) (address : string) (s : State) :
  returned (exec answer (loadLPData address) s) = Resolved tt.
Proof.
  rewrite exec_loadLPData. destruct (answer _ (lp_queries address)); reflexivity.
Qed.

(** ** Connecting *)

(** The network check updates nothing and prints nothing. *)
Lemma exec_ensure_chain (answer : Oracle) (chainId : string) (s : State) :
  final (exec answer (ensure_chain chainId) s) = s /\
  printed (exec answer (ensure_chain chainId) s) = [].
Proof.
  unfold ensure_chain. destruct (wrong_chain chainId); [| split; reflexivity].
  exec_step.
  destruct (answer _ (wallet_switchEthereumChain target_chain)) as [v | e];
    exec_step; [split; reflexivity |].
  destruct (code_is e 4902); [| split; reflexivity].
  exec_step.
  destruct (answer _ (wallet_addEthereumChain _ _ _ _)); split; reflexivity.
Qed.

Lemma ensure_chain_state_free (answer : Oracle) (chainId : string) (s s' : State) :
  returned (exec answer (ensure_chain chainId) s) =
  returned (exec answer (ensure_chain chainId) s').
Proof.
  unfold ensure_chain. destruct (wrong_chain chainId); [| reflexivity].
  exec_step.
  destruct (answer _ (wallet_switchEthereumChain target_chain)) as [v | e];
    exec_step; [reflexivity |].
  destruct (code_is e 4902); [| reflexivity].
  exec_step.
  destruct (answer _ (wallet_addEthereumChain _ _ _ _)); reflexivity.
Qed.

(** What [connectWallet] does once the wallet has granted an account and
    reported its chain. *)
Lemma exec_connectWallet_granted (answer : Oracle) (s : State)
  (a : string) (rest : list string) (c : string) :
  answer _ eth_requestAccounts = Resolved (a :: rest) ->
  answer _ eth_chainId = Resolved c ->
  let s0 := apply (setError None) (apply (setIsConnecting true) s) in
  exec answer (connectWallet true) s =
  match returned (exec answer (ensure_chain c) s0) with
  | Resolved _ =>
      let r := exec answer (loadLPData a) s0 in
      {| final := apply (setIsConnecting false) (apply (setAccount (Some a)) (final r));
         printed := printed r;
         returned := Resolved tt |}
  | Rejected e =>
      {| final := apply (setIsConnecting false) (apply (setError (Some (message e))) s0);
         printed := [];
         returned := Resolved tt |}
  end.
Proof.
  intros Hacc Hchain s0. unfold connectWallet. cbn [negb]. exec_step.
  rewrite Hacc. exec_step. rewrite Hchain. exec_step.
  fold s0. rewrite exec_try_catch, exec_bind.
  destruct (exec_ensure_chain answer c s0) as [Hf Hp].
  destruct (returned (exec answer (ensure_chain c) s0)) as [v | e]; cbn zeta.
  - rewrite exec_bind, Hf, Hp, loadLPData_returns. exec_step.
    rewrite app_nil_r. reflexivity.
  - cbn [returned final printed]. rewrite Hf, Hp. exec_step. reflexivity.
Qed.

(** A position load touches nothing but the whitelist flag and the
    position record. *)
Lemma loadLPData_frame (answer : Oracle) (address : string) (s : State) :
  let s' := final (exec answer (loadLPData address) s) in
  account s' = account s /\ isConnecting s' = isConnecting s /\
  fundData s' = fundData s /\ navHistory s' = navHistory s /\
  error s' = error s /\ loading s' = loading s.
Proof.
  cbn zeta. rewrite exec_loadLPData.
  destruct (answer _ (lp_queries address)) as [r | e];
    [destruct (ans_whitelist r) |]; cbn; auto 10.
Qed.

(** The requests a connect makes, branch by branch. *)
Lemma requests_connectWallet (answer : Oracle) :
  requests answer (connectWallet true) =
  asked eth_requestAccounts ::
  match answer _ eth_requestAccounts with
  | Resolved (a :: _) =>
      asked eth_chainId ::
      match answer _ eth_chainId with
      | Resolved c =>
          if wrong_chain c then
            asked switch_request ::
            match answer _ switch_request with
            | Resolved _ => [asked (lp_queries a)]
            | Rejected e =>
                if code_is e 4902 then
                  asked registration_request ::
                  match answer _ registration_request with
                  | Resolved _ => [asked (lp_queries a)]
                  | Rejected _ => []
                  end
                else [asked (lp_queries a)]
            end
          else [asked (lp_queries a)]
      | Rejected _ => []
      end
  | _ => []
  end.
Proof.
  unfold connectWallet, ensure_chain, loadLPData, switch_request, registration_request.
  cbn [negb requests bind try_catch set await console_error].
  f_equal.
  destruct (answer _ eth_requestAccounts) as [[| a rest] | e];
    cbn [requests bind try_catch set await console_error]; try reflexivity.
  f_equal.
  destruct (answer _ eth_chainId) as [c | e];
    cbn [requests bind try_catch set await console_error]; try reflexivity.
  assert (Hload : forall (k : Task unit) (h : JsError -> Task unit),
            requests answer
              (try_catch
                 (bind
                    (try_catch
                       (bind (await (lp_queries a))
                          (fun r =>
                             bind (set (setIsWhitelisted (ans_whitelist r)))
                               (fun _ =>
                                  if ans_whitelist r
                                  then set (setLpData (Some (position_of r)))
                                  else Ret tt)))
                       (fun _ => console_error "Error loading LP data:"))
                    (fun _ => bind (set (setAccount (Some a)))
                                (fun _ => set (setIsConnecting false)))) h)
            = [asked (lp_queries a)]).
  { intros k h. cbn [requests bind try_catch set await console_error]. f_equal.
    destruct (answer _ (lp_queries a)) as [r | e];
      cbn [requests bind try_catch set await console_error];
      [destruct (ans_whitelist r) |]; reflexivity. }
  destruct (wrong_chain c);
    cbn [requests bind try_catch set await console_error];
    [| apply (Hload (Ret tt))].
  f_equal.
  destruct (answer _ (wallet_switchEthereumChain target_chain)) as [v | e];
    cbn [requests bind try_catch set await console_error];
    [apply (Hload (Ret tt)) |].
  destruct (code_is e 4902);
    cbn [requests bind try_catch set await console_error];
    [| apply (Hload (Ret tt))].
  f_equal.
  destruct (answer _ (wallet_addEthereumChain _ _ _ _)) as [v | e'];
    cbn [requests bind try_catch set await console_error];
    [apply (Hload (Ret tt)) | reflexivity].
Qed.

(** C3, as the code has it.  When the switch request fails during a
    connect, the failure is swallowed unless its code is 4902: the position
    load for the granted account is requested and run, the account is
    published as connected, [isConnecting] is cleared and no error message
    is set.  With code 4902 the registration request is issued and decides:
    if it succeeds the connect goes on in the same way, if it fails no
    position load is requested, the account is left as it was (Disconnected
    when there was none), [isConnecting] is cleared and the message of that
    failure is stored as the error. *)
Theorem connect_after_switch_failure (answer : Oracle) (s : State)
  (a : string) (rest : list string) (c : string) (e : JsError) :
  answer _ eth_requestAccounts = Resolved (a :: rest) ->
  answer _ eth_chainId = Resolved c ->
  wrong_chain c = true ->
  answer _ (wallet_switchEthereumChain target_chain) = Rejected e ->
  let done := exec answer (connectWallet true) s in
  let made := requests answer (connectWallet true) in
  let add := answer _ (wallet_addEthereumChain target_chain CONFIG.chainName
                         CONFIG.rpcUrl CONFIG.blockExplorer) in
  let s0 := apply (setError None) (apply (setIsConnecting true) s) in
  let loaded := exec answer (loadLPData a) s0 in
  returned done = Resolved tt /\
  isConnecting (final done) = false /\
  (code_is e 4902 = false ->
   made = [asked eth_requestAccounts; asked eth_chainId; asked switch_request;
           asked (lp_queries a)]) /\
  (code_is e 4902 = true ->
   exists after_registration,
     made = asked eth_requestAccounts :: asked eth_chainId :: asked switch_request ::
            asked registration_request :: after_registration /\
     (add = Resolved tt -> after_registration = [asked (lp_queries a)]) /\
     (forall e', add = Rejected e' -> after_registration = [])) /\
  (code_is e 4902 = false \/ add = Resolved tt ->
   final done = apply (setIsConnecting false) (apply (setAccount (Some a)) (final loaded)) /\
   printed done = printed loaded /\
   connection (final done) = Connected a /\ error (final done) = None) /\
  (forall e', code_is e 4902 = true -> add = Rejected e' ->
   final done = apply (setIsConnecting false) (apply (setError (Some (message e'))) s0) /\
   account (final done) = account s /\
   isWhitelisted (final done) = isWhitelisted s /\
   lpData (final done) = lpData s /\
   (account s = None -> connection (final done) = Disconnected) /\
   error (final done) = Some (message e')).
Proof.
  intros Hacc Hchain Hwrong Hswitch done made add s0 loaded.
  destruct (loadLPData_frame answer a s0) as (_ & _ & _ & _ & Herr & _).
  assert (Hdone : done =
    match (if code_is e 4902 then add else Resolved tt) with
    | Resolved _ =>
        {| final := apply (setIsConnecting false) (apply (setAccount (Some a)) (final loaded));
           printed := printed loaded;
           returned := Resolved tt |}
    | Rejected e' =>
        {| final := apply (setIsConnecting false) (apply (setError (Some (message e'))) s0);
           printed := [];
           returned := Resolved tt |}
    end).
  { unfold done, loaded.
    rewrite (exec_connectWallet_granted answer s a rest c Hacc Hchain). cbn zeta.
    fold s0. unfold ensure_chain. rewrite Hwrong. exec_step. rewrite Hswitch.
    exec_step. destruct (code_is e 4902); [| reflexivity].
    exec_step. fold add. destruct add as [[] | e']; reflexivity. }
  assert (Hmade : made =
    asked eth_requestAccounts :: asked eth_chainId :: asked switch_request ::
    (if code_is e 4902
     then asked registration_request ::
          match add with
          | Resolved _ => [asked (lp_queries a)]
          | Rejected _ => []
          end
     else [asked (lp_queries a)])).
  { unfold made. rewrite requests_connectWallet, Hacc, Hchain, Hwrong.
    unfold switch_request. rewrite Hswitch. reflexivity. }
  rewrite Hdone, Hmade. clear Hdone Hmade.
  assert (Hgo : forall st : State,
            error (apply (setIsConnecting false) (apply (setAccount (Some a)) st))
            = error st) by reflexivity.
  destruct (code_is e 4902) eqn:Hcode.
  - destruct add as [[] | e1] eqn:Hadd; cbn [returned final printed].
    + split; [reflexivity |]. split; [reflexivity |].
      split; [intros H; discriminate H |].
      split; [intros _; exists [asked (lp_queries a)]; split; [reflexivity |];
              split; [reflexivity | intros e' H; discriminate H] |].
      split.
      * intros _. split; [reflexivity |]. split; [reflexivity |].
        split; [reflexivity |]. rewrite Hgo. unfold loaded. rewrite Herr. reflexivity.
      * intros e' _ H. discriminate H.
    + split; [reflexivity |]. split; [reflexivity |].
      split; [intros H; discriminate H |].
      split; [intros _; exists []; split; [reflexivity |];
              split; [intros H; discriminate H | reflexivity] |].
      split.
      * intros [H | H]; discriminate H.
      * intros e' _ H. injection H as <-.
        split; [reflexivity |]. split; [reflexivity |]. split; [reflexivity |].
        split; [reflexivity |]. split; [| reflexivity].
        intros Hnone. unfold connection. cbn [apply account isConnecting s0].
        rewrite Hnone. reflexivity.
  - cbn [returned final printed]. split; [reflexivity |]. split; [reflexivity |].
    split; [reflexivity |]. split; [intros H; discriminate H |]. split.
    + intros _. split; [reflexivity |]. split; [reflexivity |].
      split; [reflexivity |]. rewrite Hgo. unfold loaded. rewrite Herr. reflexivity.
    + intros e' H. discriminate H.
Qed.

Lemma connect_after_switch_failure_witness :
  (connection (final (exec (oracle_of refusing_world) (connectWallet true) initial))
     = Connected "0xA" /\
   requests (oracle_of refusing_world) (connectWallet true) =
     [asked eth_requestAccounts; asked eth_chainId; asked switch_request;
      asked (lp_queries "0xA")]) /\
  error (final (exec (oracle_of unknown_chain_world) (connectWallet true) initial))
    = Some "User rejected the request.".
Proof.
  split.
  - destruct (connect_after_switch_failure (oracle_of refusing_world) initial
                "0xA" [] "0x1" user_rejected eq_refl eq_refl eq_refl eq_refl)
      as (_ & _ & Hmade & _ & Hgo & _).
    split; [| exact (Hmade eq_refl)].
    destruct (Hgo (or_introl eq_refl)) as (_ & _ & Hconn & _). exact Hconn.
  - destruct (connect_after_switch_failure (oracle_of unknown_chain_world) initial
                "0xA" [] "0x1" unknown_chain eq_refl eq_refl eq_refl eq_refl)
      as (_ & _ & _ & _ & _ & Hstop).
    destruct (Hstop user_rejected eq_refl eq_refl) as (_ & _ & _ & _ & _ & Herr).
    exact Herr.
Defined.

(** The user refuses the chain switch (code 4001) and the connect still
    ends Connected, with no error banner. *)
Lemma refused_switch_still_connects :
  let s' := final (exec (oracle_of refusing_world) (connectWallet true) initial) in
  Hex.parseInt16 "0x1" <> Some CONFIG.chainId /\
  code_is user_rejected 4902 = false /\
  connection s' = Connected "0xA" /\
  connection s' <> Disconnected /\
  error_banner s' = None.
Proof.
  vm_compute. repeat split; discriminate.
Qed.

(** ** No unhandled rejection *)

Lemma never_throws_bind (A B : Type) (t : Task A) (f : A -> Task B) :
  never_throws t -> (forall a, never_throws (f a)) -> never_throws (bind t f).
Proof.
  intros Ht Hf. induction t as [a | e | u k IH | m k IH | R r k IH]; cbn in *; auto.
Qed.

(** A [catch] whose handler does not throw stops every error. *)
Lemma never_throws_try_catch (A : Type) (t : Task A) (h : JsError -> Task A) :
  (forall e, never_throws (h e)) -> never_throws (try_catch t h).
Proof.
  intros Hh. induction t as [a | e | u k IH | m k IH | R r k IH]; cbn; auto.
Qed.

Lemma never_throws_finally (A : Type) (t : Task A) (f : Task unit) :
  never_throws t -> never_throws f -> never_throws (finally t f).
Proof.
  intros Ht Hf. induction t as [a | e | u k IH | m k IH | R r k IH]; cbn in *; auto.
  - apply never_throws_bind; cbn; auto.
  - contradiction.
Qed.

Lemma never_throws_loadFundData (fmt : float -> string) :
  never_throws (loadFundData fmt).
Proof.
  unfold loadFundData. apply never_throws_finally; [| exact I].
  apply never_throws_try_catch. intros e. exact I.
Qed.

Lemma never_throws_loadLPData (address : string) : never_throws (loadLPData address).
Proof.
  unfold loadLPData. apply never_throws_try_catch. intros e. exact I.
Qed.

Lemma never_throws_connectWallet (hasWallet : bool) :
  never_throws (connectWallet hasWallet).
Proof.
  unfold connectWallet. destruct hasWallet; [| exact I].
  cbn [negb bind set never_throws]. apply never_throws_try_catch. intros e. exact I.
Qed.

Lemma never_throws_checkConnectedWallet (hasWallet : bool) :
  never_throws (checkConnectedWallet hasWallet).
Proof.
  unfold checkConnectedWallet. destruct hasWallet; [| exact I].
  apply never_throws_try_catch. intros e. exact I.
Qed.

Lemma never_throws_onAccountsChanged (accounts : list string) :
  never_throws (onAccountsChanged accounts).
Proof.
  destruct accounts as [| a rest]; [exact I |].
  unfold onAccountsChanged. cbn [bind set never_throws].
  apply never_throws_loadLPData.
Qed.

Lemma spawn_quiet (t : Task unit) (sys : Sys) :
  quiet sys -> never_throws t -> quiet (spawn t sys).
Proof.
  intros [Hu Hp] Ht. unfold quiet, spawn.
  assert (Hrun : forall s,
            match outcome (run t s) with
            | Finished => True
            | Uncaught _ => False
            | Waiting (Susp r k) => forall res, never_throws (k res)
            end).
  { clear Hu Hp. revert Ht.
    induction t as [a | e | u k IH | m k IH | R r k IH]; cbn; intros Ht s; auto.
    - apply IH. exact Ht.
    - apply IH. exact Ht. }
  specialize (Hrun (ui sys)). cbn [unhandled pending].
  destruct (outcome (run t (ui sys))) as [| e | [R r k]].
  - split; assumption.
  - contradiction.
  - split; [assumption |]. apply Forall_app. split; auto.
Qed.

Lemma mounted_quiet (hasWallet : bool) (fmt : float -> string) :
  quiet (mounted hasWallet fmt).
Proof.
  unfold mounted. apply spawn_quiet; [| apply never_throws_checkConnectedWallet].
  apply spawn_quiet; [| apply never_throws_loadFundData].
  split; [reflexivity | constructor].
Qed.

Lemma react_quiet (hasWallet : bool) (fmt : float -> string) (sys : Sys) (ev : Event) :
  quiet sys -> quiet (react hasWallet fmt sys ev).
Proof.
  intros Hq. destruct ev as [i answer | | | accounts |]; cbn [react].
  - destruct (nth_error (pending sys) i) as [[R r k] |] eqn:Hi; [| exact Hq].
    destruct Hq as [Hu Hp].
    assert (Hk : forall res, never_throws (k res)).
    { rewrite Forall_forall in Hp.
      exact (Hp (Susp r k) (nth_error_In _ _ Hi)). }
    apply spawn_quiet; [| apply Hk].
    split; [exact Hu |]. cbn [pending]. apply Forall_remove_nth. exact Hp.
  - destruct (connect_clickable (ui sys)); [| exact Hq].
    apply spawn_quiet; [exact Hq | apply never_throws_connectWallet].
  - destruct (disconnect_clickable (ui sys)); [| exact Hq].
    apply spawn_quiet; [exact Hq | exact I].
  - destruct hasWallet; [| exact Hq].
    apply spawn_quiet; [exact Hq | apply never_throws_onAccountsChanged].
  - destruct hasWallet; [apply mounted_quiet | exact Hq].
Qed.

(** Whatever happens, no promise of the component is rejected without a
    handler. *)
Lemma no_unhandled_rejection (hasWallet : bool) (fmt : float -> string)
  (evs : list Event) :
  unhandled (after hasWallet fmt evs) = [].
Proof.
  unfold after.
  assert (Hgen : forall sys, quiet sys ->
            quiet (fold_left (react hasWallet fmt) evs sys)).
  { induction evs as [| ev evs IH]; intros sys Hsys; cbn; [exact Hsys |].
    apply IH. apply react_quiet. exact Hsys. }
  exact (proj1 (Hgen _ (mounted_quiet hasWallet fmt))).
Qed.

(** C6, as the code has it.  A failed position load ends normally: it
    prints to the console and leaves the whole state as it was, so no error
    message is set and [loading] is not touched.  A connect whose position
    load fails still publishes the account and clears [isConnecting], with
    the whitelist flag and the position record as they were and with no
    error message.  And in no run of the page is a rejection left
    unhandled. *)
Theorem position_failure_is_absorbed (answer : Oracle) (s : State)
  (a : string) (e : JsError) :
  answer _ (lp_queries a) = Rejected e ->
  exec answer (loadLPData a) s =
    {| final := s; printed := ["Error loading LP data:"]; returned := Resolved tt |} /\
  (forall rest c,
     answer _ eth_requestAccounts = Resolved (a :: rest) ->
     answer _ eth_chainId = Resolved c ->
     (forall st, returned (exec answer (ensure_chain c) st) = Resolved tt) ->
     let done := exec answer (connectWallet true) s in
     returned done = Resolved tt /\
     printed done = ["Error loading LP data:"] /\
     final done =
       apply (setIsConnecting false)
         (apply (setAccount (Some a))
            (apply (setError None) (apply (setIsConnecting true) s))) /\
     connection (final done) = Connected a /\
     isConnecting (final done) = false /\
     isWhitelisted (final done) = isWhitelisted s /\
     lpData (final done) = lpData s /\
     error (final done) = None /\
     loading (final done) = loading s) /\
  (forall hasWallet fmt evs, unhandled (after hasWallet fmt evs) = []).
Proof.
  intros Hfail.
  assert (Hload : forall st, exec answer (loadLPData a) st =
            {| final := st; printed := ["Error loading LP data:"];
               returned := Resolved tt |}).
  { intros st. rewrite exec_loadLPData, Hfail. reflexivity. }
  split; [apply Hload |].
  split; [| intros hasWallet fmt evs; apply no_unhandled_rejection].
  intros rest c Hacc Hchain Hpass done. unfold done.
  rewrite (exec_connectWallet_granted answer s a rest c Hacc Hchain). cbn zeta.
  rewrite Hpass, Hload. cbn [returned printed final].
  repeat split; reflexivity.
Qed.

Lemma position_failure_is_absorbed_witness :
  connection (final (exec (oracle_of offline_world) (connectWallet true) initial))
    = Connected "0xA" /\
  error (final (exec (oracle_of offline_world) (connectWallet true) initial)) = None.
Proof.
  destruct (position_failure_is_absorbed (oracle_of offline_world) initial
              "0xA" rpc_down eq_refl) as (_ & Hconnect & _).
  destruct (Hconnect [] "0x14a34" eq_refl eq_refl (fun _ => eq_refl))
    as (_ & _ & _ & Hc & _ & _ & _ & He & _).
  split; assumption.
Defined.

(** Every position query fails during a connect while the fund data is
    still loading: no error message is set and [loading] stays true. *)
Lemma position_failure_not_surfaced :
  let done := exec (oracle_of offline_world) (connectWallet true) initial in
  connection (final done) = Connected "0xA" /\
  error (final done) = None /\
  error_banner (final done) = None /\
  loading (final done) = true /\
  loading (final done) <> false.
Proof.
  vm_compute. repeat split; discriminate.
Qed.

(** *** Connecting for good *)

Lemma run_only_resumable (P : State -> Prop) (ok : Setter -> Prop) :
  (forall u s, ok u -> P s -> P (apply u s)) ->
  forall (t : Task unit) (s : State), only ok t ->
  match outcome (run t s) with
  | Waiting p => resumable P p
  | _ => True
  end.
Proof.
  intros Hok t. induction t as [a | e | u k IH | m k IH | R r k IH];
    cbn; intros s Ht; auto; try (apply IH; tauto).
  intros res s' Hs'. apply (respects_only P ok Hok); auto.
Qed.

Lemma leaves_connecting_keeps (u : Setter) (s : State) :
  leaves_connecting u -> isConnecting s = true -> isConnecting (apply u s) = true.
Proof.
  destruct u; cbn; tauto.
Qed.

Lemma only_leaves_connecting_loadLPData (address : string) :
  only leaves_connecting (loadLPData address).
Proof.
  intros [r | e]; cbn; [destruct (ans_whitelist r) |]; cbn; auto.
Qed.

Lemma only_leaves_connecting_loadFundData (fmt : float -> string) :
  only leaves_connecting (loadFundData fmt).
Proof.
  unfold loadFundData.
  apply only_finally; [| cbn; auto]. apply only_try_catch; [| cbn; auto].
  cbn. split; [exact I |]. intros [r | e]; cbn; [| exact I].
  split; [exact I |].
  apply only_bind; [apply only_history_loop | cbn; auto].
Qed.

Lemma only_leaves_connecting_checkConnectedWallet (hasWallet : bool) :
  only leaves_connecting (checkConnectedWallet hasWallet).
Proof.
  destruct hasWallet; [| exact I]. unfold checkConnectedWallet.
  apply only_try_catch; [| cbn; auto].
  apply only_bind; [apply only_await |].
  intros [| a rest]; [exact I |].
  apply only_bind; [cbn; auto | intros _; apply only_leaves_connecting_loadLPData].
Qed.

Lemma only_leaves_connecting_onAccountsChanged (accounts : list string) :
  only leaves_connecting (onAccountsChanged accounts).
Proof.
  destruct accounts as [| a rest]; [cbn; auto |]. unfold onAccountsChanged.
  apply only_bind; [cbn; auto | intros _; apply only_leaves_connecting_loadLPData].
Qed.

(** An event other than a click on a connect button or a reload keeps
    [isConnecting] true, as long as no connect is in flight. *)
Lemma react_stays_connecting (hasWallet : bool) (fmt : float -> string)
  (sys : Sys) (ev : Event) :
  passive ev ->
  sys_inv (fun s => isConnecting s = true) sys ->
  sys_inv (fun s => isConnecting s = true) (react hasWallet fmt sys ev).
Proof.
  intros Hev [Hs Hp].
  assert (Hspawn : forall t, only leaves_connecting t ->
            sys_inv (fun s => isConnecting s = true) (spawn t sys)).
  { intros t Ht. apply spawn_inv; [exact Hp |].
    apply (respects_only _ leaves_connecting leaves_connecting_keeps); auto. }
  destruct ev as [i answer | | | accounts |]; cbn [react]; try contradiction.
  - destruct (nth_error (pending sys) i) as [[R r k] |] eqn:Hi; [| split; assumption].
    apply spawn_inv; cbn [pending ui].
    + apply Forall_remove_nth. exact Hp.
    + rewrite Forall_forall in Hp.
      exact (Hp (Susp r k) (nth_error_In _ _ Hi) (answer _ r) (ui sys) Hs).
  - destruct (disconnect_clickable (ui sys)); [| split; assumption].
    apply Hspawn. cbn. auto.
  - destruct hasWallet; [| split; assumption].
    apply Hspawn. apply only_leaves_connecting_onAccountsChanged.
Qed.

Lemma nth_error_last (A : Type) (l : list A) (x : A) :
  nth_error (l ++ [x]) (List.length l) = Some x.
Proof.
  induction l as [| y l IH]; cbn; auto.
Qed.

Lemma remove_nth_last (A : Type) (l : list A) (x : A) :
  remove_nth (List.length l) (l ++ [x]) = l.
Proof.
  induction l as [| y l IH]; cbn; [reflexivity |]. rewrite IH. reflexivity.
Qed.

(** A click on a connect button followed by an empty account list, seen
    from the event loop: two setters have run and the call is over. *)
Lemma react_connect_empty (fmt : float -> string) (sys : Sys) (answer : Oracle) :
  connect_clickable (ui sys) = true ->
  answer _ eth_requestAccounts = Resolved [] ->
  react true fmt (react true fmt sys ClickConnect)
    (Settle (List.length (pending sys)) answer) =
  {| ui := apply (setError None) (apply (setIsConnecting true) (ui sys));
     pending := pending sys;
     console := console sys;
     unhandled := unhandled sys |}.
Proof.
  intros Hclick Hacc.
  assert (Hcall : exists k,
            react true fmt sys ClickConnect =
            {| ui := apply (setError None) (apply (setIsConnecting true) (ui sys));
               pending := (pending sys ++ [Susp eth_requestAccounts k])%list;
               console := (console sys ++ [])%list;
               unhandled := unhandled sys |} /\
            k (Resolved []) = Ret tt).
  { eexists. split.
    - cbn [react]. rewrite Hclick. unfold spawn, connectWallet.
      cbn [negb bind try_catch set await run state_after logged outcome].
      reflexivity.
    - reflexivity. }
  destruct Hcall as (k & Hcall & Hk). rewrite Hcall.
  cbn [react pending ui console unhandled].
  rewrite nth_error_last, remove_nth_last, Hacc, Hk.
  unfold spawn. cbn [run state_after logged outcome ui pending console unhandled].
  rewrite !app_nil_r. reflexivity.
Qed.

Lemma spawn_pending_only (P : State -> Prop) (ok : Setter -> Prop)
  (t : Task unit) (sys : Sys) :
  (forall u s, ok u -> P s -> P (apply u s)) ->
  only ok t ->
  Forall (resumable P) (pending sys) ->
  Forall (resumable P) (pending (spawn t sys)).
Proof.
  intros Hok Ht Hp. unfold spawn. cbn [pending].
  pose proof (run_only_resumable P ok Hok t (ui sys) Ht) as Hrun.
  destruct (outcome (run t (ui sys))); auto.
  apply Forall_app. split; auto.
Qed.

(** On a fresh page, a connect answered with an empty account list leaves
    [isConnecting] true through every later event but a new connect or a
    reload. *)
Lemma stuck_connecting (fmt : float -> string) (answer : Oracle) (evs : list Event) :
  answer _ eth_requestAccounts = Resolved [] ->
  Forall passive evs ->
  isConnecting
    (ui (fold_left (react true fmt) evs
           (react true fmt (react true fmt (mounted true fmt) ClickConnect)
              (Settle 2 answer)))) = true.
Proof.
  intros Hacc Hevs.
  assert (Hstart : sys_inv (fun s => isConnecting s = true)
            (react true fmt (react true fmt (mounted true fmt) ClickConnect)
               (Settle 2 answer))).
  { change 2%nat with (List.length (pending (mounted true fmt))).
    rewrite (react_connect_empty fmt (mounted true fmt) answer eq_refl Hacc).
    split; [reflexivity |]. cbn [pending]. unfold mounted.
    apply (spawn_pending_only _ leaves_connecting _ _ leaves_connecting_keeps);
      [apply only_leaves_connecting_checkConnectedWallet |].
    apply (spawn_pending_only _ leaves_connecting _ _ leaves_connecting_keeps);
      [apply only_leaves_connecting_loadFundData | constructor]. }
  revert Hstart.
  generalize (react true fmt (react true fmt (mounted true fmt) ClickConnect)
                (Settle 2 answer)).
  induction Hevs as [| ev evs Hev Hevs IH]; intros sys Hsys; cbn [fold_left].
  - exact (proj1 Hsys).
  - apply IH. apply react_stays_connecting; assumption.
Qed.
(** C10.  When [eth_requestAccounts] resolves with an empty list,
    [connectWallet] returns having set [isConnecting] to true and the error
    to [null] and nothing else: no account is published, no message is
    shown, and from a disconnected state the connection stays Connecting.
    On a fresh page the flag then stays true through every later event
    except a new connect or a reload, since no other function of the
    component calls [setIsConnecting]. *)
Theorem empty_account_list_stays_connecting (answer : Oracle) (s : State) :
  answer _ eth_requestAccounts = Resolved [] ->
  let done := exec answer (connectWallet true) s in
  returned done = Resolved tt /\
  final done = apply (setError None) (apply (setIsConnecting true) s) /\
  isConnecting (final done) = true /\
  error (final done) = None /\
  error_banner (final done) = None /\
  account (final done) = account s /\
  (account s = None -> connection (final done) = Connecting) /\
  (forall fmt evs,
     Forall passive evs ->
     isConnecting
       (ui (fold_left (react true fmt) evs
              (react true fmt (react true fmt (mounted true fmt) ClickConnect)
                 (Settle 2 answer)))) = true).
Proof.
  intros Hacc done.
  assert (Hdone : done =
            {| final := apply (setError None) (apply (setIsConnecting true) s);
               printed := []; returned := Resolved tt |}).
  { unfold done, connectWallet. cbn [negb]. exec_step. rewrite Hacc. reflexivity. }
  rewrite Hdone. cbn [returned final].
  split; [reflexivity |]. split; [reflexivity |]. split; [reflexivity |].
  split; [reflexivity |]. split; [reflexivity |]. split; [reflexivity |].
  split. { unfold connection. cbn. intros ->. reflexivity. }
  intros fmt evs Hevs. apply stuck_connecting; assumption.
Qed.

Lemma empty_account_list_stays_connecting_witness :
  connection (final (exec (oracle_of empty_wallet_world) (connectWallet true) initial))
    = Connecting.
Proof.
  destruct (empty_account_list_stays_connecting (oracle_of empty_wallet_world)
              initial eq_refl) as (_ & _ & _ & _ & _ & _ & Hc & _).
  exact (Hc eq_refl).
Defined.







(** ** Order of the account and the position load *)

(** During a connect the account stays what it was at every [await],
    the position load included: [setAccount] comes after it. *)
Lemma connectWallet_publishes_after_load (answer : Oracle) (s : State) :
  Forall (fun shown => account (fst shown) = account s)
    (shown_while_waiting answer (connectWallet true) s).
Proof.
  unfold connectWallet, ensure_chain, loadLPData.
  cbn [negb bind try_catch set await shown_while_waiting].
  constructor; [reflexivity |].
  destruct (answer _ eth_requestAccounts) as [[| a rest] | e];
    cbn [bind try_catch set await shown_while_waiting]; [constructor | | constructor].
  constructor; [reflexivity |].
  destruct (answer _ eth_chainId) as [c | e];
    cbn [bind try_catch set await shown_while_waiting]; [| constructor].
  assert (Hload : forall h,
    Forall (fun shown => account (fst shown) = account s)
      (shown_while_waiting answer
         (try_catch
            (bind (loadLPData a)
               (fun _ => bind (set (setAccount (Some a)))
                           (fun _ => set (setIsConnecting false)))) h)
         (apply (setError None) (apply (setIsConnecting true) s)))).
  { intros h. unfold loadLPData.
    cbn [bind try_catch set await shown_while_waiting console_error].
    constructor; [reflexivity |].
    destruct (answer _ (lp_queries a)) as [r | e];
      cbn [bind try_catch set await shown_while_waiting console_error];
      [destruct (ans_whitelist r) |];
      cbn [bind try_catch set await shown_while_waiting console_error];
      constructor. }
  unfold loadLPData in Hload.
  destruct (wrong_chain c);
    cbn [bind try_catch set await shown_while_waiting]; [| apply Hload].
  constructor; [reflexivity |].
  destruct (answer _ (wallet_switchEthereumChain target_chain)) as [v | e];
    cbn [bind try_catch set await shown_while_waiting]; [apply Hload |].
  destruct (code_is e 4902);
    cbn [bind try_catch set await shown_while_waiting]; [| apply Hload].
  constructor; [reflexivity |].
  destruct (answer _ (wallet_addEthereumChain _ _ _ _)) as [v | e'];
    cbn [bind try_catch set await shown_while_waiting]; [apply Hload | constructor].
Qed.

(** C1 fails on the two paths that do not go through [connectWallet].  On
    mount, once the fund data has loaded and [eth_accounts] has answered
    ["0xA"], the account is published while its position load is still in
    flight, and the page shows "Wallet Not Whitelisted" for an address that
    is whitelisted.  An [accountsChanged] event does the same. *)
Theorem account_published_before_position_load :
  let w := oracle_of calm_world in
  let on_mount := after true plain_dates [Settle 0 w; Settle 0 w] in
  let on_switch := after true plain_dates [AccountsChanged ["0xB"]] in
  account (ui on_mount) = Some "0xA" /\
  positions_in_flight on_mount = ["0xA"] /\
  isWhitelisted (ui on_mount) = false /\
  not_whitelisted_rendered (ui on_mount) = true /\
  on_position calm_world "0xA" = Resolved investor_position /\
  account (ui on_switch) = Some "0xB" /\
  positions_in_flight on_switch = ["0xB"].
Proof.
  vm_compute. repeat split.
Qed.

(** ** The whitelist flag and the position record *)

Lemma record_present_setters (u : Setter) (s : State) :
  match u with
  | setIsWhitelisted _ | setLpData _ => False
  | _ => True
  end ->
  record_present s -> record_present (apply u s).
Proof.
  unfold record_present. destruct u; cbn; tauto.
Qed.

Ltac task_step :=
  cbn [respects bind try_catch finally await set console_error negb].

Ltac settle_flags :=
  unfold record_present in *; cbn [apply isWhitelisted lpData] in *;
  try tauto; try (intros; discriminate).

Lemma respects_loadLPData (address : string) (s : State) :
  record_present s -> respects record_present (loadLPData address) s.
Proof.
  intros Hs. unfold loadLPData. task_step. split; [exact Hs |].
  intros [r | e] s' Hs'; task_step; [| exact Hs'].
  destruct (ans_whitelist r); task_step; settle_flags.
Qed.

Lemma respects_loadFundData (fmt : float -> string) (s : State) :
  record_present s -> respects record_present (loadFundData fmt) s.
Proof.
  apply (respects_only record_present
           (fun u => match u with
                     | setIsWhitelisted _ | setLpData _ => False
                     | _ => True
                     end) record_present_setters).
  unfold loadFundData.
  apply only_finally; [| cbn; auto]. apply only_try_catch; [| cbn; auto].
  cbn. split; [exact I |]. intros [r | e]; cbn; [| exact I].
  split; [exact I |].
  apply only_bind; [apply only_history_loop | cbn; auto].
Qed.

Lemma respects_disconnectWallet (s : State) :
  respects record_present disconnectWallet s.
Proof.
  unfold disconnectWallet. task_step. settle_flags.
Qed.

Lemma respects_onAccountsChanged (accounts : list string) (s : State) :
  record_present s -> respects record_present (onAccountsChanged accounts) s.
Proof.
  intros Hs. destruct accounts as [| a rest]; [apply respects_disconnectWallet |].
  unfold onAccountsChanged. task_step.
  apply respects_loadLPData. settle_flags.
Qed.

Ltac respect_all :=
  repeat (task_step;
          match goal with
          | |- _ /\ _ => split
          | |- forall _ : Result _, _ =>
              let res := fresh "res" in
              let st := fresh "st" in
              let Hst := fresh "Hst" in
              intros res st Hst; destruct res as [? | ?]
          | |- context [match ?l with [] => _ | _ :: _ => _ end] => destruct l
          | |- context [if ?b then _ else _] => destruct b
          end);
  settle_flags.

Lemma respects_checkConnectedWallet (hasWallet : bool) (s : State) :
  record_present s -> respects record_present (checkConnectedWallet hasWallet) s.
Proof.
  intros Hs. unfold checkConnectedWallet, loadLPData. respect_all.
Qed.

Lemma respects_connectWallet (hasWallet : bool) (s : State) :
  record_present s -> respects record_present (connectWallet hasWallet) s.
Proof.
  intros Hs. unfold connectWallet, ensure_chain, loadLPData. respect_all.
Qed.

Lemma mounted_inv (hasWallet : bool) (fmt : float -> string) :
  sys_inv record_present (mounted hasWallet fmt).
Proof.
  assert (Hfund : sys_inv record_present
            (spawn (loadFundData fmt)
               {| ui := initial; pending := []; console := []; unhandled := [] |})).
  { apply spawn_inv; [constructor |]. apply respects_loadFundData.
    unfold record_present. cbn. discriminate. }
  unfold mounted. destruct Hfund as [Hs Hp].
  apply spawn_inv; [exact Hp |]. apply respects_checkConnectedWallet. exact Hs.
Qed.

(** Every event keeps the flag and the record together. *)
Lemma react_inv (hasWallet : bool) (fmt : float -> string) (sys : Sys) (ev : Event) :
  sys_inv record_present sys ->
  sys_inv record_present (react hasWallet fmt sys ev).
Proof.
  intros [Hs Hp].
  destruct ev as [i answer | | | accounts |]; cbn [react].
  - destruct (nth_error (pending sys) i) as [[R r k] |] eqn:Hi; [| split; assumption].
    apply spawn_inv; cbn [pending ui].
    + apply Forall_remove_nth. exact Hp.
    + assert (Hk : resumable record_present (Susp r k)).
      { rewrite Forall_forall in Hp. apply Hp. eapply nth_error_In. exact Hi. }
      apply Hk. exact Hs.
  - destruct (connect_clickable (ui sys)); [| split; assumption].
    apply spawn_inv; [exact Hp |]. apply respects_connectWallet. exact Hs.
  - destruct (disconnect_clickable (ui sys)); [| split; assumption].
    apply spawn_inv; [exact Hp |]. apply respects_disconnectWallet.
  - destruct hasWallet; [| split; assumption].
    apply spawn_inv; [exact Hp |]. apply respects_onAccountsChanged. exact Hs.
  - destruct hasWallet; [apply mounted_inv | split; assumption].
Qed.

Lemma after_inv (hasWallet : bool) (fmt : float -> string) (evs : list Event) :
  sys_inv record_present (after hasWallet fmt evs).
Proof.
  unfold after.
  assert (Hgen : forall sys, sys_inv record_present sys ->
            sys_inv record_present (fold_left (react hasWallet fmt) evs sys)).
  { induction evs as [| ev evs IH]; intros sys Hsys; cbn; [exact Hsys |].
    apply IH. apply react_inv. exact Hsys. }
  apply Hgen. apply mounted_inv.
Qed.

(** C2, as the code has it.  In every render state (the state left by a
    synchronous run of updates) a true whitelist flag comes with a position
    record, and "Your Investment" is rendered only
    with an account connected, the flag true and the record present.  An
    explicit disconnect, and an [accountsChanged] event with no account,
    clear the account, the flag and the record in the very next state.  A
    position load that returned whitelist=false clears the flag in the very
    next state. *)
Theorem position_record_when_whitelisted (hasWallet : bool) (fmt : float -> string) :
  (forall s, reachable hasWallet fmt s -> isWhitelisted s = true -> lpData s <> None) /\
  (forall s, your_investment_rendered s = true ->
     str_truthy (account s) = true /\ isWhitelisted s = true /\ lpData s <> None) /\
  (forall sys, disconnect_clickable (ui sys) = true ->
     let s' := ui (react hasWallet fmt sys ClickDisconnect) in
     account s' = None /\ isWhitelisted s' = false /\ lpData s' = None) /\
  (forall sys, hasWallet = true ->
     let s' := ui (react hasWallet fmt sys (AccountsChanged [])) in
     account s' = None /\ isWhitelisted s' = false /\ lpData s' = None) /\
  (forall (answer : Oracle) s address r,
     answer _ (lp_queries address) = Resolved r -> ans_whitelist r = false ->
     isWhitelisted (final (exec answer (loadLPData address) s)) = false).
Proof.
  split; [| split; [| split; [| split]]].
  - intros s [evs <-]. exact (proj1 (after_inv hasWallet fmt evs)).
  - intros s H. unfold your_investment_rendered in H.
    destruct (lpData s); [| rewrite andb_false_r in H; discriminate H].
    apply andb_true_iff in H. destruct H as [H _].
    apply andb_true_iff in H. destruct H as [H Hw].
    apply andb_true_iff in H. destruct H as [_ Ha].
    repeat split; auto. discriminate.
  - intros sys Hc. cbn [react]. rewrite Hc. cbn. repeat split.
  - intros sys ->. cbn. repeat split.
  - intros answer s address r Hans Hwl.
    rewrite exec_loadLPData, Hans. cbn [final]. rewrite Hwl. reflexivity.
Qed.

Lemma position_record_when_whitelisted_witness :
  let w := oracle_of calm_world in
  lpData (ui (after true plain_dates [Settle 1 w; Settle 1 w])) <> None.
Proof.
  intros w.
  apply (proj1 (position_record_when_whitelisted true plain_dates)).
  - exists [Settle 1 w; Settle 1 w]. reflexivity.
  - vm_compute. reflexivity.
Defined.

(** The wallet is on the whitelisted ["0xA"], whose position is loaded,
    and then switches to ["0xB"], which is not whitelisted: the position
    record of ["0xA"] is still in the state, with the flag false.  And when
    the user disconnects while the position of ["0xA"] is being fetched,
    the answer arrives after the disconnect and sets the flag and the
    record with no account connected. *)
Lemma stale_position_record :
  let w := oracle_of calm_world in
  let switched := ui (after true plain_dates
                        [Settle 1 w; Settle 1 w; AccountsChanged ["0xB"]; Settle 1 w]) in
  let left := ui (after true plain_dates [Settle 1 w; ClickDisconnect; Settle 1 w]) in
  (account switched = Some "0xB" /\ isWhitelisted switched = false /\
   lpData switched = Some (position_of investor_position)) /\
  (account left = None /\ isWhitelisted left = true /\
   lpData left = Some (position_of investor_position)) /\
  ~ (lpData switched <> None <->
     account switched <> None /\ isWhitelisted switched = true).
Proof.
  vm_compute. repeat split. intros [H _].
  assert (Hf : false = true) by (apply H; discriminate).
  discriminate Hf.
Qed.

(** * Further properties *)

(** ** Chain identifiers *)

Lemma digit_value_digit_char (d : Z) :
  0 <= d < 16 -> Hex.digit_value (Hex.digit_char d) = Some d.
Proof.
  intros Hd.
  assert (H : d = 0 \/ d = 1 \/ d = 2 \/ d = 3 \/ d = 4 \/ d = 5 \/ d = 6 \/ d = 7 \/
              d = 8 \/ d = 9 \/ d = 10 \/ d = 11 \/ d = 12 \/ d = 13 \/ d = 14 \/
              d = 15) by lia.
  repeat (destruct H as [-> | H]; [reflexivity |]). subst d. reflexivity.
Qed.

Lemma read_to_digits (fuel : nat) :
  forall (n : Z) (acc : string) (st : option Z),
  0 <= n < 16 ^ Z.of_nat fuel -> (0 < fuel)%nat ->
  exists k, 0 <= k /\
    Hex.read_digits (Hex.to_digits fuel n acc) st =
    Hex.read_digits acc
      (Some (match st with Some a => a | None => 0 end * 16 ^ k + n)).
Proof.
  induction fuel as [| fuel IH]; intros n acc st Hn Hfuel; [lia |].
  cbn [Hex.to_digits].
  assert (Hmod : 0 <= n mod 16 < 16) by (apply Z.mod_pos_bound; lia).
  destruct (n / 16 =? 0) eqn:Hq.
  - apply Z.eqb_eq in Hq. exists 1. split; [lia |].
    cbn [Hex.read_digits]. rewrite (digit_value_digit_char _ Hmod).
    f_equal. f_equal. pose proof (Z.div_mod n 16). lia.
  - apply Z.eqb_neq in Hq.
    assert (Hdiv : 0 <= n / 16) by (apply Z.div_pos; lia).
    assert (Hfuel' : (0 < fuel)%nat).
    { destruct fuel; [| lia]. cbn in Hn.
      assert (n / 16 = 0) by (apply Z.div_small; lia). lia. }
    assert (Hbound : 0 <= n / 16 < 16 ^ Z.of_nat fuel).
    { split; [exact Hdiv |]. apply Z.div_lt_upper_bound; [lia |].
      replace (16 * 16 ^ Z.of_nat fuel) with (16 ^ Z.of_nat (S fuel)); [lia |].
      rewrite Nat2Z.inj_succ, Z.pow_succ_r; lia. }
    destruct (IH (n / 16) (String (Hex.digit_char (n mod 16)) acc) st Hbound Hfuel')
      as (k & Hk & Hread).
    exists (k + 1). split; [lia |]. rewrite Hread.
    cbn [Hex.read_digits]. rewrite (digit_value_digit_char _ Hmod).
    f_equal. f_equal. rewrite Z.pow_add_r by lia.
    pose proof (Z.div_mod n 16). lia.
Qed.

(** X1.  Writing a non-negative chain id as [0x] followed by
    [toString(16)] and reading it back with [parseInt(_, 16)] gives the
    same number: the chain id the code asks the wallet to switch to is one
    the code itself recognises as the target chain. *)
Theorem chain_id_round_trip (n : Z) :
  0 <= n ->
  Hex.parseInt16 ("0x" ++ Hex.toString16 n) = Some n /\
  (n = CONFIG.chainId -> wrong_chain ("0x" ++ Hex.toString16 n) = false).
Proof.
  intros Hn.
  assert (Hround : Hex.parseInt16 ("0x" ++ Hex.toString16 n) = Some n).
  { unfold Hex.toString16.
    assert (Hfuel : 0 <= n < 16 ^ Z.of_nat (S (Z.to_nat (Z.log2 n)))).
    { split; [exact Hn |].
      rewrite Nat2Z.inj_succ, Z2Nat.id by apply Z.log2_nonneg.
      destruct (Z.eq_dec n 0) as [-> | Hnz]; [cbn; lia |].
      assert (Hlog : n < 2 ^ Z.succ (Z.log2 n)) by (apply Z.log2_spec; lia).
      assert (Hpow : 2 ^ Z.succ (Z.log2 n) <= 16 ^ Z.succ (Z.log2 n)).
      { apply Z.pow_le_mono_l. lia. }
      lia. }
    destruct (read_to_digits _ n EmptyString None Hfuel ltac:(lia)) as (k & _ & Hread).
    change (Hex.parseInt16
              ("0x" ++ Hex.to_digits (S (Z.to_nat (Z.log2 n))) n EmptyString))
      with (Hex.read_digits
              (Hex.to_digits (S (Z.to_nat (Z.log2 n))) n EmptyString) None).
    rewrite Hread. cbn. reflexivity. }
  split; [exact Hround |].
  intros ->. unfold wrong_chain. rewrite Hround. reflexivity.
Qed.

Lemma chain_id_round_trip_witness :
  Hex.parseInt16 ("0x" ++ Hex.toString16 8453) = Some 8453.
Proof.
  exact (proj1 (chain_id_round_trip 8453 ltac:(lia))).
Defined.

(** ** Short addresses *)

Lemma length_append (s t : string) :
  String.length (s ++ t) = (String.length s + String.length t)%nat.
Proof.
  induction s as [| c s IH]; cbn; [reflexivity |]. rewrite IH. reflexivity.
Qed.

Lemma substring_all (s : string) : substring 0 (String.length s) s = s.
Proof.
  induction s as [| c s IH]; cbn; [reflexivity |]. rewrite IH. reflexivity.
Qed.

Lemma length_substring_0 (n : nat) :
  forall s, String.length (substring 0 n s) = Nat.min n (String.length s).
Proof.
  induction n as [| n IH]; intros [| c s]; cbn; auto.
Qed.

(** A string cut at two positions. *)
Lemma substring_split3 (s : string) :
  forall i j, (i <= j)%nat -> (j <= String.length s)%nat ->
  s = substring 0 i s ++ substring i (j - i) s ++ substring j (String.length s - j) s.
Proof.
  induction s as [| c s IH]; intros i j Hij Hj.
  - cbn in Hj. assert (j = 0)%nat by lia. subst j.
    assert (i = 0)%nat by lia. subst i. reflexivity.
  - destruct i as [| i].
    + destruct j as [| j].
      * cbn [substring Nat.sub String.length append].
        rewrite substring_all. reflexivity.
      * cbn in Hj.
        pose proof (IH 0%nat j ltac:(lia) ltac:(lia)) as H.
        rewrite Nat.sub_0_r in *.
        cbn [substring Nat.sub String.length append] in *.
        assert (H0 : substring 0 0 s = EmptyString) by (destruct s; reflexivity).
        rewrite H0 in H. cbn [append] in H. rewrite <- H. reflexivity.
    + destruct j as [| j]; [lia |]. cbn in Hj.
      pose proof (IH i j ltac:(lia) ltac:(lia)) as H.
      cbn [substring Nat.sub String.length append]. rewrite <- H. reflexivity.
Qed.

(** X2.  An address of at least ten characters is shortened to its first
    six characters, three dots and its last four characters, thirteen
    characters in all; a missing or empty address gives the empty
    string. *)
Theorem shortenAddress_keeps_both_ends (a : string) :
  (10 <= String.length a)%nat ->
  exists first middle last,
    a = first ++ middle ++ last /\
    String.length first = 6%nat /\
    String.length last = 4%nat /\
    shortenAddress (Some a) = first ++ "..." ++ last /\
    String.length (shortenAddress (Some a)) = 13%nat /\
    shortenAddress None = EmptyString /\
    shortenAddress (Some EmptyString) = EmptyString.
Proof.
  intros Hlen.
  exists (substring 0 6 a), (substring 6 (String.length a - 4 - 6) a),
         (substring (String.length a - 4) 4 a).
  assert (Hsplit := substring_split3 a 6 (String.length a - 4) ltac:(lia) ltac:(lia)).
  replace (String.length a - (String.length a - 4))%nat with 4%nat in Hsplit by lia.
  assert (Hfirst : String.length (substring 0 6 a) = 6%nat).
  { rewrite length_substring_0. lia. }
  assert (Hlast : String.length (substring (String.length a - 4) 4 a) = 4%nat).
  { pose proof (f_equal String.length Hsplit) as H.
    rewrite !length_append, Hfirst in H.
    assert (Hmid : (String.length (substring 6 (String.length a - 4 - 6) a)
                    <= String.length a - 4 - 6)%nat).
    { clear. generalize (String.length a - 4 - 6)%nat. generalize 6%nat.
      induction a as [| c a IH]; intros i n.
      - destruct i, n; cbn; lia.
      - destruct i as [| i].
        + destruct n as [| n]; cbn; [lia |].
          specialize (IH 0%nat n). lia.
        + cbn. apply IH. }
    assert (Hend : (String.length (substring (String.length a - 4) 4 a) <= 4)%nat).
    { clear. generalize (String.length a - 4)%nat. generalize 4%nat.
      intros n i. revert i n.
      induction a as [| c a IH]; intros i n.
      - destruct i, n; cbn; lia.
      - destruct i as [| i].
        + destruct n as [| n]; cbn; [lia |].
          specialize (IH 0%nat n). lia.
        + cbn. apply IH. }
    lia. }
  assert (Hshort : shortenAddress (Some a)
                   = substring 0 6 a ++ "..." ++ substring (String.length a - 4) 4 a).
  { unfold shortenAddress, slice_first, slice_last.
    destruct (String.eqb_spec a EmptyString) as [-> | _]; [cbn in Hlen; lia |].
    reflexivity. }
  split; [exact Hsplit |]. split; [exact Hfirst |]. split; [exact Hlast |].
  split; [exact Hshort |]. split; [| split; reflexivity].
  rewrite Hshort, !length_append, Hfirst, Hlast. reflexivity.
Qed.

Lemma shortenAddress_keeps_both_ends_witness :
  String.length (shortenAddress (Some CONFIG.contractAddress)) = 13%nat.
Proof.
  destruct (shortenAddress_keeps_both_ends CONFIG.contractAddress ltac:(cbn; lia))
    as (first & middle & last & _ & _ & _ & _ & Hlen & _).
  exact Hlen.
Defined.

(** ** Amounts *)

Lemma some_eq (A : Type) (a b : A) : Some a = Some b -> a = b.
Proof.
  intros H. injection H as H. exact H.
Qed.

Ltac fractions :=
  unfold Qle, Qlt, inject_Z, Qnum, Qden; cbv beta iota.

(** [x >= c] on numbers is the comparison of their values: here for a
    positive constant [c] written with 53 significant bits as
    [mc * 2^-k]. *)
Lemma fge_threshold (x : float) (q : Q) (c : Z) (k mc : positive) :
  Z.pos mc = c * 2 ^ Z.pos k ->
  2 ^ 52 <= Z.pos mc < 2 ^ 53 ->
  Z.pos k <= 1074 ->
  valid_binary prec emax x = true ->
  to_Q x = Some q ->
  fge x (S754_finite false mc (Z.neg k)) = true <-> (inject_Z c <= q)%Q.
Proof.
  intros Hmc Hbits Hk Hvalid Hq.
  assert (HP : 0 < 2 ^ Z.pos k) by (apply Z.pow_pos_nonneg; lia).
  assert (Hc : 0 < c) by nia.
  change (2 ^ 52) with 4503599627370496 in Hbits.
  change (2 ^ 53) with 9007199254740992 in Hbits.
  destruct x as [s | s | | s m e]; try discriminate Hq.
  - injection Hq as <-. unfold fge, SFleb. cbn [SFcompare].
    split; [discriminate |]. fractions. lia.
  - destruct s.
    { (* a negative number *)
      unfold fge, SFleb. cbn [SFcompare]. split; [discriminate |].
      unfold to_Q in Hq. cbv beta iota zeta in Hq.
      apply some_eq in Hq. subst q. intros Hle. exfalso. revert Hle.
      destruct e as [| j | j]; fractions.
      - change (2 ^ 0) with 1. lia.
      - assert (0 < 2 ^ Z.pos j) by (apply Z.pow_pos_nonneg; lia). nia.
      - lia. }
    cbn [valid_binary] in Hvalid. unfold bounded, canonical_mantissa in Hvalid.
    apply andb_true_iff in Hvalid. destruct Hvalid as [Hcanon _].
    apply Z.eqb_eq in Hcanon. unfold fexp, emin, prec, emax in Hcanon.
    pose proof (digits2_pos_bounds m) as [Blo Bhi].
    set (dm := Z.pos (digits2_pos m)) in *.
    assert (Hm53 : Z.pos m < 9007199254740992).
    { assert (2 ^ dm <= 2 ^ 53) by (apply Z.pow_le_mono_r; lia).
      change (2 ^ 53) with 9007199254740992 in *. lia. }
    assert (Hnormal : -1074 < e -> 4503599627370496 <= Z.pos m).
    { intros He. replace (dm - 1) with 52 in Blo by lia.
      change (2 ^ 52) with 4503599627370496 in Blo. exact Blo. }
    unfold fge, SFleb. cbn [SFcompare].
    unfold to_Q in Hq. cbv beta iota zeta in Hq. apply some_eq in Hq. subst q.
    destruct (Z.neg k ?= e) eqn:Hcmp.
    + (* same exponent: the mantissas decide *)
      apply Z.compare_eq in Hcmp. subst e.
      fractions. rewrite Pos2Z.inj_pow.
      rewrite Pos.compare_cont_spec. cbn [Pos.switch_Eq].
      destruct (mc ?= m)%positive eqn:Hmm.
      * apply Pos.compare_eq in Hmm. subst m. split; [lia | reflexivity].
      * rewrite Pos.compare_lt_iff in Hmm. split; [lia | reflexivity].
      * rewrite Pos.compare_gt_iff in Hmm. split; [discriminate | lia].
    + (* [x] has the larger exponent *)
      rewrite Z.compare_lt_iff in Hcmp. split; [intros _ | reflexivity].
      specialize (Hnormal ltac:(lia)).
      assert (Hhalf : 2 * c <= c * 2 ^ Z.pos k).
      { replace (Z.pos k) with (1 + (Z.pos k - 1)) by lia.
        rewrite Z.pow_add_r by lia. change (2 ^ 1) with 2.
        assert (0 < 2 ^ (Z.pos k - 1)) by (apply Z.pow_pos_nonneg; lia). nia. }
      destruct e as [| j | j]; fractions.
      * change (2 ^ 0) with 1. lia.
      * assert (0 < 2 ^ Z.pos j) by (apply Z.pow_pos_nonneg; lia). nia.
      * rewrite Pos2Z.inj_pow.
        assert (Hsplit : 2 ^ Z.pos k = 2 ^ Z.pos j * 2 ^ (Z.pos k - Z.pos j)).
        { rewrite <- Z.pow_add_r by lia. f_equal. lia. }
        assert (2 <= 2 ^ (Z.pos k - Z.pos j)).
        { change 2 with (2 ^ 1) at 1. apply Z.pow_le_mono_r; lia. }
        assert (0 < 2 ^ Z.pos j) by (apply Z.pow_pos_nonneg; lia).
        assert (0 < c * 2 ^ Z.pos j) by nia.
        assert (2 * (c * 2 ^ Z.pos j) <= Z.pos mc).
        { rewrite Hmc, Hsplit.
          replace (c * (2 ^ Z.pos j * 2 ^ (Z.pos k - Z.pos j)))
            with (c * 2 ^ Z.pos j * 2 ^ (Z.pos k - Z.pos j)) by ring.
          rewrite (Z.mul_comm 2). apply Z.mul_le_mono_nonneg_l; lia. }
        lia.
    + (* [x] has the smaller exponent *)
      rewrite Z.compare_gt_iff in Hcmp. split; [discriminate |].
      destruct e as [| j | j]; try lia.
      fractions. rewrite Pos2Z.inj_pow.
      intros Hle. exfalso.
      assert (Hsplit : 2 ^ Z.pos j = 2 ^ Z.pos k * 2 ^ (Z.pos j - Z.pos k)).
      { rewrite <- Z.pow_add_r by lia. f_equal. lia. }
      assert (2 <= 2 ^ (Z.pos j - Z.pos k)).
      { change 2 with (2 ^ 1) at 1. apply Z.pow_le_mono_r; lia. }
      assert (Z.pos mc * 2 <= c * 2 ^ Z.pos j).
      { rewrite Hsplit, Hmc.
        replace (c * (2 ^ Z.pos k * 2 ^ (Z.pos j - Z.pos k)))
          with (c * 2 ^ Z.pos k * 2 ^ (Z.pos j - Z.pos k)) by ring.
        apply Z.mul_le_mono_nonneg_l; lia. }
      lia.
Qed.

(** X3.  [formatUSD] abbreviates by the value of the amount: below 1000,
    negative amounts and zero included, it writes the amount in full with
    two decimals after the dollar sign; from 1000 up to one million it
    writes the amount divided by 1000 followed by K; from one million up it
    writes the amount divided by one million followed by M.  A negative
    amount reads "$-..." whatever its size, NaN reads "$NaN" and a missing
    amount reads "-". *)
Theorem formatUSD_abbreviates_from_1000 (x : float) (q : Q) :
  valid_binary prec emax x = true ->
  to_Q x = Some q ->
  ((q < inject_Z 1000)%Q ->
   formatUSD (Some x) = "$" ++ formatNumber (Some x) 2) /\
  ((inject_Z 1000 <= q)%Q -> (q < inject_Z 1000000)%Q ->
   formatUSD (Some x) = "$" ++ formatNumber (Some (fdiv x (Number 1000))) 2 ++ "K") /\
  ((inject_Z 1000000 <= q)%Q ->
   formatUSD (Some x) = "$" ++ formatNumber (Some (fdiv x (Number 1000000))) 2 ++ "M") /\
  ((q < 0)%Q -> exists rest, formatUSD (Some x) = "$-" ++ rest) /\
  formatUSD (Some S754_nan) = "$NaN" /\
  formatUSD None = "-".
Proof.
  intros Hvalid Hq.
  assert (Hk : Number 1000 = S754_finite false 8796093022208000 (-43))
    by (vm_compute; reflexivity).
  assert (Hm : Number 1000000 = S754_finite false 8589934592000000 (-33))
    by (vm_compute; reflexivity).
  pose proof (fge_threshold x q 1000 43 8796093022208000 eq_refl
                ltac:(split; [discriminate | reflexivity]) ltac:(discriminate) Hvalid Hq)
    as Hthousand.
  pose proof (fge_threshold x q 1000000 33 8589934592000000 eq_refl
                ltac:(split; [discriminate | reflexivity]) ltac:(discriminate) Hvalid Hq)
    as Hmillion.
  rewrite <- Hk in Hthousand. rewrite <- Hm in Hmillion.
  assert (Hbelow : (q < inject_Z 1000)%Q ->
                   formatUSD (Some x) = "$" ++ formatNumber (Some x) 2).
  { intros Hlt. unfold formatUSD.
    destruct (fge x (Number 1000000)) eqn:H6.
    - exfalso. apply (Qlt_not_le _ _ Hlt).
      apply Qle_trans with (inject_Z 1000000); [| apply Hmillion; reflexivity].
      fractions. lia.
    - destruct (fge x (Number 1000)) eqn:H3; [| reflexivity].
      exfalso. apply (Qlt_not_le _ _ Hlt). apply Hthousand. reflexivity. }
  split; [exact Hbelow |]. split.
  { intros Hge Hlt. unfold formatUSD.
    destruct (fge x (Number 1000000)) eqn:H6.
    - exfalso. apply (Qlt_not_le _ _ Hlt). apply Hmillion. reflexivity.
    - apply Hthousand in Hge. rewrite Hge. reflexivity. }
  split.
  { intros Hge. unfold formatUSD. apply Hmillion in Hge. rewrite Hge. reflexivity. }
  split; [| split; reflexivity].
  intros Hneg. rewrite Hbelow.
  - destruct x as [s | s | | s m e]; try discriminate Hq.
    + injection Hq as <-. exfalso. revert Hneg. fractions. lia.
    + destruct s.
      * cbn [formatNumber intl_format]. destruct (shortest_decimal m e) as [ds p].
        eexists. cbn [fixed append]. reflexivity.
      * exfalso. unfold to_Q in Hq. cbv beta iota zeta in Hq.
        apply some_eq in Hq. subst q. revert Hneg.
        destruct e as [| j | j]; fractions;
          [change (2 ^ 0) with 1; lia | | lia].
        assert (0 < 2 ^ Z.pos j) by (apply Z.pow_pos_nonneg; lia). nia.
  - apply Qlt_trans with 0%Q; [exact Hneg | reflexivity].
Qed.

Lemma formatUSD_abbreviates_from_1000_witness :
  formatUSD (Some (Number 999)) = "$999.00" /\
  formatUSD (Some (Number 2500)) = "$2.50K" /\
  formatUSD (Some (Number 2500000)) = "$2.50M" /\
  formatUSD (Some (Number (-2500000))) = "$-2,500,000.00".
Proof.
  destruct (formatUSD_abbreviates_from_1000 (Number 999) _ eq_refl eq_refl)
    as (Hfull & _).
  destruct (formatUSD_abbreviates_from_1000 (Number 2500) _ eq_refl eq_refl)
    as (_ & Hk & _).
  destruct (formatUSD_abbreviates_from_1000 (Number 2500000) _ eq_refl eq_refl)
    as (_ & _ & Hm & _).
  destruct (formatUSD_abbreviates_from_1000 (Number (-2500000)) _ eq_refl eq_refl)
    as (Hneg & _).
  split; [rewrite Hfull by reflexivity; vm_compute; reflexivity |].
  split; [rewrite Hk by (vm_compute; first [reflexivity | discriminate]);
          vm_compute; reflexivity |].
  split; [rewrite Hm by (vm_compute; discriminate); vm_compute; reflexivity |].
  rewrite Hneg by reflexivity. vm_compute. reflexivity.
Defined.

(** ** Panels *)

(** X4.  Below the cards at most one of the three wallet panels is
    rendered.  None of them is rendered exactly while the page is loading,
    or when an account is connected and whitelisted but has no position
    record or no share above zero: such an investor sees neither "Your
    Investment" nor any notice. *)
Theorem wallet_panels_exclusive (s : State) :
  (connect_prompt_rendered s = true ->
   not_whitelisted_rendered s = false /\ your_investment_rendered s = false) /\
  (not_whitelisted_rendered s = true ->
   connect_prompt_rendered s = false /\ your_investment_rendered s = false) /\
  (your_investment_rendered s = true ->
   connect_prompt_rendered s = false /\ not_whitelisted_rendered s = false) /\
  (connect_prompt_rendered s = false /\ not_whitelisted_rendered s = false /\
   your_investment_rendered s = false <->
   loading s = true \/
   (str_truthy (account s) = true /\ isWhitelisted s = true /\
    match lpData s with
    | Some d => fgt (shares d) (Number 0) = false
    | None => True
    end)).
Proof.
  unfold connect_prompt_rendered, not_whitelisted_rendered, your_investment_rendered.
  destruct (loading s), (str_truthy (account s)), (isWhitelisted s);
    cbn [negb andb];
    (destruct (lpData s) as [d |]; [destruct (fgt (shares d) (Number 0)) |]);
    repeat split; intros; try discriminate; try tauto; try reflexivity;
    intuition discriminate.
Qed.

Lemma wallet_panels_exclusive_witness :
  let s := apply (setLoading false)
             (apply (setIsWhitelisted true) (apply (setAccount (Some "0xA")) initial)) in
  connect_prompt_rendered s = false /\ not_whitelisted_rendered s = false /\
  your_investment_rendered s = false.
Proof.
  intros s.
  apply (proj2 (proj2 (proj2 (proj2 (wallet_panels_exclusive s))))).
  right. repeat split.
Defined.

(** ** The requests of a connect *)

Lemma ensure_chain_rejects (answer : Oracle) (c : string) (s : State) (e : JsError) :
  returned (exec answer (ensure_chain c) s) = Rejected e ->
  wrong_chain c = true /\
  answer _ registration_request = Rejected e /\
  exists e0, answer _ switch_request = Rejected e0 /\ code_is e0 4902 = true.
Proof.
  unfold ensure_chain, switch_request, registration_request.
  destruct (wrong_chain c); [| discriminate]. exec_step.
  destruct (answer _ (wallet_switchEthereumChain target_chain)) as [v | e0];
    exec_step; [discriminate |].
  destruct (code_is e0 4902) eqn:Hcode; [| discriminate]. exec_step.
  destruct (answer _ (wallet_addEthereumChain _ _ _ _)) as [v | e1];
    exec_step; [discriminate |].
  intros H. injection H as <-. split; [reflexivity |]. split; [reflexivity |].
  exists e0. split; [reflexivity | exact Hcode].
Qed.

(** X5.  On the target chain a connect makes exactly three requests, the
    account list, the chain id and one position load for the first
    account, with no switch request, and ends Connected to that account
    with [isConnecting] cleared and no error. *)
Theorem connect_on_target_chain (answer : Oracle) (s : State)
  (a : string) (rest : list string) (c : string) :
  answer _ eth_requestAccounts = Resolved (a :: rest) ->
  answer _ eth_chainId = Resolved c ->
  wrong_chain c = false ->
  requests answer (connectWallet true) =
    [asked eth_requestAccounts; asked eth_chainId; asked (lp_queries a)] /\
  let done := exec answer (connectWallet true) s in
  connection (final done) = Connected a /\
  isConnecting (final done) = false /\
  error (final done) = None.
Proof.
  intros Hacc Hchain Hright. split.
  - rewrite requests_connectWallet, Hacc, Hchain, Hright. reflexivity.
  - cbn zeta. rewrite (exec_connectWallet_granted answer s a rest c Hacc Hchain).
    cbn zeta. unfold ensure_chain. rewrite Hright. exec_step.
    destruct (loadLPData_frame answer a
                (apply (setError None) (apply (setIsConnecting true) s)))
      as (_ & _ & _ & _ & Herr & _).
    split; [reflexivity |]. split; [reflexivity |].
    cbn [error apply]. cbn [error apply] in Herr. exact Herr.
Qed.

Lemma connect_on_target_chain_witness :
  requests (oracle_of calm_world) (connectWallet true) =
    [asked eth_requestAccounts; asked eth_chainId; asked (lp_queries "0xA")].
Proof.
  exact (proj1 (connect_on_target_chain (oracle_of calm_world) initial
                  "0xA" [] "0x14a34" eq_refl eq_refl eq_refl)).
Defined.

(** X6.  What a connect asks of the wallet is guarded: it asks for a
    switch only after the wallet reported another chain, it asks to
    register the chain only after a switch failed with code 4902, and it
    loads the position of no address but the first account granted, at most
    once.  Without a wallet it makes no request at all. *)
Theorem connect_requests_are_guarded (answer : Oracle) :
  let made := requests answer (connectWallet true) in
  (forall q, In q made -> asks_switch q = true ->
     exists c, answer _ eth_chainId = Resolved c /\ wrong_chain c = true) /\
  (forall q, In q made -> asks_registration q = true ->
     exists e, answer _ switch_request = Rejected e /\ code_is e 4902 = true) /\
  (forall q address, In q made -> asks_position q = Some address ->
     exists rest, answer _ eth_requestAccounts = Resolved (address :: rest)) /\
  (List.length (filter (fun q => match asks_position q with
                                 | Some _ => true
                                 | None => false
                                 end) made) <= 1)%nat /\
  requests answer (connectWallet false) = [].
Proof.
  cbn zeta. rewrite requests_connectWallet.
  destruct (answer _ eth_requestAccounts) as [[| a rest] | e0] eqn:Hacc.
  1, 3: repeat split; try (cbn; lia);
        intros q; intros; cbn in *; intuition (subst; discriminate).
  destruct (answer _ eth_chainId) as [c | e0] eqn:Hchain.
  2: repeat split; try (cbn; lia);
     intros q; intros; cbn in *; intuition (subst; discriminate).
  destruct (wrong_chain c) eqn:Hwrong.
  2: { repeat split; try (cbn; lia).
       - intros q Hq Hs. cbn in Hq. intuition (subst; discriminate).
       - intros q Hq Hs. cbn in Hq. intuition (subst; discriminate).
       - intros q address Hq Hp. cbn in Hq.
         destruct Hq as [<- | [<- | [<- | []]]]; try discriminate.
         injection Hp as <-. exists rest. reflexivity. }
  destruct (answer _ switch_request) as [v | e] eqn:Hswitch.
  { repeat split; try (cbn; lia).
    - intros q Hq Hs. exists c. split; [reflexivity | exact Hwrong].
    - intros q Hq Hs. cbn in Hq.
      destruct Hq as [<- | [<- | [<- | [<- | []]]]]; discriminate.
    - intros q address Hq Hp. cbn in Hq.
      destruct Hq as [<- | [<- | [<- | [<- | []]]]]; try discriminate.
      injection Hp as <-. exists rest. reflexivity. }
  destruct (code_is e 4902) eqn:Hcode.
  2: { repeat split; try (cbn; lia).
       - intros q Hq Hs. exists c. split; [reflexivity | exact Hwrong].
       - intros q Hq Hs. cbn in Hq.
         destruct Hq as [<- | [<- | [<- | [<- | []]]]]; discriminate.
       - intros q address Hq Hp. cbn in Hq.
         destruct Hq as [<- | [<- | [<- | [<- | []]]]]; try discriminate.
         injection Hp as <-. exists rest. reflexivity. }
  destruct (answer _ registration_request) as [v | e1] eqn:Hadd.
  - repeat split; try (cbn; lia).
    + intros q Hq Hs. exists c. split; [reflexivity | exact Hwrong].
    + intros q Hq Hs. exists e. split; [reflexivity | exact Hcode].
    + intros q address Hq Hp. cbn in Hq.
      destruct Hq as [<- | [<- | [<- | [<- | [<- | []]]]]]; try discriminate.
      injection Hp as <-. exists rest. reflexivity.
  - repeat split; try (cbn; lia).
    + intros q Hq Hs. exists c. split; [reflexivity | exact Hwrong].
    + intros q Hq Hs. exists e. split; [reflexivity | exact Hcode].
    + intros q address Hq Hp. cbn in Hq.
      destruct Hq as [<- | [<- | [<- | [<- | []]]]]; discriminate.
Qed.

Lemma connect_requests_are_guarded_witness :
  exists e, oracle_of unknown_chain_world _ switch_request = Rejected e /\
            code_is e 4902 = true.
Proof.
  destruct (connect_requests_are_guarded (oracle_of unknown_chain_world))
    as (_ & Hreg & _).
  apply (Hreg (asked registration_request)); [| reflexivity].
  vm_compute. auto.
Defined.

(** ** How a connect ends *)

(** X7.  When the wallet denies access, or when the chain id request
    fails after access was granted, [connectWallet] goes back to not
    connecting with the message of the failure, leaves the account, the
    whitelist flag and the position record as they were, and never starts a
    position load. *)
Theorem connect_denied (answer : Oracle) (s : State) (e : JsError) :
  answer _ eth_requestAccounts = Rejected e \/
  (exists a rest, answer _ eth_requestAccounts = Resolved (a :: rest) /\
                  answer _ eth_chainId = Rejected e) ->
  let done := exec answer (connectWallet true) s in
  returned done = Resolved tt /\
  final done =
    apply (setIsConnecting false)
      (apply (setError (Some (message e)))
         (apply (setError None) (apply (setIsConnecting true) s))) /\
  isConnecting (final done) = false /\
  error (final done) = Some (message e) /\
  account (final done) = account s /\
  isWhitelisted (final done) = isWhitelisted s /\
  lpData (final done) = lpData s /\
  (forall q, In q (requests answer (connectWallet true)) -> asks_position q = None).
Proof.
  intros Hfail. cbn zeta.
  assert (Hdone : exec answer (connectWallet true) s =
            {| final := apply (setIsConnecting false)
                          (apply (setError (Some (message e)))
                             (apply (setError None) (apply (setIsConnecting true) s)));
               printed := [];
               returned := Resolved tt |}).
  { unfold connectWallet. cbn [negb]. exec_step.
    destruct Hfail as [Hacc | (a & rest & Hacc & Hchain)]; rewrite Hacc; exec_step;
      [reflexivity |].
    rewrite Hchain. reflexivity. }
  rewrite Hdone. cbn [final returned].
  repeat (split; [reflexivity |]).
  intros q Hq. rewrite requests_connectWallet in Hq.
  destruct Hfail as [Hacc | (a & rest & Hacc & Hchain)]; rewrite Hacc in Hq.
  - cbn in Hq. destruct Hq as [<- | []]. reflexivity.
  - rewrite Hchain in Hq. cbn in Hq. destruct Hq as [<- | [<- | []]]; reflexivity.
Qed.

Lemma connect_denied_witness :
  error (final (exec (oracle_of denying_world) (connectWallet true) initial))
    = Some "User rejected the request." /\
  connection (final (exec (oracle_of denying_world) (connectWallet true) initial))
    = Disconnected.
Proof.
  destruct (connect_denied (oracle_of denying_world) initial user_rejected
              (or_introl eq_refl)) as (_ & Hfinal & _ & Herr & _).
  split; [exact Herr |]. rewrite Hfinal. reflexivity.
Defined.

Lemma empty_connect (answer : Oracle) (s : State) :
  answer _ eth_requestAccounts = Resolved [] ->
  exec answer (connectWallet true) s =
    {| final := apply (setError None) (apply (setIsConnecting true) s);
       printed := [];
       returned := Resolved tt |} /\
  requests answer (connectWallet true) = [asked eth_requestAccounts].
Proof.
  intros Hacc. split.
  - unfold connectWallet. cbn [negb]. exec_step. rewrite Hacc. reflexivity.
  - rewrite requests_connectWallet, Hacc. reflexivity.
Qed.

(** X8.  However a connect ends, its own promise resolves; [isConnecting]
    is left true only by an empty account list; the account is either left
    as it was or set to the first account the wallet granted; the error is
    either cleared or the message of a failed wallet request (account
    access, chain id or chain registration); and the fund data, the history
    and [loading] are not touched. *)
Theorem connect_outcomes (answer : Oracle) (s : State) :
  let done := exec answer (connectWallet true) s in
  returned done = Resolved tt /\
  (isConnecting (final done) = true <-> answer _ eth_requestAccounts = Resolved []) /\
  (account (final done) = account s \/
   exists a rest, answer _ eth_requestAccounts = Resolved (a :: rest) /\
                  account (final done) = Some a) /\
  (error (final done) = None \/
   exists e, error (final done) = Some (message e) /\
             (answer _ eth_requestAccounts = Rejected e \/
              answer _ eth_chainId = Rejected e \/
              answer _ registration_request = Rejected e)) /\
  fundData (final done) = fundData s /\
  navHistory (final done) = navHistory s /\
  loading (final done) = loading s.
Proof.
  cbn zeta.
  destruct (answer _ eth_requestAccounts) as [[| a rest] | e] eqn:Hacc.
  - destruct (empty_connect answer s Hacc) as [Hdone _]. rewrite Hdone.
    cbn [final returned]. split; [reflexivity |]. split; [split; reflexivity |].
    split; [left; reflexivity |]. split; [left; reflexivity |].
    repeat split.
  - destruct (answer _ eth_chainId) as [c | e] eqn:Hchain.
    + rewrite (exec_connectWallet_granted answer s a rest c Hacc Hchain). cbn zeta.
      destruct (loadLPData_frame answer a
                  (apply (setError None) (apply (setIsConnecting true) s)))
        as (_ & _ & Hfund & Hhist & Herr & Hload).
      destruct (returned (exec answer (ensure_chain c)
                            (apply (setError None) (apply (setIsConnecting true) s))))
        as [v | e] eqn:Hnet; cbn [final returned].
      * split; [reflexivity |]. split; [split; discriminate |].
        split; [right; exists a, rest; split; reflexivity |].
        split; [left; exact Herr |].
        split; [exact Hfund |]. split; [exact Hhist | exact Hload].
      * apply ensure_chain_rejects in Hnet. destruct Hnet as (_ & Hadd & _).
        split; [reflexivity |]. split; [split; discriminate |].
        split; [left; reflexivity |].
        split; [right; exists e; split; [reflexivity | right; right; exact Hadd] |].
        repeat split.
    + destruct (connect_denied answer s e
                  (or_intror (ex_intro _ a (ex_intro _ rest (conj Hacc Hchain)))))
        as (Hret & Hfinal & _).
      rewrite Hret, Hfinal. split; [reflexivity |]. split; [split; discriminate |].
      split; [left; reflexivity |].
      split; [right; exists e; split; [reflexivity | right; left; reflexivity] |].
      repeat split.
  - destruct (connect_denied answer s e (or_introl Hacc)) as (Hret & Hfinal & _).
    rewrite Hret, Hfinal. split; [reflexivity |]. split; [split; discriminate |].
    split; [left; reflexivity |].
    split; [right; exists e; split; [reflexivity | left; reflexivity] |].
    repeat split.
Qed.

(** ** Requests of composed tasks *)

Section Requests.

Variable answer : Oracle.

Lemma requests_bind (A B : Type) (t : Task A) (f : A -> Task B) (s : State) :
  requests answer (bind t f) =
  (requests answer t ++
   match returned (exec answer t s) with
   | Resolved a => requests answer (f a)
   | Rejected _ => []
   end)%list.
Proof.
  revert s. induction t as [a | e | u k IH | m k IH | R r k IH]; intros s; cbn.
  - reflexivity.
  - reflexivity.
  - apply IH.
  - apply IH.
  - f_equal. apply IH.
Qed.

Lemma requests_try_catch (A : Type) (t : Task A) (h : JsError -> Task A) (s : State) :
  requests answer (try_catch t h) =
  (requests answer t ++
   match returned (exec answer t s) with
   | Resolved _ => []
   | Rejected e => requests answer (h e)
   end)%list.
Proof.
  revert s. induction t as [a | e | u k IH | m k IH | R r k IH]; intros s; cbn.
  - reflexivity.
  - reflexivity.
  - apply IH.
  - apply IH.
  - f_equal. apply IH.
Qed.

Lemma requests_finally (A : Type) (t : Task A) (f : Task unit) :
  requests answer (finally t f) = (requests answer t ++ requests answer f)%list.
Proof.
  induction t as [a | e | u k IH | m k IH | R r k IH]; cbn.
  - rewrite (requests_bind _ _ f _ initial).
    destruct (returned (exec answer f initial)); cbn; rewrite app_nil_r; reflexivity.
  - rewrite (requests_bind _ _ f _ initial).
    destruct (returned (exec answer f initial)); cbn; rewrite app_nil_r; reflexivity.
  - apply IH.
  - apply IH.
  - f_equal. apply IH.
Qed.

Variable fmt : float -> string.

(** The loop when every index answers. *)
Lemma history_loop_all (records : Z -> NavRecord) (n : nat) :
  forall (i : Z) (history : list NavPoint) (s : State),
  (forall k, (k < n)%nat ->
     answer _ (contract_navHistory (i + Z.of_nat k)) = Resolved (records (i + Z.of_nat k))) ->
  exec answer (history_loop fmt n i history) s =
    {| final := s; printed := [];
       returned := Resolved (history ++
                     map (fun k => point_of fmt (records (i + Z.of_nat k))) (seq 0 n))%list |}
  /\
  requests answer (history_loop fmt n i history) =
    map (fun k => asked (contract_navHistory (i + Z.of_nat k))) (seq 0 n).
Proof.
  induction n as [| n IH]; intros i history s Hall.
  - cbn. rewrite app_nil_r. split; reflexivity.
  - cbn [history_loop]. exec_step. cbn [requests bind await].
    pose proof (Hall 0%nat ltac:(lia)) as H0. rewrite Z.add_0_r in H0. rewrite H0.
    exec_step. cbn [bind requests].
    destruct (IH (i + 1) (history ++ [point_of fmt (records i)])%list s) as [Hexec Hreq].
    { intros k Hk. specialize (Hall (S k) ltac:(lia)).
      replace (i + 1 + Z.of_nat k) with (i + Z.of_nat (S k)) by lia. exact Hall. }
    rewrite Hexec, Hreq. cbn [seq map]. rewrite Z.add_0_r.
    rewrite <- seq_shift, !map_map, <- app_assoc. cbn [app].
    split.
    + f_equal. f_equal. f_equal. f_equal. apply map_ext. intros k. f_equal. f_equal. lia.
    + f_equal. apply map_ext. intros k. f_equal. f_equal. lia.
Qed.

(** The loop when index [i + j] is the first that fails. *)
Lemma history_loop_fails (records : Z -> NavRecord) (e : JsError) (j : nat) :
  forall (n : nat) (i : Z) (history : list NavPoint) (s : State),
  (j < n)%nat ->
  (forall k, (k < j)%nat ->
     answer _ (contract_navHistory (i + Z.of_nat k)) = Resolved (records (i + Z.of_nat k))) ->
  answer _ (contract_navHistory (i + Z.of_nat j)) = Rejected e ->
  exec answer (history_loop fmt n i history) s =
    {| final := s; printed := []; returned := Rejected e |} /\
  requests answer (history_loop fmt n i history) =
    map (fun k => asked (contract_navHistory (i + Z.of_nat k))) (seq 0 (S j)).
Proof.
  induction j as [| j IH]; intros n i history s Hj Hbefore Hfail.
  - destruct n as [| n]; [lia |]. cbn [history_loop]. exec_step.
    cbn [requests bind await]. rewrite Z.add_0_r in Hfail. rewrite Hfail.
    cbn. rewrite Z.add_0_r. split; reflexivity.
  - destruct n as [| n]; [lia |]. cbn [history_loop]. exec_step.
    cbn [requests bind await].
    pose proof (Hbefore 0%nat ltac:(lia)) as H0. rewrite Z.add_0_r in H0. rewrite H0.
    exec_step. cbn [bind requests].
    destruct (IH n (i + 1) (history ++ [point_of fmt (records i)])%list s) as [Hexec Hreq].
    { lia. }
    { intros k Hk. specialize (Hbefore (S k) ltac:(lia)).
      replace (i + 1 + Z.of_nat k) with (i + Z.of_nat (S k)) by lia. exact Hbefore. }
    { replace (i + 1 + Z.of_nat j) with (i + Z.of_nat (S j)) by lia. exact Hfail. }
    rewrite Hexec, Hreq. split; [reflexivity |].
    change (seq 0 (S (S j))) with (0%nat :: seq 1 (S j)).
    cbn [map]. rewrite Z.add_0_r. f_equal.
    rewrite <- seq_shift, map_map. apply map_ext. intros k. f_equal. f_equal. lia.
Qed.

End Requests.

(** ** Loading the fund *)

(** X9.  When the fund queries and every history record up to the reported
    length are read, [loadFundData] makes one request per index in
    ascending order from 0, stores the new snapshot and one history point
    per record in that order, ends the loading, and leaves the error and
    everything about the wallet as they were. *)
Theorem loadFundData_reads_history_in_order (fmt : float -> string) (answer : Oracle)
  (s : State) (r : FundAnswers) (records : Z -> NavRecord) :
  answer _ fund_queries = Resolved r ->
  (forall k, (k < Z.to_nat (ans_getNavHistoryLength r))%nat ->
     answer _ (contract_navHistory (Z.of_nat k)) = Resolved (records (Z.of_nat k))) ->
  let n := Z.to_nat (ans_getNavHistoryLength r) in
  let done := exec answer (loadFundData fmt) s in
  requests answer (loadFundData fmt) =
    asked fund_queries :: map (fun k => asked (contract_navHistory (Z.of_nat k))) (seq 0 n) /\
  returned done = Resolved tt /\
  printed done = [] /\
  final done =
    apply (setLoading false)
      (apply (setNavHistory (map (fun k => point_of fmt (records (Z.of_nat k))) (seq 0 n)))
         (apply (setFundData (Some (fund_of r))) (apply (setLoading true) s))) /\
  List.length (navHistory (final done)) = n /\
  (forall k, (k < n)%nat ->
     nth_error (navHistory (final done)) k = Some (point_of fmt (records (Z.of_nat k)))).
Proof.
  intros Hfund Hall n done.
  destruct (history_loop_all answer fmt records n 0 []
              (apply (setFundData (Some (fund_of r))) (apply (setLoading true) s)))
    as [Hexec Hreq].
  { intros k Hk. rewrite Z.add_0_l. apply Hall. exact Hk. }
  assert (Hsame : map (fun k => point_of fmt (records (0 + Z.of_nat k))) (seq 0 n)
                  = map (fun k => point_of fmt (records (Z.of_nat k))) (seq 0 n)).
  { apply map_ext. intros k. rewrite Z.add_0_l. reflexivity. }
  assert (Hsame' : map (fun k => asked (contract_navHistory (0 + Z.of_nat k))) (seq 0 n)
                   = map (fun k => asked (contract_navHistory (Z.of_nat k))) (seq 0 n)).
  { apply map_ext. intros k. rewrite Z.add_0_l. reflexivity. }
  rewrite Hsame in Hexec. rewrite Hsame' in Hreq. cbn [app] in Hexec.
  assert (Hdone : done =
    {| final :=
         apply (setLoading false)
           (apply (setNavHistory
                     (map (fun k => point_of fmt (records (Z.of_nat k))) (seq 0 n)))
              (apply (setFundData (Some (fund_of r))) (apply (setLoading true) s)));
       printed := [];
       returned := Resolved tt |}).
  { unfold done, loadFundData. exec_step. rewrite Hfund. exec_step.
    rewrite exec_finally, exec_try_catch, exec_bind. fold n. rewrite Hexec.
    reflexivity. }
  split.
  { unfold loadFundData. cbn [bind try_catch finally set await requests].
    rewrite Hfund. cbn [bind try_catch finally set await requests]. f_equal.
    rewrite requests_finally,
      (requests_try_catch answer _ _ _
         (apply (setFundData (Some (fund_of r))) (apply (setLoading true) s))),
      (requests_bind answer _ _ _ _
         (apply (setFundData (Some (fund_of r))) (apply (setLoading true) s))),
      exec_bind.
    fold n. rewrite Hexec, Hreq. cbn. rewrite !app_nil_r. reflexivity. }
  rewrite Hdone. cbn [final printed returned].
  split; [reflexivity |]. split; [reflexivity |]. split; [reflexivity |].
  cbn [apply navHistory]. split.
  - rewrite length_map, length_seq. reflexivity.
  - intros k Hk.
    rewrite nth_error_map, nth_error_seq.
    destruct (Nat.ltb_spec k n); [reflexivity | lia].
Qed.

Lemma loadFundData_reads_history_in_order_witness :
  List.length
    (navHistory (final (exec (oracle_of history_world) (loadFundData plain_dates) initial)))
  = 3%nat.
Proof.
  destruct (loadFundData_reads_history_in_order plain_dates (oracle_of history_world)
              initial _ sample_record eq_refl (fun k _ => eq_refl))
    as (_ & _ & _ & _ & Hlen & _).
  exact Hlen.
Defined.

(** X10.  When the fund queries fail, [loadFundData] asks for nothing
    more, logs the failure, shows the fixed failure message and ends the
    loading; the snapshot and the history are what they were before (none
    on a first load), and its own promise still resolves. *)
Theorem loadFundData_unreachable (fmt : float -> string) (answer : Oracle)
  (s : State) (e : JsError) :
  answer _ fund_queries = Rejected e ->
  let done := exec answer (loadFundData fmt) s in
  requests answer (loadFundData fmt) = [asked fund_queries] /\
  returned done = Resolved tt /\
  printed done = ["Error loading fund data:"] /\
  final done =
    apply (setLoading false) (apply (setError (Some fund_failure)) (apply (setLoading true) s)) /\
  fundData (final done) = fundData s /\
  navHistory (final done) = navHistory s /\
  error_banner (final done) = Some fund_failure /\
  loading (final done) = false.
Proof.
  intros Hfund. cbn zeta. split.
  - unfold loadFundData. cbn [bind try_catch finally set await requests].
    rewrite Hfund. reflexivity.
  - unfold loadFundData. exec_step. rewrite Hfund. exec_step.
    repeat split.
Qed.

Lemma loadFundData_unreachable_witness :
  let s' := final (exec (oracle_of unreachable_world) (loadFundData plain_dates) initial) in
  fundData s' = None /\ error_banner s' = Some fund_failure /\ loading s' = false.
Proof.
  destruct (loadFundData_unreachable plain_dates (oracle_of unreachable_world)
              initial rpc_down eq_refl) as (_ & _ & _ & _ & Hfund & _ & Herr & Hload).
  split; [exact Hfund |]. split; [exact Herr | exact Hload].
Defined.

(** X11.  When the fund queries are read but the history record at index
    [j] is the first that cannot be, [loadFundData] stops asking after that
    index, keeps the new snapshot, leaves the history exactly as it was
    before the load (the points already fetched are dropped), shows the
    failure message and ends the loading. *)
Theorem loadFundData_history_fails (fmt : float -> string) (answer : Oracle)
  (s : State) (r : FundAnswers) (records : Z -> NavRecord) (j : nat) (e : JsError) :
  answer _ fund_queries = Resolved r ->
  (j < Z.to_nat (ans_getNavHistoryLength r))%nat ->
  (forall k, (k < j)%nat ->
     answer _ (contract_navHistory (Z.of_nat k)) = Resolved (records (Z.of_nat k))) ->
  answer _ (contract_navHistory (Z.of_nat j)) = Rejected e ->
  let done := exec answer (loadFundData fmt) s in
  requests answer (loadFundData fmt) =
    asked fund_queries ::
    map (fun k => asked (contract_navHistory (Z.of_nat k))) (seq 0 (S j)) /\
  returned done = Resolved tt /\
  printed done = ["Error loading fund data:"] /\
  final done =
    apply (setLoading false)
      (apply (setError (Some fund_failure))
         (apply (setFundData (Some (fund_of r))) (apply (setLoading true) s))) /\
  fundData (final done) = Some (fund_of r) /\
  navHistory (final done) = navHistory s /\
  error_banner (final done) = Some fund_failure /\
  loading (final done) = false.
Proof.
  intros Hfund Hj Hbefore Hfail. cbn zeta.
  destruct (history_loop_fails answer fmt records e j
              (Z.to_nat (ans_getNavHistoryLength r)) 0 []
              (apply (setFundData (Some (fund_of r))) (apply (setLoading true) s)) Hj)
    as [Hexec Hreq].
  { intros k Hk. rewrite Z.add_0_l. apply Hbefore. exact Hk. }
  { rewrite Z.add_0_l. exact Hfail. }
  assert (Hsame : map (fun k => asked (contract_navHistory (0 + Z.of_nat k))) (seq 0 (S j))
                  = map (fun k => asked (contract_navHistory (Z.of_nat k))) (seq 0 (S j))).
  { apply map_ext. intros k. rewrite Z.add_0_l. reflexivity. }
  rewrite Hsame in Hreq. split.
  { unfold loadFundData. cbn [bind try_catch finally set await requests].
    rewrite Hfund. cbn [bind try_catch finally set await requests]. f_equal.
    rewrite requests_finally,
      (requests_try_catch answer _ _ _
         (apply (setFundData (Some (fund_of r))) (apply (setLoading true) s))),
      (requests_bind answer _ _ _ _
         (apply (setFundData (Some (fund_of r))) (apply (setLoading true) s))),
      exec_bind.
    rewrite Hexec, Hreq. cbn [returned final printed].
    cbn [requests set console_error bind]. rewrite !app_nil_r. reflexivity. }
  unfold loadFundData. exec_step. rewrite Hfund. exec_step.
  rewrite exec_finally, exec_try_catch, exec_bind, Hexec.
  cbn [returned final printed]. exec_step. repeat split.
Qed.

Lemma loadFundData_history_fails_witness :
  let s' := final (exec (oracle_of broken_history_world) (loadFundData plain_dates)
                     initial) in
  fundData s' <> None /\ navHistory s' = [] /\ error_banner s' = Some fund_failure.
Proof.
  assert (Hbefore : forall k, (k < 1)%nat ->
            oracle_of broken_history_world _ (contract_navHistory (Z.of_nat k))
            = Resolved (sample_record (Z.of_nat k))).
  { intros k Hk. assert (k = 0%nat) as -> by lia. reflexivity. }
  destruct (loadFundData_history_fails plain_dates (oracle_of broken_history_world)
              initial _ sample_record 1 rpc_down eq_refl ltac:(cbn; lia)
              Hbefore eq_refl)
    as (_ & _ & _ & _ & Hfund & Hhist & Herr & _).
  split; [rewrite Hfund; discriminate |]. split; [exact Hhist | exact Herr].
Defined.

(** ** Position loads, one after another *)

(** X12.  Position loads compose by overwriting: a load that resolves
    whitelisted leaves the same state whatever earlier loads wrote, and the
    same load run twice leaves what it leaves when run once.  A disconnect
    wipes whatever a load wrote: disconnecting after a load is
    disconnecting. *)
Theorem position_loads_overwrite (answer : Oracle) (s : State) (a b : string) :
  let load x st := final (exec answer (loadLPData x) st) in
  load a (load a s) = load a s /\
  (forall r, answer _ (lp_queries b) = Resolved r -> ans_whitelist r = true ->
     load b (load a s) = load b s) /\
  final (exec answer disconnectWallet (load a s)) = final (exec answer disconnectWallet s).
Proof.
  intros load. subst load. cbv beta. rewrite !exec_loadLPData. split; [| split].
  - destruct (answer _ (lp_queries a)) as [r | e]; cbn [final]; [| reflexivity].
    destruct (ans_whitelist r); reflexivity.
  - intros r Hb Hwl. rewrite Hb. cbn [final]. rewrite Hwl.
    destruct (answer _ (lp_queries a)) as [ra | e]; cbn [final]; [| reflexivity].
    destruct (ans_whitelist ra); reflexivity.
  - destruct (answer _ (lp_queries a)) as [r | e]; cbn [final]; [| reflexivity].
    destruct (ans_whitelist r); reflexivity.
Qed.

Lemma position_loads_overwrite_witness :
  let load x st := final (exec (oracle_of calm_world) (loadLPData x) st) in
  load "0xA" (load "0xB" initial) = load "0xA" initial.
Proof.
  destruct (position_loads_overwrite (oracle_of calm_world) initial "0xB" "0xA")
    as (_ & Hover & _).
  exact (Hover investor_position eq_refl eq_refl).
Defined.

(** ** Account switches *)

(** X13.  An [accountsChanged] event with a first account always
    publishes that account, whatever its position load does.  When the load
    fails, the whitelist flag and the position record of the previous
    account stay: if "Your Investment" was rendered for the previous
    account it is rendered, unchanged, under the new one. *)
Theorem account_switch_keeps_old_position (answer : Oracle) (s : State)
  (a : string) (rest : list string) :
  let done := exec answer (onAccountsChanged (a :: rest)) s in
  returned done = Resolved tt /\
  account (final done) = Some a /\
  (forall e, answer _ (lp_queries a) = Rejected e ->
     final done = apply (setAccount (Some a)) s /\
     isWhitelisted (final done) = isWhitelisted s /\
     lpData (final done) = lpData s /\
     (a <> EmptyString -> your_investment_rendered s = true ->
      your_investment_rendered (final done) = true)).
Proof.
  cbn zeta. unfold onAccountsChanged. exec_step.
  rewrite exec_loadLPData.
  destruct (answer _ (lp_queries a)) as [r | e0]; cbn [final returned].
  - split; [reflexivity |]. split; [destruct (ans_whitelist r); reflexivity |].
    intros e H. discriminate H.
  - split; [reflexivity |]. split; [reflexivity |]. intros e _.
    split; [reflexivity |]. split; [reflexivity |]. split; [reflexivity |].
    intros Ha Hshown. unfold your_investment_rendered in *.
    cbn [apply loading account isWhitelisted lpData str_truthy].
    destruct (String.eqb_spec a EmptyString) as [-> | _]; [contradiction |].
    cbn [negb].
    destruct (loading s), (str_truthy (account s)); cbn in *; try discriminate.
    exact Hshown.
Qed.

Lemma account_switch_keeps_old_position_witness :
  let w := oracle_of flaky_world in
  let s := apply (setLoading false)
             (final (exec w (onAccountsChanged ["0xA"]) initial)) in
  let s' := final (exec w (onAccountsChanged ["0xB"]) s) in
  account s' = Some "0xB" /\ your_investment_rendered s' = true /\
  lpData s' = Some (position_of investor_position).
Proof.
  intros w s s'.
  destruct (account_switch_keeps_old_position w s "0xB" []) as (_ & Hacc & Hfail).
  destruct (Hfail rpc_down eq_refl) as (_ & _ & Hlp & Hshown).
  split; [exact Hacc |]. split.
  - apply Hshown; [discriminate | vm_compute; reflexivity].
  - unfold s'. rewrite Hlp. reflexivity.
Defined.

(** ** Detecting a wallet on mount *)

(** X14.  [checkConnectedWallet] is silent: its promise always resolves
    and it never touches the error, [isConnecting], the fund data, the
    history or [loading].  Without a wallet it makes no request; when
    [eth_accounts] fails (which it only logs) or lists no account, the
    state is left exactly as it was; otherwise the first account is
    published and its position is loaded. *)
Theorem checkConnectedWallet_is_silent (hasWallet : bool) (answer : Oracle) (s : State) :
  let done := exec answer (checkConnectedWallet hasWallet) s in
  returned done = Resolved tt /\
  error (final done) = error s /\
  isConnecting (final done) = isConnecting s /\
  fundData (final done) = fundData s /\
  navHistory (final done) = navHistory s /\
  loading (final done) = loading s /\
  (hasWallet = false -> final done = s /\ requests answer (checkConnectedWallet hasWallet) = []) /\
  (forall e, answer _ eth_accounts = Rejected e ->
     final done = s /\
     (hasWallet = true -> printed done = ["Error checking wallet:"])) /\
  (answer _ eth_accounts = Resolved [] -> final done = s /\ printed done = []) /\
  (forall a rest, hasWallet = true -> answer _ eth_accounts = Resolved (a :: rest) ->
     final done = final (exec answer (loadLPData a) (apply (setAccount (Some a)) s)) /\
     account (final done) = Some a /\
     requests answer (checkConnectedWallet hasWallet) =
       [asked eth_accounts; asked (lp_queries a)]).
Proof.
  cbn zeta. unfold checkConnectedWallet. destruct hasWallet.
  2: { cbn. repeat split; intros; try discriminate; reflexivity. }
  exec_step. cbn [requests bind try_catch await].
  destruct (answer _ eth_accounts) as [[| a rest] | e0]; exec_step;
    cbn [requests bind try_catch await console_error set].
  - repeat split; intros; try discriminate; reflexivity.
  - rewrite exec_try_catch.
    destruct (loadLPData_frame answer a (apply (setAccount (Some a)) s))
      as (Hacc & Hconn & Hfund & Hhist & Herr & Hload).
    rewrite (loadLPData_returns answer a (apply (setAccount (Some a)) s)).
    split; [apply loadLPData_returns |].
    split; [exact Herr |]. split; [exact Hconn |]. split; [exact Hfund |].
    split; [exact Hhist |]. split; [exact Hload |].
    split; [intros H; discriminate H |].
    split; [intros e H; discriminate H |].
    split; [intros H; discriminate H |].
    intros a' rest' _ H. injection H as <- <-.
    split; [reflexivity |]. split; [exact Hacc |].
    rewrite (requests_try_catch answer _ _ _ (apply (setAccount (Some a)) s)),
      loadLPData_returns, app_nil_r.
    unfold loadLPData. cbn [requests bind try_catch await]. f_equal.
    destruct (answer _ (lp_queries a)) as [r | e];
      cbn [requests bind try_catch await console_error set];
      [destruct (ans_whitelist r) |]; reflexivity.
  - repeat split; intros; try discriminate; reflexivity.
Qed.

Lemma checkConnectedWallet_is_silent_witness :
  final (exec (oracle_of empty_wallet_world) (checkConnectedWallet true) initial) = initial.
Proof.
  destruct (checkConnectedWallet_is_silent true (oracle_of empty_wallet_world) initial)
    as (_ & _ & _ & _ & _ & _ & _ & _ & Hempty & _).
  exact (proj1 (Hempty eq_refl)).
Defined.

(** ** A page without wallet *)

Lemma keeps_disconnected_keeps (u : Setter) (s : State) :
  keeps_disconnected u -> wallet_untouched s -> wallet_untouched (apply u s).
Proof.
  unfold wallet_untouched. destruct u; cbn; intros Hu Hs; subst; tauto.
Qed.

Lemma only_keeps_disconnected_loadFundData (fmt : float -> string) :
  only keeps_disconnected (loadFundData fmt).
Proof.
  unfold loadFundData.
  apply only_finally; [| cbn; auto]. apply only_try_catch; [| cbn; auto].
  cbn. split; [exact I |]. intros [r | e]; cbn; [| exact I].
  split; [exact I |].
  apply only_bind; [apply only_history_loop | cbn; auto].
Qed.

Lemma react_without_wallet (fmt : float -> string) (sys : Sys) (ev : Event) :
  sys_inv wallet_untouched sys ->
  sys_inv wallet_untouched (react false fmt sys ev).
Proof.
  intros [Hs Hp].
  assert (Hspawn : forall t, only keeps_disconnected t ->
            sys_inv wallet_untouched (spawn t sys)).
  { intros t Ht. apply spawn_inv; [exact Hp |].
    apply (respects_only _ keeps_disconnected keeps_disconnected_keeps); auto. }
  destruct ev as [i answer | | | accounts |]; cbn [react]; try (split; assumption).
  - destruct (nth_error (pending sys) i) as [[R r k] |] eqn:Hi; [| split; assumption].
    apply spawn_inv; cbn [pending ui].
    + apply Forall_remove_nth. exact Hp.
    + rewrite Forall_forall in Hp.
      exact (Hp (Susp r k) (nth_error_In _ _ Hi) (answer _ r) (ui sys) Hs).
  - destruct (connect_clickable (ui sys)); [| split; assumption].
    apply Hspawn. cbn. auto.
  - destruct (disconnect_clickable (ui sys)); [| split; assumption].
    apply Hspawn. cbn. auto.
Qed.

(** X15.  Without a wallet the page stays read-only whatever happens: in
    every render state no account is connected, [isConnecting] and the
    whitelist flag are false, there is no position record, the connection
    is Disconnected and "Your Investment" and "Wallet Not Whitelisted" are
    not rendered; a click on a connect button only shows the message asking
    to install a wallet. *)
Theorem read_only_without_wallet (fmt : float -> string) (evs : list Event) :
  let s := ui (after false fmt evs) in
  account s = None /\ isConnecting s = false /\
  isWhitelisted s = false /\ lpData s = None /\
  connection s = Disconnected /\
  your_investment_rendered s = false /\
  not_whitelisted_rendered s = false /\
  (forall answer st,
     final (exec answer (connectWallet false) st) =
     apply (setError (Some "Please install MetaMask or another Web3 wallet")) st).
Proof.
  cbn zeta.
  assert (Hinv : sys_inv wallet_untouched (after false fmt evs)).
  { unfold after.
    assert (Hgen : forall sys, sys_inv wallet_untouched sys ->
              sys_inv wallet_untouched (fold_left (react false fmt) evs sys)).
    { induction evs as [| ev evs IH]; intros sys Hsys; cbn; [exact Hsys |].
      apply IH. apply react_without_wallet. exact Hsys. }
    apply Hgen. unfold mounted.
    assert (Hfund : sys_inv wallet_untouched
              (spawn (loadFundData fmt)
                 {| ui := initial; pending := []; console := []; unhandled := [] |})).
    { apply spawn_inv; [constructor |].
      apply (respects_only _ keeps_disconnected keeps_disconnected_keeps).
      - apply only_keeps_disconnected_loadFundData.
      - repeat split. }
    destruct Hfund as [Hs Hp]. apply spawn_inv; [exact Hp | exact Hs]. }
  destruct Hinv as [(Hacc & Hconn & Hwl & Hlp) _].
  split; [exact Hacc |]. split; [exact Hconn |]. split; [exact Hwl |].
  split; [exact Hlp |].
  unfold connection, your_investment_rendered, not_whitelisted_rendered.
  rewrite Hacc, Hconn, Hwl. cbn [str_truthy].
  rewrite !andb_false_r. repeat split.
Qed.

(** ** The fund is loaded once *)

Lemma one_fund_snoc_wallet (l : list Suspended) (q : Suspended) :
  one_fund l -> wallet_pending q -> one_fund (l ++ [q]).
Proof.
  induction 1 as [p l Hp Hl | p l Hp Hl IH]; intros Hq; cbn.
  - apply one_fund_here; [exact Hp |]. apply Forall_app. split; auto.
  - apply one_fund_later; auto.
Qed.

Lemma one_fund_snoc_fund (l : list Suspended) (q : Suspended) :
  Forall wallet_pending l -> fund_pending q -> one_fund (l ++ [q]).
Proof.
  induction 1 as [| p l Hp Hl IH]; intros Hq; cbn.
  - apply one_fund_here; [exact Hq | constructor].
  - apply one_fund_later; auto.
Qed.

Lemma one_fund_remove (l : list Suspended) :
  one_fund l -> forall i p, nth_error l i = Some p ->
  (fund_pending p /\ Forall wallet_pending (remove_nth i l)) \/
  (wallet_pending p /\ one_fund (remove_nth i l)).
Proof.
  induction 1 as [p0 l Hp Hl | p0 l Hp Hl IH]; intros i p Hi.
  - destruct i as [| i]; cbn in *.
    + injection Hi as <-. left. split; assumption.
    + right. split.
      * rewrite Forall_forall in Hl. apply Hl. eapply nth_error_In. exact Hi.
      * apply one_fund_here; [exact Hp |]. apply Forall_remove_nth. exact Hl.
  - destruct i as [| i]; cbn in *.
    + injection Hi as <-. right. split; assumption.
    + destruct (IH i p Hi) as [[Hf Hw] | [Hw Ho]].
      * left. split; [exact Hf |]. constructor; assumption.
      * right. split; [exact Hw |]. apply one_fund_later; assumption.
Qed.

Lemma no_await_finishes (t : Task unit) (s : State) :
  no_await t ->
  match outcome (run t s) with
  | Waiting _ => False
  | _ => True
  end.
Proof.
  revert s. induction t as [a | e | u k IH | m k IH | R r k IH]; cbn; intros s Ht;
    auto; apply IH; exact Ht.
Qed.

(** A fund load under way keeps [loading] true as long as it waits. *)
Lemma run_closing (t : Task unit) :
  forall s, closing t ->
  match outcome (run t s) with
  | Waiting p =>
      fund_pending p /\ (loading s = true -> loading (state_after (run t s)) = true)
  | _ => True
  end.
Proof.
  induction t as [a | e | u k IH | m k IH | R r k IH]; cbn; intros s Ht; auto.
  - destruct u as [a | b | b | d | d | h | e | [|]]; try contradiction;
      try (match goal with
           | |- context [run k (apply ?u s)] => exact (IH (apply u s) Ht)
           end).
    pose proof (no_await_finishes k (apply (setLoading false) s) Ht) as Hfin.
    destruct (outcome (run k (apply (setLoading false) s))); auto. contradiction.
  - apply IH. exact Ht.
Qed.

(** A task outside the fund load leaves the fund fields alone. *)
Lemma run_outside_fund (t : Task unit) :
  forall s, only outside_fund t ->
  loading (state_after (run t s)) = loading s /\
  fundData (state_after (run t s)) = fundData s /\
  navHistory (state_after (run t s)) = navHistory s /\
  match outcome (run t s) with
  | Waiting p => wallet_pending p
  | _ => True
  end.
Proof.
  induction t as [a | e | u k IH | m k IH | R r k IH]; cbn; intros s Ht; auto.
  - destruct Ht as [Hu Hk]. destruct (IH (apply u s) Hk) as (Hl & Hf & Hh & Ho).
    rewrite Hl, Hf, Hh. destruct u; cbn in *; try contradiction; auto.
Qed.

Lemma only_outside_fund_loadLPData (address : string) :
  only outside_fund (loadLPData address).
Proof.
  intros [r | e]; cbn; [destruct (ans_whitelist r) |]; cbn; auto.
Qed.

Lemma only_outside_fund_connectWallet (hasWallet : bool) :
  only outside_fund (connectWallet hasWallet).
Proof.
  unfold connectWallet. destruct hasWallet; [| cbn; auto].
  cbn [negb bind set only]. split; [exact I |]. split; [exact I |].
  apply only_try_catch; [| intros e; cbn; auto].
  apply only_bind; [apply only_await |].
  intros [| a rest]; [exact I |].
  apply only_bind; [apply only_await |]. intros c.
  apply only_bind.
  { unfold ensure_chain. destruct (wrong_chain c); [| exact I].
    apply only_try_catch; [apply only_await |].
    intros e. destruct (code_is e 4902); [apply only_await | exact I]. }
  intros _. apply only_bind; [apply only_outside_fund_loadLPData |].
  intros _. cbn. auto.
Qed.

Lemma only_outside_fund_onAccountsChanged (accounts : list string) :
  only outside_fund (onAccountsChanged accounts).
Proof.
  destruct accounts as [| a rest]; [cbn; auto |]. unfold onAccountsChanged.
  apply only_bind; [cbn; auto | intros _; apply only_outside_fund_loadLPData].
Qed.

Lemma only_outside_fund_checkConnectedWallet (hasWallet : bool) :
  only outside_fund (checkConnectedWallet hasWallet).
Proof.
  destruct hasWallet; [| exact I]. unfold checkConnectedWallet.
  apply only_try_catch; [| cbn; auto].
  apply only_bind; [apply only_await |].
  intros [| a rest]; [exact I |].
  apply only_bind; [cbn; auto | intros _; apply only_outside_fund_loadLPData].
Qed.

Lemma closing_finally (t : Task unit) :
  only leaves_loading t -> closing (finally t (set (setLoading false))).
Proof.
  induction t as [a | e | u k IH | m k IH | R r k IH]; cbn; intros Ht; auto.
  destruct Ht as [Hu Hk]. destruct u; cbn in Hu; try contradiction; auto.
Qed.

(** Starting a task outside the fund load. *)
Lemma spawn_outside_fund (t : Task unit) (sys : Sys) :
  only outside_fund t -> fund_load_once sys ->
  fund_load_once (spawn t sys) /\
  loading (ui (spawn t sys)) = loading (ui sys) /\
  fundData (ui (spawn t sys)) = fundData (ui sys) /\
  navHistory (ui (spawn t sys)) = navHistory (ui sys).
Proof.
  intros Ht Hsys.
  destruct (run_outside_fund t (ui sys) Ht) as (Hl & Hf & Hh & Ho).
  unfold spawn. cbn [ui]. split; [| auto].
  unfold fund_load_once. cbn [ui pending]. rewrite Hl.
  destruct (outcome (run t (ui sys))) as [| e | p]; [exact Hsys | exact Hsys |].
  destruct Hsys as [Hall | [Hload Hone]].
  - left. apply Forall_app. split; auto.
  - right. split; [exact Hload |]. apply one_fund_snoc_wallet; assumption.
Qed.

Lemma mounted_fund_load_once (hasWallet : bool) (fmt : float -> string) :
  fund_load_once (mounted hasWallet fmt).
Proof.
  unfold mounted.
  apply spawn_outside_fund; [apply only_outside_fund_checkConnectedWallet |].
  right. unfold spawn, loadFundData.
  cbn [run bind try_catch finally set await state_after outcome ui pending app].
  split; [reflexivity |].
  apply one_fund_here; [| constructor].
  intros res. apply closing_finally. apply only_try_catch; [| intros e; cbn; auto].
  apply only_bind; [destruct res; exact I |]. intros r.
  cbn [only]. split; [exact I |].
  apply only_bind; [apply only_history_loop | intros h; cbn; auto].
Qed.

(** Every event keeps at most one fund load pending, and an event other
    than a reload that finds [loading] false leaves the fund fields as they
    are. *)
Lemma react_fund_load_once (hasWallet : bool) (fmt : float -> string)
  (sys : Sys) (ev : Event) :
  fund_load_once sys ->
  fund_load_once (react hasWallet fmt sys ev) /\
  (no_reload ev -> loading (ui sys) = false ->
   loading (ui (react hasWallet fmt sys ev)) = false /\
   fundData (ui (react hasWallet fmt sys ev)) = fundData (ui sys) /\
   navHistory (ui (react hasWallet fmt sys ev)) = navHistory (ui sys)).
Proof.
  intros Hsys.
  assert (Hspawn : forall t, only outside_fund t ->
            fund_load_once (spawn t sys) /\
            (loading (ui sys) = false ->
             loading (ui (spawn t sys)) = false /\
             fundData (ui (spawn t sys)) = fundData (ui sys) /\
             navHistory (ui (spawn t sys)) = navHistory (ui sys))).
  { intros t Ht. destruct (spawn_outside_fund t sys Ht Hsys) as (Hi & Hl & Hf & Hh).
    split; [exact Hi |]. intros Hfalse. rewrite Hl. auto. }
  assert (Hstay : fund_load_once sys /\
            (loading (ui sys) = false ->
             loading (ui sys) = false /\ fundData (ui sys) = fundData (ui sys) /\
             navHistory (ui sys) = navHistory (ui sys))) by auto.
  destruct ev as [i answer | | | accounts |]; cbn [react].
  - destruct (nth_error (pending sys) i) as [[R r k] |] eqn:Hi;
      [| split; [exact Hsys | intros _; apply Hstay]].
    set (sys0 := {| ui := ui sys; pending := remove_nth i (pending sys);
                    console := console sys; unhandled := unhandled sys |}).
    assert (Hwallet : wallet_pending (Susp r k) -> fund_load_once sys0 ->
              fund_load_once (spawn (k (answer R r)) sys0) /\
              (no_reload (Settle i answer) -> loading (ui sys) = false ->
               loading (ui (spawn (k (answer R r)) sys0)) = false /\
               fundData (ui (spawn (k (answer R r)) sys0)) = fundData (ui sys) /\
               navHistory (ui (spawn (k (answer R r)) sys0)) = navHistory (ui sys))).
    { intros Hw H0.
      destruct (spawn_outside_fund (k (answer R r)) sys0 (Hw (answer R r)) H0)
        as (Hinv & Hl & Hf & Hh).
      split; [exact Hinv |]. intros _ Hfalse. rewrite Hl. auto. }
    destruct Hsys as [Hall | [Hload Hone]].
    + apply Hwallet.
      * rewrite Forall_forall in Hall. apply Hall. eapply nth_error_In. exact Hi.
      * left. cbn [pending sys0]. apply Forall_remove_nth. exact Hall.
    + destruct (one_fund_remove _ Hone i _ Hi) as [[Hf Hrest] | [Hw Hrest]].
      * split; [| intros _ Hfalse; rewrite Hload in Hfalse; discriminate Hfalse].
        pose proof (run_closing (k (answer R r)) (ui sys) (Hf (answer R r))) as Hrun.
        unfold fund_load_once, spawn. cbn [ui pending sys0].
        destruct (outcome (run (k (answer R r)) (ui sys))) as [| e | p];
          [left; exact Hrest | left; exact Hrest |].
        destruct Hrun as [Hp Hkeep]. right. split; [apply Hkeep; exact Hload |].
        apply one_fund_snoc_fund; assumption.
      * apply Hwallet; [exact Hw |]. right. split; [exact Hload | exact Hrest].
  - destruct (connect_clickable (ui sys)); [| split; [exact Hsys | intros _; apply Hstay]].
    destruct (Hspawn _ (only_outside_fund_connectWallet hasWallet)) as [H1 H2]. auto.
  - destruct (disconnect_clickable (ui sys));
      [| split; [exact Hsys | intros _; apply Hstay]].
    assert (Hd : only outside_fund disconnectWallet) by (cbn; auto).
    destruct (Hspawn _ Hd) as [H1 H2]. auto.
  - destruct hasWallet; [| split; [exact Hsys | intros _; apply Hstay]].
    destruct (Hspawn _ (only_outside_fund_onAccountsChanged accounts)) as [H1 H2]. auto.
  - split; [| intros []].
    destruct hasWallet; [apply mounted_fund_load_once | exact Hsys].
Qed.

Lemma after_fund_load_once (hasWallet : bool) (fmt : float -> string)
  (evs : list Event) :
  fund_load_once (after hasWallet fmt evs).
Proof.
  unfold after.
  assert (Hgen : forall sys, fund_load_once sys ->
            fund_load_once (fold_left (react hasWallet fmt) evs sys)).
  { induction evs as [| ev evs IH]; intros sys Hsys; cbn; [exact Hsys |].
    apply IH. apply react_fund_load_once. exact Hsys. }
  apply Hgen. apply mounted_fund_load_once.
Qed.

(** X16.  While the wallet provider stays what it was at the first
    render, the fund is loaded once for each page load and never retried
    or refreshed: once [loading] is false, whether the load succeeded or
    failed, no click, account change or settled request changes the fund
    snapshot or the history or makes [loading] true again; only a reload
    (here a [chainChanged] event) starts a new load. *)
Theorem fund_data_is_frozen_after_load (hasWallet : bool) (fmt : float -> string)
  (before later : list Event) :
  Forall no_reload later ->
  loading (ui (after hasWallet fmt before)) = false ->
  let sys := after hasWallet fmt before in
  let sys' := fold_left (react hasWallet fmt) later sys in
  loading (ui sys') = false /\
  fundData (ui sys') = fundData (ui sys) /\
  navHistory (ui sys') = navHistory (ui sys).
Proof.
  intros Hlater Hloaded. cbn zeta.
  pose proof (after_fund_load_once hasWallet fmt before) as Hinv.
  revert Hinv Hloaded. generalize (after hasWallet fmt before).
  induction Hlater as [| ev evs Hev Hevs IH]; intros sys Hinv Hloaded; cbn [fold_left].
  - auto.
  - destruct (react_fund_load_once hasWallet fmt sys ev Hinv) as [Hinv' Hkeep].
    destruct (Hkeep Hev Hloaded) as (Hl & Hf & Hh).
    destruct (IH _ Hinv' Hl) as (Hl' & Hf' & Hh').
    rewrite Hl', Hf', Hh'. auto.
Qed.

Lemma fund_data_is_frozen_after_load_witness :
  let w := oracle_of unreachable_world in
  let sys' := fold_left (react true plain_dates)
                [ClickConnect; Settle 1 w; Settle 1 w; Settle 0 w; AccountsChanged ["0xB"]]
                (after true plain_dates [Settle 0 w]) in
  loading (ui sys') = false /\ fundData (ui sys') = None.
Proof.
  intros w sys'.
  destruct (fund_data_is_frozen_after_load true plain_dates [Settle 0 w]
              [ClickConnect; Settle 1 w; Settle 1 w; Settle 0 w; AccountsChanged ["0xB"]])
    as (Hl & Hf & _).
  - repeat constructor.
  - vm_compute. reflexivity.
  - split; [exact Hl |]. fold sys' in Hf. rewrite Hf. vm_compute. reflexivity.
Defined.

(** ** Cards without data *)

(** X17.  When no fund snapshot is stored, as after a failed load, the
    cards still render once [loading] is false: the title falls back to
    "Fund Portal", the Current NAV card reads "$-" with "NaN% since
    inception" below it, and the total shares and the inception date read
    "-".  A stored inception date of zero also reads "-". *)
Theorem cards_without_snapshot (fmt : float -> string) (s : State) :
  fundData s = None ->
  header_title s = "Fund Portal" /\
  nav_text s = "$-" /\
  since_inception_text s = "NaN% since inception" /\
  total_shares_text s = "-" /\
  inception_text fmt s = "-" /\
  (forall st d, fundData st = Some d -> truthy (inceptionDate d) = false ->
     inception_text fmt st = "-").
Proof.
  intros Hnone.
  unfold header_title, nav_text, since_inception_text, total_shares_text,
    inception_text, currentNav_of.
  rewrite Hnone. cbn [option_map to_number formatNumber].
  split; [reflexivity |]. split; [reflexivity |].
  split; [vm_compute; reflexivity |]. split; [reflexivity |]. split; [reflexivity |].
  intros st d Hd Hzero. rewrite Hd. unfold formatDate. rewrite Hzero. reflexivity.
Qed.

Lemma loadFundData_unreachable_facts :
  fundData (final (exec (oracle_of unreachable_world) (loadFundData plain_dates) initial))
    = None /\
  loading (final (exec (oracle_of unreachable_world) (loadFundData plain_dates) initial))
    = false.
Proof.
  vm_compute. split; reflexivity.
Qed.

Lemma cards_without_snapshot_witness :
  let s' := final (exec (oracle_of unreachable_world) (loadFundData plain_dates) initial) in
  nav_text s' = "$-" /\ since_inception_text s' = "NaN% since inception".
Proof.
  destruct (loadFundData_unreachable_facts) as [Hnone _].
  destruct (cards_without_snapshot plain_dates _ Hnone) as (_ & Hnav & Hret & _).
  split; assumption.
Defined.

(** ** What a connect writes, and when *)

Ltac load_stretch Hload written :=
  match goal with
  | |- context [[] :: stretches ?answer ?t] =>
      replace ([] :: stretches answer t) with written by (symmetry; apply Hload)
  end.

(** X19.  The account, the whitelist flag and the position record of a
    connect are written together, in its last synchronous stretch, once
    the position load has answered.  Before its first [await] a connect
    only sets [isConnecting] and clears the error, and between its awaits
    it writes nothing.  The updates of one stretch making one render, the
    new account is never written apart from the outcome of its position
    load, whatever else runs on the page during the waits. *)
Theorem connect_publishes_in_one_stretch (answer : Oracle) :
  exists (waits : list (list Setter)) (last : list Setter),
    stretches answer (connectWallet true) =
      ([setIsConnecting true; setError None] :: waits ++ [last])%list /\
    Forall (fun written => written = []) waits /\
    List.length (requests answer (connectWallet true)) = S (List.length waits) /\
    (last = [] \/
     (exists e, last = [setError (Some (message e)); setIsConnecting false]) \/
     (exists a rest,
        answer _ eth_requestAccounts = Resolved (a :: rest) /\
        In (asked (lp_queries a)) (requests answer (connectWallet true)) /\
        last = (match answer _ (lp_queries a) with
                | Resolved r =>
                    setIsWhitelisted (ans_whitelist r) ::
                    (if ans_whitelist r then [setLpData (Some (position_of r))] else [])
                | Rejected _ => []
                end ++ [setAccount (Some a); setIsConnecting false])%list)).
Proof.
  rewrite requests_connectWallet.
  unfold connectWallet, ensure_chain, loadLPData, switch_request, registration_request.
  cbn [negb stretches bind try_catch set await console_error].
  destruct (answer _ eth_requestAccounts) as [[| a rest] | e] eqn:Hacc;
    cbn [stretches bind try_catch set await console_error].
  { exists [], []. repeat split; auto. }
  2: { exists [], [setError (Some (message e)); setIsConnecting false].
       repeat split; auto. right. left. exists e. reflexivity. }
  set (final_writes :=
         (match answer _ (lp_queries a) with
          | Resolved r =>
              setIsWhitelisted (ans_whitelist r) ::
              (if ans_whitelist r then [setLpData (Some (position_of r))] else [])
          | Rejected _ => []
          end ++ [setAccount (Some a); setIsConnecting false])%list).
  assert (Hload : forall h : JsError -> Task unit,
            stretches answer
              (try_catch
                 (bind
                    (try_catch
                       (bind (await (lp_queries a))
                          (fun r =>
                             bind (set (setIsWhitelisted (ans_whitelist r)))
                               (fun _ =>
                                  if ans_whitelist r
                                  then set (setLpData (Some (position_of r)))
                                  else Ret tt)))
                       (fun _ => console_error "Error loading LP data:"))
                    (fun _ => bind (set (setAccount (Some a)))
                                (fun _ => set (setIsConnecting false)))) h)
            = [[]; final_writes]).
  { intros h. unfold final_writes.
    cbn [stretches bind try_catch set await console_error].
    destruct (answer _ (lp_queries a)) as [r | e];
      cbn [stretches bind try_catch set await console_error app];
      [destruct (ans_whitelist r) |]; reflexivity. }
  assert (Hgo : forall before : list (list Setter),
            Forall (fun written => written = []) before ->
            forall made : list Asked,
              In (asked (lp_queries a)) made ->
              List.length made = S (S (List.length before)) ->
              exists (waits : list (list Setter)) (last : list Setter),
                ([setIsConnecting true; setError None] :: before ++ [[]; final_writes])%list
                = ([setIsConnecting true; setError None] :: waits ++ [last])%list /\
                Forall (fun written => written = []) waits /\
                List.length made = S (List.length waits) /\
                (last = [] \/
                 (exists e, last = [setError (Some (message e)); setIsConnecting false]) \/
                 (exists a0 rest0,
                    Resolved (a :: rest) = Resolved (a0 :: rest0) /\
                    In (asked (lp_queries a0)) made /\
                    last = (match answer _ (lp_queries a0) with
                            | Resolved r =>
                                setIsWhitelisted (ans_whitelist r) ::
                                (if ans_whitelist r
                                 then [setLpData (Some (position_of r))] else [])
                            | Rejected _ => []
                            end ++ [setAccount (Some a0); setIsConnecting false])%list))).
  { intros before Hbefore made Hin Hlen.
    exists (before ++ [[]])%list, final_writes.
    split; [rewrite <- app_assoc; reflexivity |].
    split; [apply Forall_app; split; [exact Hbefore | repeat constructor] |].
    split; [rewrite length_app; cbn [List.length]; lia |].
    right. right. exists a, rest. split; [reflexivity |]. split; [exact Hin |].
    reflexivity. }
  destruct (answer _ eth_chainId) as [c | e];
    cbn [stretches bind try_catch set await console_error].
  2: { exists [[]], [setError (Some (message e)); setIsConnecting false].
       split; [reflexivity |]. split; [repeat constructor |].
       split; [reflexivity |]. right. left. exists e. reflexivity. }
  destruct (wrong_chain c);
    cbn [stretches bind try_catch set await console_error].
  2: { load_stretch Hload ([[]; final_writes]). apply (Hgo [[]]); [repeat constructor | | reflexivity].
       cbn. auto. }
  destruct (answer _ (wallet_switchEthereumChain target_chain)) as [v | e];
    cbn [stretches bind try_catch set await console_error].
  { load_stretch Hload ([[]; final_writes]). apply (Hgo [[]; []]); [repeat constructor | | reflexivity].
    cbn. auto. }
  destruct (code_is e 4902);
    cbn [stretches bind try_catch set await console_error].
  2: { load_stretch Hload ([[]; final_writes]). apply (Hgo [[]; []]); [repeat constructor | | reflexivity].
       cbn. auto. }
  destruct (answer _ (wallet_addEthereumChain _ _ _ _)) as [v | e'];
    cbn [stretches bind try_catch set await console_error].
  - load_stretch Hload ([[]; final_writes]). apply (Hgo [[]; []; []]); [repeat constructor | | reflexivity].
    cbn. auto 6.
  - exists [[]; []; []], [setError (Some (message e')); setIsConnecting false].
    split; [reflexivity |]. split; [repeat constructor |].
    split; [reflexivity |]. right. left. exists e'. reflexivity.
Qed.
